(** * chat-api: conversation service and presence gateway

    A shallow embedding of [src/chat/chat.service.ts] (class [ChatService]),
    of the connection handlers of class [ChatGateway] under
    [src/websockets], and of the two methods of [UsersService] the gateway
    calls, together with the entity declarations they use.

    Modelling conventions.
    - UUID primary keys are opaque identifiers; they are natural numbers
      drawn from the store's [nextId] counter, so a generated key is never
      reused.
    - [new Date()] and the database clock are the explicit argument [now].
    - A table is the list of its rows in insertion order.  A query without
      [ORDER BY] answers in table order, [findOne]/[getOne] give the first
      matching row.
    - The auto-managed [updatedAt] columns, which no code reads, are left
      out; so are the user columns the core never touches.
    - Of the constraints of the database, the one a request can break is
      modelled: [replyToId] of a message is a foreign key, and the insert
      of a message whose [replyToId] is the key of no message fails with
      [QueryFailedError].  The other references a call stores are to the
      requesting user and to rows the call has just looked up; the
      statements speak of users that exist and of stores with sound keys
      ([keysSound], kept by every operation).
    - The service opens no transaction: each awaited [save], [update],
      [remove] and [delete] of a repository is a write committed on its
      own.  [commit] marks the end of each one and [commits] counts them;
      it is a counter of the model, not a table.
    - A service method is a computation [Svc A]: it receives the store and
      gives back a result or a thrown exception together with the store as
      it is at that point; a [throw] after a write keeps the write.
    - Calls are run one after the other.  The one place where a single
      call overlaps its own steps, the [Promise.all] of [markAsRead], has
      a step relation of its own ([overlapStep]); two calls of
      [reactToMessage] that overlap are run await by await
      ([reactSchedule]). *)

From stdpp Require Import base decidable option list strings gmap sorting.

Set Default Proof Using "Type".

Abbreviation Id := nat (only parsing).
Abbreviation Time := nat (only parsing).

(** ** Enumerations of the entity files *)

Inductive ConversationType := DIRECT | GROUP | CHANNEL.
Inductive MessageType := TEXT | IMAGE | VIDEO | AUDIO | FILE | SYSTEM.
Inductive MessageStatus := SENT | DELIVERED | READ | FAILED.
Inductive UserStatus := ONLINE | OFFLINE | AWAY | BUSY.

#[global] Instance ConversationType_eq_dec : EqDecision ConversationType.
Proof. solve_decision. Defined.
#[global] Instance MessageType_eq_dec : EqDecision MessageType.
Proof. solve_decision. Defined.
#[global] Instance MessageStatus_eq_dec : EqDecision MessageStatus.
Proof. solve_decision. Defined.
#[global] Instance UserStatus_eq_dec : EqDecision UserStatus.
Proof. solve_decision. Defined.

(** ** Entities *)

Module User.
Record t := mk {
  id : Id;
  username : string;
  status : UserStatus;
  lastSeen : option Time
}.
#[global] Instance eq_dec : EqDecision t.
Proof. solve_decision. Defined.
End User.

Module Conversation.
(** The columns of table [conversations]. *)
Record row := mkRow {
  id : Id;
  name : option string;
  type : ConversationType;
  description : option string;
  avatar : option string;
  isPrivate : bool;
  createdBy : option Id;
  lastActivity : option Time
}.
#[global] Instance row_eq_dec : EqDecision row.
Proof. solve_decision. Defined.

(** An entity instance: the columns and the [participants] relation,
    [None] when a query did not select it. *)
Record t := mk {
  columns : row;
  participants : option (list User.t)
}.
#[global] Instance eq_dec : EqDecision t.
Proof. solve_decision. Defined.
End Conversation.

Module ConversationAdmin.
Record t := mk {
  id : Id;
  conversationId : Id;
  userId : Id;
  createdAt : Time
}.
#[global] Instance eq_dec : EqDecision t.
Proof. solve_decision. Defined.
End ConversationAdmin.

Module MessageReaction.
Record t := mk {
  id : Id;
  messageId : Id;
  userId : Id;
  emoji : string;
  createdAt : Time
}.
#[global] Instance eq_dec : EqDecision t.
Proof. solve_decision. Defined.
End MessageReaction.

Module MessageRead.
Record t := mk {
  id : Id;
  messageId : Id;
  userId : Id;
  readAt : Time
}.
#[global] Instance eq_dec : EqDecision t.
Proof. solve_decision. Defined.
End MessageRead.

Module Message.
(** The columns of table [messages]; [metadata] is the JSON text. *)
Record row := mkRow {
  id : Id;
  content : string;
  type : MessageType;
  status : MessageStatus;
  senderId : Id;
  conversationId : Id;
  replyToId : option Id;
  isEdited : bool;
  editedAt : option Time;
  isDeleted : bool;
  deletedAt : option Time;
  metadata : option string;
  createdAt : Time
}.
#[global] Instance row_eq_dec : EqDecision row.
Proof. solve_decision. Defined.

(** An entity instance with the relations a [find] can load. *)
Record t := mk {
  columns : row;
  sender : option User.t;
  replyTo : option row;
  reactions : list (MessageReaction.t * option User.t)
}.

(** [messageRepository.update(id, { isDeleted: true, deletedAt })] *)
Definition setDeleted (now : Time) (m : row) : row :=
  mkRow (id m) (content m) (type m) (status m) (senderId m)
    (conversationId m) (replyToId m) (isEdited m) (editedAt m)
    true (Some now) (metadata m) (createdAt m).

(** [messageRepository.update(id, { content, isEdited: true, editedAt })] *)
Definition setEdited (newContent : string) (now : Time) (m : row) : row :=
  mkRow (id m) newContent (type m) (status m) (senderId m)
    (conversationId m) (replyToId m) true (Some now)
    (isDeleted m) (deletedAt m) (metadata m) (createdAt m).
End Message.

(** ** Request bodies ([chat.dto.ts]) *)

Record CreateConversationDto := {
  cc_name : option string;
  cc_type : ConversationType;
  cc_description : option string;
  cc_participantIds : list Id;
  cc_isPrivate : option bool
}.

Record UpdateConversationDto := {
  uc_name : option string;
  uc_description : option string;
  uc_avatar : option string
}.

Record SendMessageDto := {
  sm_content : string;
  sm_type : option MessageType;
  sm_replyToId : option Id;
  sm_metadata : option string
}.

Record AddParticipantDto := { ap_userId : Id }.
Record ReactToMessageDto := { rm_emoji : string }.

(** ** The durable store *)

Record Store := mkStore {
  users : list User.t;
  conversations : list Conversation.row;
  (** join table [conversation_participants]: (conversation_id, user_id) *)
  conversation_participants : list (Id * Id);
  conversation_admins : list ConversationAdmin.t;
  messages : list Message.row;
  message_reactions : list MessageReaction.t;
  message_reads : list MessageRead.t;
  nextId : Id;
  (** the number of repository writes committed so far *)
  commits : nat
}.

#[global] Instance Store_eq_dec : EqDecision Store.
Proof. solve_decision. Defined.

(** ** Exceptions and the service computation type *)

(** What the database rejects: a foreign key that names no row, and a
    negative LIMIT or OFFSET. *)
Inductive DriverError :=
  | ForeignKeyViolation (table column : string)
  | NegativeRowCount.

(** The two exceptions the service throws itself, and the
    [QueryFailedError] of a statement the database rejects. *)
Inductive Exception :=
  | NotFoundException (message : string)
  | ForbiddenException (message : string)
  | QueryFailedError (driverError : DriverError).

Inductive Result (A : Type) :=
  | Ok (a : A)
  | Thrown (e : Exception).
Arguments Ok {A} a.
Arguments Thrown {A} e.

Definition isNotFound {A} (r : Result A) : Prop :=
  match r with Thrown (NotFoundException _) => True | _ => False end.
Definition isForbidden {A} (r : Result A) : Prop :=
  match r with Thrown (ForbiddenException _) => True | _ => False end.
Definition isThrown {A} (r : Result A) : Prop :=
  match r with Thrown _ => True | Ok _ => False end.

Definition Svc (A : Type) : Type := Store → Result A * Store.

Definition ret {A} (a : A) : Svc A := λ s, (Ok a, s).
Definition throw {A} (e : Exception) : Svc A := λ s, (Thrown e, s).
Definition bind {A B} (m : Svc A) (k : A → Svc B) : Svc B :=
  λ s, match m s with
       | (Ok a, s') => k a s'
       | (Thrown e, s') => (Thrown e, s')
       end.
Definition query {A} (f : Store → A) : Svc A := λ s, (Ok (f s), s).
Definition write (f : Store → Store) : Svc unit := λ s, (Ok tt, f s).

Declare Scope svc_scope.
Delimit Scope svc_scope with svc.
Notation "'let*' x ':=' m 'in' k" := (bind m (λ x, k))
  (at level 10, x pattern, m at level 100, k at level 200) : svc_scope.
Notation "m ';;;' k" := (bind m (λ _, k))
  (at level 100, k at level 200, right associativity) : svc_scope.
Open Scope svc_scope.

(** ** Repository primitives *)

Section repository.
Context {A : Type}.

(** [findOne({ where })]: the first row that satisfies the condition. *)
Definition findOne (P : A → Prop) `{∀ x, Decision (P x)} (tbl : list A)
  : option A := head (filter P tbl).

(** [update(id, patch)]: rewrite every row whose key is [i]. *)
Definition updateById (key : A → Id) (i : Id) (patch : A → A)
    (tbl : list A) : list A :=
  (λ r, if decide (key r = i) then patch r else r) <$> tbl.

(** [remove(entity)] and [delete(criteria)]: drop the matching rows. *)
Definition deleteWhere (P : A → Prop) `{∀ x, Decision (P x)}
    (tbl : list A) : list A := filter (λ r, ¬ P r) tbl.
End repository.

(** [[...new Set(xs)]]: the distinct values in order of first occurrence. *)
Definition uniq (xs : list Id) : list Id :=
  foldl (λ seen x, if decide (x ∈ seen) then seen else seen ++ [x]) [] xs.

(** ** Writes to the store, one table at a time *)

Definition setUsers (f : list User.t → list User.t) (s : Store) : Store :=
  mkStore (f (users s)) (conversations s) (conversation_participants s)
    (conversation_admins s) (messages s) (message_reactions s)
    (message_reads s) (nextId s) (commits s).
Definition setConversations
    (f : list Conversation.row → list Conversation.row) (s : Store) : Store :=
  mkStore (users s) (f (conversations s)) (conversation_participants s)
    (conversation_admins s) (messages s) (message_reactions s)
    (message_reads s) (nextId s) (commits s).
Definition setParticipants (f : list (Id * Id) → list (Id * Id))
    (s : Store) : Store :=
  mkStore (users s) (conversations s) (f (conversation_participants s))
    (conversation_admins s) (messages s) (message_reactions s)
    (message_reads s) (nextId s) (commits s).
Definition setAdmins
    (f : list ConversationAdmin.t → list ConversationAdmin.t) (s : Store)
    : Store :=
  mkStore (users s) (conversations s) (conversation_participants s)
    (f (conversation_admins s)) (messages s) (message_reactions s)
    (message_reads s) (nextId s) (commits s).
Definition setMessages (f : list Message.row → list Message.row)
    (s : Store) : Store :=
  mkStore (users s) (conversations s) (conversation_participants s)
    (conversation_admins s) (f (messages s)) (message_reactions s)
    (message_reads s) (nextId s) (commits s).
Definition setReactions
    (f : list MessageReaction.t → list MessageReaction.t) (s : Store)
    : Store :=
  mkStore (users s) (conversations s) (conversation_participants s)
    (conversation_admins s) (messages s) (f (message_reactions s))
    (message_reads s) (nextId s) (commits s).
Definition setReads (f : list MessageRead.t → list MessageRead.t)
    (s : Store) : Store :=
  mkStore (users s) (conversations s) (conversation_participants s)
    (conversation_admins s) (messages s) (message_reactions s)
    (f (message_reads s)) (nextId s) (commits s).

(** [@PrimaryGeneratedColumn('uuid')]: a key no row has had before. *)
Definition generateId : Svc Id :=
  λ s, (Ok (nextId s),
        mkStore (users s) (conversations s) (conversation_participants s)
          (conversation_admins s) (messages s) (message_reactions s)
          (message_reads s) (S (nextId s)) (commits s)).

(** The store after one more repository write has been committed. *)
Definition committed (s : Store) : Store :=
  mkStore (users s) (conversations s) (conversation_participants s)
    (conversation_admins s) (messages s) (message_reactions s)
    (message_reads s) (nextId s) (S (commits s)).

(** The end of a repository write: each [save], [update], [remove] and
    [delete] of the code is awaited on its own and runs in a transaction
    of its own; nothing groups two of them. *)
Definition commit : Svc unit := λ s, (Ok tt, committed s).

(** The end of a [save] of a loaded entity: [save] compares the entity
    with the stored state it was loaded from and sends a write only when
    a column or a join row differs. *)
Definition commitIfChanged (stored : Store) : Svc unit :=
  λ s, if decide (s = stored) then ret tt s else commit s.

Fixpoint forEach {A} (f : A → Svc unit) (l : list A) : Svc unit :=
  match l with
  | [] => ret tt
  | x :: l' => f x ;;; forEach f l'
  end.

(** [ORDER BY createdAt DESC] *)
Definition newerFirst (a b : Message.row) : Prop :=
  Message.createdAt b ≤ Message.createdAt a.
#[global] Instance newerFirst_dec : RelDecision newerFirst.
Proof. intros a b. unfold newerFirst. apply _. Defined.

(** [ORDER BY lastActivity DESC]; PostgreSQL puts NULL first when
    descending. *)
Definition recentFirst (a b : Conversation.row) : Prop :=
  match Conversation.lastActivity a, Conversation.lastActivity b with
  | None, _ => True
  | Some _, None => False
  | Some x, Some y => y ≤ x
  end.
#[global] Instance recentFirst_dec : RelDecision recentFirst.
Proof.
  intros a b. unfold recentFirst.
  destruct (Conversation.lastActivity a), (Conversation.lastActivity b);
    apply _.
Defined.

(** The user ids the join table holds for one conversation. *)
Definition participantIdsOf (conversationId : Id) (s : Store) : list Id :=
  snd <$> filter (λ p, p.1 = conversationId) (conversation_participants s).

(** Saving a conversation whose [participants] array is loaded brings the
    join rows of that conversation in line with the array: a row whose
    user is no longer in the array is removed, a user of the array without
    a row gets one. *)
Definition syncParticipants (conversationId : Id) (ps : list User.t)
    (s : Store) : Store :=
  let ids := User.id <$> ps in
  let present := participantIdsOf conversationId s in
  setParticipants (λ jt,
    filter (λ p, p.1 ≠ conversationId ∨ p.2 ∈ ids) jt ++
    ((λ u, (conversationId, u)) <$> filter (λ u, u ∉ present) (uniq ids))) s.

(** [Object.assign(conversation, updateDto)]: only the keys that are
    present overwrite. *)
Definition assignUpdate (c : Conversation.row) (dto : UpdateConversationDto)
    : Conversation.row :=
  Conversation.mkRow (Conversation.id c)
    (match uc_name dto with Some n => Some n | None => Conversation.name c end)
    (Conversation.type c)
    (match uc_description dto with
     | Some d => Some d | None => Conversation.description c end)
    (match uc_avatar dto with
     | Some a => Some a | None => Conversation.avatar c end)
    (Conversation.isPrivate c) (Conversation.createdBy c)
    (Conversation.lastActivity c).

Definition touchActivity (now : Time) (c : Conversation.row)
    : Conversation.row :=
  Conversation.mkRow (Conversation.id c) (Conversation.name c)
    (Conversation.type c) (Conversation.description c)
    (Conversation.avatar c) (Conversation.isPrivate c)
    (Conversation.createdBy c) (Some now).

(** The foreign key of [replyToId]: no reference, or the key of a stored
    message (deleted or not: the row of a deleted message stays). *)
Definition replyKnown (replyToId : option Id) (s : Store) : Prop :=
  match replyToId with
  | Some r => Exists (λ m, Message.id m = r) (messages s)
  | None => True
  end.
#[global] Instance replyKnown_dec replyToId s :
  Decision (replyKnown replyToId s).
Proof. destruct replyToId; simpl; apply _. Defined.

(** ** [ChatService] *)

Module ChatService.

(** [isUserAdmin] *)
Definition isUserAdmin (conversationId userId : Id) : Svc bool :=
  query (λ s,
    bool_decide (is_Some (findOne
      (λ a, ConversationAdmin.conversationId a = conversationId ∧
            ConversationAdmin.userId a = userId)
      (conversation_admins s)))).

(** The condition of the query of [findDirectConversation] on one
    conversation: type direct, and, the conversation joined with its
    participants and the join rows kept whose participant is one of the
    two users, a group of two rows. *)
Definition directMatch (s : Store) (userId1 userId2 : Id)
    (c : Conversation.row) : Prop :=
  Conversation.type c = DIRECT ∧
  length (filter (λ p, p.1 = Conversation.id c ∧ p.2 ∈ [userId1; userId2])
            (conversation_participants s)) = 2.

#[global] Instance directMatch_dec s a b c : Decision (directMatch s a b c).
Proof. unfold directMatch. apply _. Defined.

(** [findDirectConversation]: [getOne] of that query.  The relation is
    joined but not selected. *)
Definition findDirectConversation (userId1 userId2 : Id)
    : Svc (option Conversation.t) :=
  query (λ s,
    (λ c, Conversation.mk c None) <$>
    findOne (directMatch s userId1 userId2) (conversations s)).

(** [conversationRepository.save] of a new conversation: one row and
    one join row per participant. *)
Definition insertConversation (name : option string)
    (type : ConversationType) (description : option string)
    (isPrivate : option bool) (createdBy : Id)
    (participants : list User.t) (lastActivity : Time)
    : Svc Conversation.t :=
  let* newId := generateId in
  let c := Conversation.mkRow newId name type description None
             (default false isPrivate) (Some createdBy)
             (Some lastActivity) in
  write (setConversations (λ t, t ++ [c])) ;;;
  write (setParticipants
           (λ jt, jt ++ ((λ u, (newId, User.id u)) <$> participants))) ;;;
  commit ;;;
  ret (Conversation.mk c (Some participants)).

Definition insertAdmin (now : Time) (conversationId userId : Id)
    : Svc unit :=
  let* newId := generateId in
  write (setAdmins
           (λ t, t ++ [ConversationAdmin.mk newId conversationId userId now]))
  ;;; commit.

Definition createConversation (now : Time) (userId : Id)
    (createConversationDto : CreateConversationDto) : Svc Conversation.t :=
  let participantIds := cc_participantIds createConversationDto in
  (* Include the creator in participants *)
  let allParticipantIds := uniq (userId :: participantIds) in
  (* Validate participants exist *)
  let* participants :=
    query (λ s, filter (λ u, User.id u ∈ allParticipantIds) (users s)) in
  if decide (length participants ≠ length allParticipantIds) then
    throw (NotFoundException "One or more participants not found")
  else
    (* For direct conversations, check if one already exists *)
    let* existingConversation :=
      match allParticipantIds with
      | [id0; id1] =>
          if decide (cc_type createConversationDto = DIRECT)
          then findDirectConversation id0 id1
          else ret None
      | _ => ret None
      end in
    match existingConversation with
    | Some c => ret c
    | None =>
        let* savedConversation :=
          insertConversation (cc_name createConversationDto)
            (cc_type createConversationDto)
            (cc_description createConversationDto)
            (cc_isPrivate createConversationDto)
            userId participants now in
        (* Make creator admin for group conversations *)
        (if decide (cc_type createConversationDto ≠ DIRECT) then
           insertAdmin now
             (Conversation.id (Conversation.columns savedConversation))
             userId
         else ret tt) ;;;
        ret savedConversation
    end.

(** [getUserConversations] (the columns only; the gateway uses the ids) *)
Definition getUserConversations (userId : Id)
    : Svc (list Conversation.row) :=
  query (λ s,
    merge_sort recentFirst
      (filter (λ c, (Conversation.id c, userId)
                      ∈ conversation_participants s)
         (conversations s))).

(** [getConversationById]: the join is filtered by the requesting user,
    so the loaded [participants] hold that user only. *)
Definition getConversationById (conversationId userId : Id)
    : Svc Conversation.t :=
  let* conversation :=
    query (λ s,
      (λ c, Conversation.mk c
              (Some (filter (λ u, User.id u = userId) (users s)))) <$>
      findOne (λ c, Conversation.id c = conversationId ∧
                    (conversationId, userId) ∈ conversation_participants s)
        (conversations s)) in
  match conversation with
  | None => throw (NotFoundException "Conversation not found or access denied")
  | Some c => ret c
  end.

(** [conversationRepository.save] of a loaded conversation: the
    columns of the entity and the join rows of its [participants]
    replace the stored ones; when that changes nothing, nothing is
    sent. *)
Definition saveConversation (c : Conversation.t) : Svc Conversation.t :=
  let cid := Conversation.id (Conversation.columns c) in
  let* stored := query (λ s, s) in
  write (setConversations
           (updateById Conversation.id cid (λ _, Conversation.columns c))) ;;;
  match Conversation.participants c with
  | Some ps => write (syncParticipants cid ps)
  | None => ret tt
  end ;;;
  commitIfChanged stored ;;;
  ret c.

Definition updateConversation (conversationId userId : Id)
    (updateDto : UpdateConversationDto) : Svc Conversation.t :=
  let* conversation := getConversationById conversationId userId in
  (* Check if user is admin for group conversations *)
  (if decide (Conversation.type (Conversation.columns conversation) ≠ DIRECT)
   then
     let* isAdmin := isUserAdmin conversationId userId in
     if negb isAdmin then
       throw (ForbiddenException "Only admins can update conversation details")
     else ret tt
   else ret tt) ;;;
  saveConversation
    (Conversation.mk
       (assignUpdate (Conversation.columns conversation) updateDto)
       (Conversation.participants conversation)).

(** Loading the [sender] relation of a message row *)
Definition withSender (s : Store) (m : Message.row) : Message.t :=
  Message.mk m (findOne (λ u, User.id u = Message.senderId m) (users s))
    None [].

Definition sendMessage (now : Time) (conversationId userId : Id)
    (sendMessageDto : SendMessageDto) : Svc (option Message.t) :=
  (* Verify user is participant *)
  getConversationById conversationId userId ;;;
  (* [messageRepository.save]: the database refuses the insert of a
     row whose [replyToId] is the key of no message *)
  let* accepted :=
    query (λ s, bool_decide (replyKnown (sm_replyToId sendMessageDto) s)) in
  if negb accepted then
    throw (QueryFailedError (ForeignKeyViolation "messages" "replyToId"))
  else
    let* newId := generateId in
    let savedMessage :=
      Message.mkRow newId (sm_content sendMessageDto)
        (default TEXT (sm_type sendMessageDto)) SENT userId conversationId
        (sm_replyToId sendMessageDto) false None false None
        (sm_metadata sendMessageDto) now in
    write (setMessages (λ t, t ++ [savedMessage])) ;;;
    commit ;;;
    (* Update conversation last activity *)
    write (setConversations
             (updateById Conversation.id conversationId
                (touchActivity now))) ;;;
    commit ;;;
    query (λ s,
      withSender s <$>
      findOne (λ m, Message.id m = Message.id savedMessage) (messages s)).

(** Loading [sender], [replyTo], [reactions] and [reactions.user] *)
Definition withRelations (s : Store) (m : Message.row) : Message.t :=
  Message.mk m
    (findOne (λ u, User.id u = Message.senderId m) (users s))
    (match Message.replyToId m with
     | Some r => findOne (λ m', Message.id m' = r) (messages s)
     | None => None
     end)
    ((λ r, (r, findOne (λ u, User.id u = MessageReaction.userId r)
                 (users s))) <$>
     filter (λ r, MessageReaction.messageId r = Message.id m)
       (message_reactions s)).

(** [findAndCount]: the rows of the condition in order, the window
    [skip]/[take] of them, and the number of all of them.  A [skip] or
    [take] of 0 is left out of the query, so that a [limit] of 0 gives
    every row; a negative one is sent as OFFSET or LIMIT and the
    database rejects the query. *)
Definition getMessages (conversationId userId : Id) (page limit : Z)
    : Svc (list Message.t * nat) :=
  (* Verify user is participant *)
  getConversationById conversationId userId ;;;
  let skip := ((page - 1) * limit)%Z in
  if decide (skip < 0 ∨ limit < 0)%Z then
    throw (QueryFailedError NegativeRowCount)
  else
    let* found :=
      query (λ s,
        let rows :=
          merge_sort newerFirst
            (filter (λ m, Message.conversationId m = conversationId ∧
                          Message.isDeleted m = false) (messages s)) in
        (withRelations s <$>
           (if decide (limit = 0)%Z then rows
            else take (Z.to_nat limit) (drop (Z.to_nat skip) rows)),
         length rows)) in
    ret (reverse found.1, found.2).

Definition deleteMessage (now : Time) (messageId userId : Id) : Svc unit :=
  let* message :=
    query (λ s, findOne (λ m, Message.id m = messageId) (messages s)) in
  match message with
  | None => throw (NotFoundException "Message not found")
  | Some message =>
      (* Check if user is sender or admin *)
      let isOwner := bool_decide (Message.senderId message = userId) in
      let* isAdmin := isUserAdmin (Message.conversationId message) userId in
      if negb isOwner && negb isAdmin then
        throw (ForbiddenException "You can only delete your own messages")
      else
        write (setMessages
                 (updateById Message.id messageId (Message.setDeleted now)))
        ;;; commit
  end.

Definition editMessage (now : Time) (messageId userId : Id)
    (content : string) : Svc (option Message.t) :=
  let* message :=
    query (λ s,
      findOne (λ m, Message.id m = messageId ∧ Message.senderId m = userId)
        (messages s)) in
  match message with
  | None => throw (NotFoundException "Message not found or access denied")
  | Some _ =>
      write (setMessages
               (updateById Message.id messageId
                  (Message.setEdited content now))) ;;;
      commit ;;;
      query (λ s,
        withSender s <$>
        findOne (λ m, Message.id m = messageId) (messages s))
  end.

(** The result is the saved reaction, or [None] for the [null] that
    reports a removal. *)
Definition reactToMessage (now : Time) (messageId userId : Id)
    (reactDto : ReactToMessageDto) : Svc (option MessageReaction.t) :=
  let* message :=
    query (λ s, findOne (λ m, Message.id m = messageId) (messages s)) in
  match message with
  | None => throw (NotFoundException "Message not found")
  | Some _ =>
      (* Check if reaction already exists *)
      let* existingReaction :=
        query (λ s,
          findOne (λ r, MessageReaction.messageId r = messageId ∧
                        MessageReaction.userId r = userId ∧
                        MessageReaction.emoji r = rm_emoji reactDto)
            (message_reactions s)) in
      match existingReaction with
      | Some existing =>
          (* Remove reaction if it exists *)
          write (setReactions
                   (deleteWhere (λ r, MessageReaction.id r
                                      = MessageReaction.id existing))) ;;;
          commit ;;;
          ret None
      | None =>
          (* Add new reaction *)
          let* newId := generateId in
          let reaction :=
            MessageReaction.mk newId messageId userId
              (rm_emoji reactDto) now in
          write (setReactions (λ t, t ++ [reaction])) ;;;
          commit ;;;
          ret (Some reaction)
      end
  end.

(** One callback of [messages.map(async (message) => ...)] *)
Definition markOne (now : Time) (userId : Id) (message : Message.row)
    : Svc unit :=
  let* existingRead :=
    query (λ s,
      findOne (λ r, MessageRead.messageId r = Message.id message ∧
                    MessageRead.userId r = userId)
        (message_reads s)) in
  match existingRead with
  | Some _ => ret tt
  | None =>
      let* newId := generateId in
      write (setReads
               (λ t, t ++ [MessageRead.mk newId (Message.id message)
                             userId now])) ;;;
      commit
  end.

(** [markAsRead]; the callbacks of [Promise.all] are run one after the
    other in the order of the query result.  [overlapStep] lets them
    overlap; [markAsRead_any_schedule] shows that this makes no
    difference to the markers. *)
Definition markAsRead (now : Time) (conversationId userId : Id)
    : Svc unit :=
  let* messages :=
    query (λ s,
      merge_sort newerFirst
        (filter (λ m, Message.conversationId m = conversationId)
           (messages s))) in
  forEach (markOne now userId) messages.

Definition addParticipant (conversationId userId : Id)
    (addParticipantDto : AddParticipantDto) : Svc unit :=
  let* conversation := getConversationById conversationId userId in
  if decide (Conversation.type (Conversation.columns conversation) = DIRECT)
  then
    throw (ForbiddenException
             "Cannot add participants to direct conversations")
  else
    (* Check if user is admin *)
    let* isAdmin := isUserAdmin conversationId userId in
    if negb isAdmin then
      throw (ForbiddenException "Only admins can add participants")
    else
      let* newParticipant :=
        query (λ s,
          findOne (λ u, User.id u = ap_userId addParticipantDto)
            (users s)) in
      match newParticipant with
      | None => throw (NotFoundException "User not found")
      | Some newParticipant =>
          saveConversation
            (Conversation.mk (Conversation.columns conversation)
               ((λ ps, ps ++ [newParticipant]) <$>
                Conversation.participants conversation)) ;;;
          ret tt
      end.

Definition removeParticipant (conversationId userId participantId : Id)
    : Svc unit :=
  let* conversation := getConversationById conversationId userId in
  if decide (Conversation.type (Conversation.columns conversation) = DIRECT)
  then
    throw (ForbiddenException
             "Cannot remove participants from direct conversations")
  else
    let* isAdmin := isUserAdmin conversationId userId in
    let isRemovingSelf := bool_decide (userId = participantId) in
    if negb isAdmin && negb isRemovingSelf then
      throw (ForbiddenException "Only admins can remove other participants")
    else
      saveConversation
        (Conversation.mk (Conversation.columns conversation)
           (filter (λ p, User.id p ≠ participantId) <$>
            Conversation.participants conversation)) ;;;
      (* Remove admin role if removing admin *)
      write (setAdmins
               (deleteWhere
                  (λ a, ConversationAdmin.conversationId a = conversationId ∧
                        ConversationAdmin.userId a = participantId))) ;;;
      commit.

Section search.
(** [content ILIKE pattern], as the database decides it *)
Context (ilike : string → string → bool).

Definition searchMessages (conversationId userId : Id)
    (queryText : string) : Svc (list Message.t) :=
  (* Verify user is participant *)
  getConversationById conversationId userId ;;;
  query (λ s,
    withSender s <$>
    merge_sort newerFirst
      (filter (λ m, Message.conversationId m = conversationId ∧
                    ilike (Message.content m)
                      ("%" +:+ queryText +:+ "%") = true ∧
                    Message.isDeleted m = false) (messages s))).
End search.

End ChatService.

(** ** [UsersService], the two methods the gateway calls *)

Module UsersService.

Definition findById (id : Id) : Svc User.t :=
  let* user := query (λ s, findOne (λ u, User.id u = id) (users s)) in
  match user with
  | None => throw (NotFoundException "User not found")
  | Some user => ret user
  end.

Definition updateStatus (now : Time) (id : Id) (status : UserStatus)
    : Svc unit :=
  write (setUsers
           (updateById User.id id
              (λ u, User.mk (User.id u) (User.username u) status
                      (Some now)))) ;;;
  commit.

End UsersService.

(** ** [ChatGateway]: connection tracking *)

Module ChatGateway.

(** [AuthenticatedSocket]: the socket id, the token the handshake
    carries ([None] when there is none or it is empty), and the two
    fields set on a successful connect. *)
Record AuthenticatedSocket := mkSocket {
  id : string;
  handshakeToken : option string;
  userId : option Id;
  user : option User.t
}.

(** What a handler does to the outside, in order. *)
Inductive Effect :=
  | UpdateStatus (userId : Id) (status : UserStatus)
  | JoinRoom (socket : string) (conversationId : Id)
  | BroadcastEmit (socket : string) (event : string) (userId : Id)
  | DisconnectSocket (socket : string).

#[global] Instance Effect_eq_dec : EqDecision Effect.
Proof. solve_decision. Defined.

Record State := mkState {
  (** userId -> Set of socketIds *)
  connectedUsers : gmap Id (gset string);
  db : Store;
  effects : list Effect
}.

Definition emit (es : list Effect) (st : State) : State :=
  mkState (connectedUsers st) (db st) (effects st ++ es).

Section handlers.
(** [jwtService.verify]: the [sub] of a valid token, [None] when it
    throws. *)
Context (verify : string → option Id).

Definition handleConnection (now : Time) (client : AuthenticatedSocket)
    (st : State) : AuthenticatedSocket * State :=
  match handshakeToken client with
  | None => (client, emit [DisconnectSocket (id client)] st)
  | Some token =>
      match verify token with
      | None => (client, emit [DisconnectSocket (id client)] st)
      | Some sub =>
          match UsersService.findById sub (db st) with
          | (Thrown _, _) =>
              (client, emit [DisconnectSocket (id client)] st)
          | (Ok user, _) =>
              let uid := User.id user in
              let client' :=
                mkSocket (id client) (handshakeToken client)
                  (Some uid) (Some user) in
              (* Track connected user *)
              let sockets :=
                default ∅ (connectedUsers st !! uid) in
              let connected :=
                <[uid := sockets ∪ {[id client]}]> (connectedUsers st) in
              (* Update user status to online *)
              let db1 :=
                (UsersService.updateStatus now uid ONLINE (db st)).2 in
              (* Join user to their conversations *)
              let conversations :=
                match ChatService.getUserConversations uid db1 with
                | (Ok cs, _) => cs
                | (Thrown _, _) => []
                end in
              (client',
               mkState connected db1
                 (effects st ++
                  [UpdateStatus uid ONLINE] ++
                  ((λ c, JoinRoom (id client) (Conversation.id c))
                     <$> conversations) ++
                  [BroadcastEmit (id client) "user:online" uid]))
          end
      end
  end.

Definition handleDisconnect (now : Time) (client : AuthenticatedSocket)
    (st : State) : State :=
  match userId client with
  | None => st
  | Some uid =>
      match connectedUsers st !! uid with
      | None => st
      | Some userSockets =>
          (* the Set held by the Map is changed in place *)
          let userSockets' := userSockets ∖ {[id client]} in
          let connected := <[uid := userSockets']> (connectedUsers st) in
          (* If no more sockets for this user, mark as offline *)
          if decide (size userSockets' = 0) then
            mkState (delete uid connected)
              (UsersService.updateStatus now uid OFFLINE (db st)).2
              (effects st ++
               [UpdateStatus uid OFFLINE;
                BroadcastEmit (id client) "user:offline" uid])
          else mkState connected (db st) (effects st)
      end
  end.
End handlers.

(** *** The event handlers *)

(** Whom an emit reaches: the acting socket ([client.emit]), the room
    of a conversation ([server.to]), that room without the acting
    socket ([client.to]), or every connected socket ([server.emit]). *)
Inductive Audience :=
  | ToClient (socket : string)
  | ToRoom (conversationId : Id)
  | ToRoomButClient (socket : string) (conversationId : Id)
  | ToAll.

(** The objects the handlers send. *)
Inductive Payload :=
  | ErrorMessage (message : string)
  | MessageNew (message : option Message.t) (conversationId : Id)
  | MessageSent (messageId : Id)
  | MessageEdited (message : Message.t)
  | MessageDeleted (messageId : Id)
  | MessageReacted (messageId : Id) (reaction : option MessageReaction.t)
      (action : string)
  | TypingStart (userId : Id) (user : option User.t) (conversationId : Id)
  | TypingStop (userId : Id) (conversationId : Id)
  | ConversationRead (userId : Id) (conversationId : Id) (readAt : Time)
  | UserStatusChanged (userId : Id) (status : UserStatus).

(** What a handler does to the sockets, in order. *)
Inductive Action :=
  | Emit (audience : Audience) (event : string) (payload : Payload)
  | Join (socket : string) (conversationId : Id)
  | Leave (socket : string) (conversationId : Id).

Record Hub := mkHub {
  store : Store;
  (** conversationId -> Set of userIds *)
  typingUsers : gmap Id (gset Id);
  outbox : list Action
}.

Definition send (actions : list Action) (h : Hub) : Hub :=
  mkHub (store h) (typingUsers h) (outbox h ++ actions).

(** [client.emit('error', { message })] of a [catch] block, with the
    store as the failed call left it. *)
Definition fail (client : AuthenticatedSocket) (message : string)
    (s : Store) (h : Hub) : Hub :=
  mkHub s (typingUsers h)
    (outbox h ++ [Emit (ToClient (id client)) "error" (ErrorMessage message)]).

Definition handleJoinConversation (client : AuthenticatedSocket)
    (conversationId : Id) (h : Hub) : Hub :=
  match userId client with
  | None => h
  | Some uid =>
      (* Verify user is participant in conversation *)
      match ChatService.getConversationById conversationId uid (store h) with
      | (Ok _, s) =>
          mkHub s (typingUsers h)
            (outbox h ++ [Join (id client) conversationId])
      | (Thrown _, s) => fail client "Cannot join conversation" s h
      end
  end.

Definition handleLeaveConversation (client : AuthenticatedSocket)
    (conversationId : Id) (h : Hub) : Hub :=
  send [Leave (id client) conversationId] h.

(** A [null] message makes [message.id] throw inside the [try], after
    the first emit. *)
Definition handleSendMessage (now : Time) (client : AuthenticatedSocket)
    (conversationId : Id) (data : SendMessageDto) (h : Hub) : Hub :=
  match userId client with
  | None => h
  | Some uid =>
      match ChatService.sendMessage now conversationId uid data (store h)
      with
      | (Ok message, s) =>
          (* Emit message to all participants in the conversation *)
          let h' :=
            mkHub s (typingUsers h)
              (outbox h ++
               [Emit (ToRoom conversationId) "message:new"
                  (MessageNew message conversationId)]) in
          match message with
          | Some m =>
              (* Send delivery confirmation to sender *)
              send [Emit (ToClient (id client)) "message:sent"
                      (MessageSent (Message.id (Message.columns m)))] h'
          | None => fail client "Failed to send message" s h'
          end
      | (Thrown _, s) => fail client "Failed to send message" s h
      end
  end.

Definition handleEditMessage (now : Time) (client : AuthenticatedSocket)
    (messageId : Id) (content : string) (h : Hub) : Hub :=
  match userId client with
  | None => h
  | Some uid =>
      match ChatService.editMessage now messageId uid content (store h) with
      | (Ok (Some message), s) =>
          (* Emit edited message to all participants *)
          mkHub s (typingUsers h)
            (outbox h ++
             [Emit (ToRoom (Message.conversationId (Message.columns message)))
                "message:edited" (MessageEdited message)])
      | (Ok None, s) => fail client "Failed to edit message" s h
      | (Thrown _, s) => fail client "Failed to edit message" s h
      end
  end.

Definition handleDeleteMessage (now : Time) (client : AuthenticatedSocket)
    (messageId : Id) (h : Hub) : Hub :=
  match userId client with
  | None => h
  | Some uid =>
      match ChatService.deleteMessage now messageId uid (store h) with
      | (Ok _, s) =>
          (* Emit deletion to all connected users *)
          mkHub s (typingUsers h)
            (outbox h ++
             [Emit ToAll "message:deleted" (MessageDeleted messageId)])
      | (Thrown _, s) => fail client "Failed to delete message" s h
      end
  end.

Definition handleReactToMessage (now : Time) (client : AuthenticatedSocket)
    (messageId : Id) (emoji : string) (h : Hub) : Hub :=
  match userId client with
  | None => h
  | Some uid =>
      match ChatService.reactToMessage now messageId uid
              {| rm_emoji := emoji |} (store h) with
      | (Ok reaction, s) =>
          mkHub s (typingUsers h)
            (outbox h ++
             [Emit ToAll "message:reaction"
                (MessageReacted messageId reaction
                   (match reaction with
                    | Some _ => "added"
                    | None => "removed"
                    end))])
      | (Thrown _, s) => fail client "Failed to react to message" s h
      end
  end.

Definition handleTypingStart (client : AuthenticatedSocket)
    (conversationId : Id) (h : Hub) : Hub :=
  match userId client with
  | None => h
  | Some uid =>
      let typing := default ∅ (typingUsers h !! conversationId) in
      mkHub (store h)
        (<[conversationId := typing ∪ {[uid]}]> (typingUsers h))
        (* Emit to other participants in the conversation *)
        (outbox h ++
         [Emit (ToRoomButClient (id client) conversationId) "typing:start"
            (TypingStart uid (user client) conversationId)])
  end.

Definition handleTypingStop (client : AuthenticatedSocket)
    (conversationId : Id) (h : Hub) : Hub :=
  match userId client with
  | None => h
  | Some uid =>
      let typing :=
        match typingUsers h !! conversationId with
        | None => typingUsers h
        | Some typingSet =>
            let typingSet' := typingSet ∖ {[uid]} in
            if decide (size typingSet' = 0)
            then delete conversationId
                   (<[conversationId := typingSet']> (typingUsers h))
            else <[conversationId := typingSet']> (typingUsers h)
        end in
      mkHub (store h) typing
        (* Emit to other participants in the conversation *)
        (outbox h ++
         [Emit (ToRoomButClient (id client) conversationId) "typing:stop"
            (TypingStop uid conversationId)])
  end.

(** [readAt] is the [new Date()] of the emit. *)
Definition handleMarkAsRead (now readAt : Time)
    (client : AuthenticatedSocket) (conversationId : Id) (h : Hub) : Hub :=
  match userId client with
  | None => h
  | Some uid =>
      match ChatService.markAsRead now conversationId uid (store h) with
      | (Ok _, s) =>
          (* Emit to other participants that this user has read the
             conversation *)
          mkHub s (typingUsers h)
            (outbox h ++
             [Emit (ToRoomButClient (id client) conversationId)
                "conversation:read"
                (ConversationRead uid conversationId readAt)])
      | (Thrown _, s) => fail client "Failed to mark as read" s h
      end
  end.

Definition handleUpdateStatus (now : Time) (client : AuthenticatedSocket)
    (status : UserStatus) (h : Hub) : Hub :=
  match userId client with
  | None => h
  | Some uid =>
      match UsersService.updateStatus now uid status (store h) with
      | (Ok _, s) =>
          (* Notify all connected users about status change *)
          mkHub s (typingUsers h)
            (outbox h ++
             [Emit ToAll "user:status" (UserStatusChanged uid status)])
      | (Thrown _, s) => fail client "Failed to update status" s h
      end
  end.

(** [emitToUser]: the emits [server.to(socketId).emit(event, data)],
    as (socket, event, data), one for each socket of the user. *)
Definition emitToUser {D} (connected : gmap Id (gset string))
    (userId : Id) (event : string) (data : D)
    : list (string * string * D) :=
  match connected !! userId with
  | None => []
  | Some userSockets =>
      (λ socketId, (socketId, event, data)) <$> elements userSockets
  end.

End ChatGateway.

(** * Vocabulary of the statements *)

(** The rows of [message_reactions] for one (message, user, emoji). *)
Definition reactionsOf (messageId userId : Id) (emoji : string) (s : Store)
    : list MessageReaction.t :=
  filter (λ r, MessageReaction.messageId r = messageId ∧
               MessageReaction.userId r = userId ∧
               MessageReaction.emoji r = emoji) (message_reactions s).

(** Some message has the key. *)
Definition messageExists (messageId : Id) (s : Store) : Prop :=
  Exists (λ m, Message.id m = messageId) (messages s).

(** One insertion into the [Set] of [uniq]. *)
Definition addOnce (seen : list Id) (x : Id) : list Id :=
  if decide (x ∈ seen) then seen else seen ++ [x].

Import ChatService (directMatch).

(** The store after [createConversation] has inserted a direct
    conversation with key [nextId s] for the users [ps]. *)
Definition withDirect (c : Conversation.row) (ps : list User.t) (s : Store)
    : Store :=
  mkStore (users s) (conversations s ++ [c])
    (conversation_participants s
     ++ ((λ u, (Conversation.id c, User.id u)) <$> ps))
    (conversation_admins s) (messages s) (message_reactions s)
    (message_reads s) (S (nextId s)) (S (commits s)).


(** The rows of [message_reads] for one (message, user). *)
Definition readMarkers (messageId userId : Id) (rs : list MessageRead.t)
    : list MessageRead.t :=
  filter (λ r, MessageRead.messageId r = messageId ∧
               MessageRead.userId r = userId) rs.

(** The store after read markers have been inserted: the table is [rs],
    the key counter [n], and each key drawn was one insert. *)
Definition withReads (rs : list MessageRead.t) (n : Id) (s : Store) : Store :=
  mkStore (users s) (conversations s) (conversation_participants s)
    (conversation_admins s) (messages s) (message_reactions s) rs n
    (commits s + (n - nextId s)).

(** What one callback of [markAsRead] does to the table of read markers
    and to the key counter. *)
Definition markStep (now : Time) (userId : Id)
    (acc : list MessageRead.t * Id) (message : Message.row)
    : list MessageRead.t * Id :=
  match readMarkers (Message.id message) userId acc.1 with
  | [] => (acc.1 ++ [MessageRead.mk acc.2 (Message.id message) userId now],
           S acc.2)
  | _ :: _ => acc
  end.

(** The messages [markAsRead] goes through. *)
Definition messagesOf (conversationId : Id) (s : Store) : list Message.row :=
  merge_sort newerFirst
    (filter (λ m, Message.conversationId m = conversationId) (messages s)).

(** [Promise.all] lets the callbacks of [markAsRead] overlap.  A callback
    has asked for the marker of its message, or has the answer, or is
    done; the database answers the questions and performs the inserts one
    at a time, in any order that keeps each callback's own order. *)
Inductive Phase := Asked | Answered (existing : bool) | Settled.

#[global] Instance Phase_eq_dec : EqDecision Phase.
Proof. solve_decision. Defined.

Inductive overlapStep (now : Time) (userId : Id)
  : relation (list MessageRead.t * Id * list (Message.row * Phase)) :=
  | overlap_answer rs n before m after :
      overlapStep now userId
        (rs, n, before ++ (m, Asked) :: after)
        (rs, n,
         before
         ++ (m, Answered
                  (bool_decide (readMarkers (Message.id m) userId rs ≠ [])))
            :: after)
  | overlap_skip rs n before m after :
      overlapStep now userId
        (rs, n, before ++ (m, Answered true) :: after)
        (rs, n, before ++ (m, Settled) :: after)
  | overlap_save rs n before m after :
      overlapStep now userId
        (rs, n, before ++ (m, Answered false) :: after)
        (rs ++ [MessageRead.mk n (Message.id m) userId now], S n,
         before ++ (m, Settled) :: after).

(** A complete overlapped run of [markAsRead] from one store to the
    table of read markers it ends with. *)
Definition overlappedRun (now : Time) (conversationId userId : Id)
    (s : Store) (rs' : list MessageRead.t) : Prop :=
  ∃ n',
    rtc (overlapStep now userId)
      (message_reads s, nextId s,
       (λ m, (m, Asked)) <$> messagesOf conversationId s)
      (rs', n', (λ m, (m, Settled)) <$> messagesOf conversationId s).

(** A message without a marker of the user among [rs0]. *)
Definition lacking (userId : Id) (rs0 : list MessageRead.t)
    (m : Message.row) : Prop :=
  readMarkers (Message.id m) userId rs0 = [].

(** What holds all along an overlapped run that started with the
    markers [rs0] and the messages [msgs]: the callbacks are those of the
    messages, an answer received tells whether [rs0] had a marker, and the
    rows added so far are markers of the user for the messages without a
    marker in [rs0] whose callback is done. *)
Definition overlapInv (userId : Id) (rs0 : list MessageRead.t)
    (msgs : list Message.row)
    (st : list MessageRead.t * Id * list (Message.row * Phase)) : Prop :=
  fst <$> st.2 = msgs ∧
  Forall (λ t, ∀ b, t.2 = Answered b →
                    b = bool_decide (¬ lacking userId rs0 t.1)) st.2 ∧
  ∃ added,
    st.1.1 = rs0 ++ added ∧
    Forall (λ r, MessageRead.userId r = userId) added ∧
    MessageRead.messageId <$> added
      ≡ₚ Message.id <$>
           (fst <$> filter (λ t, t.2 = Settled ∧ lacking userId rs0 t.1)
                      st.2).

(** The (message, user) pairs a table of read markers holds. *)
Definition markerPairs (rs : list MessageRead.t) : list (Id * Id) :=
  (λ r, (MessageRead.messageId r, MessageRead.userId r)) <$> rs.

(** [reactToMessage] await by await.  A call is about to look up the
    message, to look up the reaction, to remove the reaction it has
    found, to save a new one, or it has returned.  Each of these is one
    statement of the database; between two of them another call can take
    a step of its own. *)
Inductive ReactPhase :=
  | FindMessage
  | FindReaction
  | RemoveReaction (existingReaction : MessageReaction.t)
  | SaveReaction
  | Returned (result : Result (option MessageReaction.t)).

Record ReactCall := mkReactCall {
  rc_now : Time;
  rc_messageId : Id;
  rc_userId : Id;
  rc_dto : ReactToMessageDto
}.

(** The next step of one call. *)
Definition reactStep (call : ReactCall) (phase : ReactPhase) (s : Store)
    : ReactPhase * Store :=
  match phase with
  | FindMessage =>
      match findOne (λ m, Message.id m = rc_messageId call) (messages s) with
      | None => (Returned (Thrown (NotFoundException "Message not found")), s)
      | Some _ => (FindReaction, s)
      end
  | FindReaction =>
      (* Check if reaction already exists *)
      match findOne (λ r, MessageReaction.messageId r = rc_messageId call ∧
                          MessageReaction.userId r = rc_userId call ∧
                          MessageReaction.emoji r = rm_emoji (rc_dto call))
              (message_reactions s) with
      | Some existing => (RemoveReaction existing, s)
      | None => (SaveReaction, s)
      end
  | RemoveReaction existing =>
      (* Remove reaction if it exists *)
      (Returned (Ok None),
       committed
         (setReactions
            (deleteWhere
               (λ r, MessageReaction.id r = MessageReaction.id existing)) s))
  | SaveReaction =>
      (* Add new reaction *)
      let saved :=
        (let* newId := generateId in
         let reaction :=
           MessageReaction.mk newId (rc_messageId call) (rc_userId call)
             (rm_emoji (rc_dto call)) (rc_now call) in
         write (setReactions (λ t, t ++ [reaction])) ;;;
         commit ;;;
         ret (Some reaction)) s in
      (Returned saved.1, saved.2)
  | Returned result => (Returned result, s)
  end.

(** The calls under way with the phase of each, and the turn of the
    [i]-th of them. *)
Definition reactTurn (st : Store * list (ReactCall * ReactPhase)) (i : nat)
    : Store * list (ReactCall * ReactPhase) :=
  match st.2 !! i with
  | None => st
  | Some (call, phase) =>
      let next := reactStep call phase st.1 in
      (next.2, <[i := (call, next.1)]> st.2)
  end.

(** The calls started together and run in the order of [turns], each
    turn one step of the call it names. *)
Definition reactSchedule (turns : list nat) (calls : list ReactCall)
    (s : Store) : Store * list (ReactCall * ReactPhase) :=
  foldl reactTurn (s, (λ call, (call, FindMessage)) <$> calls) turns.

(** The messages of a conversation that are not deleted, in table order. *)
Definition liveMessages (conversationId : Id) (s : Store)
    : list Message.row :=
  filter (λ m, Message.conversationId m = conversationId ∧
               Message.isDeleted m = false) (messages s).

(** Chronological order *)
Definition olderFirst (a b : Message.row) : Prop :=
  Message.createdAt a ≤ Message.createdAt b.

(** The durable status of a user. *)
Definition statusOf (userId : Id) (s : Store) : option UserStatus :=
  User.status <$> findOne (λ u, User.id u = userId) (users s).

(** How often a list of effects sets a user offline, and how often it
    broadcasts that the user is offline. *)
Definition offlineUpdates (userId : Id) (es : list ChatGateway.Effect) : nat :=
  length (filter (λ e, e = ChatGateway.UpdateStatus userId OFFLINE) es).
Definition isOfflineBroadcast (userId : Id) (e : ChatGateway.Effect) : Prop :=
  match e with
  | ChatGateway.BroadcastEmit _ event u => event = "user:offline" ∧ u = userId
  | _ => False
  end.
#[global] Instance isOfflineBroadcast_dec userId e :
  Decision (isOfflineBroadcast userId e).
Proof. destruct e; simpl; apply _. Defined.
Definition offlineBroadcasts (userId : Id) (es : list ChatGateway.Effect)
    : nat :=
  length (filter (isOfflineBroadcast userId) es).

(** The operations of the conversation service that can fail. *)
Inductive Operation :=
  | CreateConversation (now : Time) (userId : Id)
      (dto : CreateConversationDto)
  | UpdateConversation (conversationId userId : Id)
      (dto : UpdateConversationDto)
  | SendMessage (now : Time) (conversationId userId : Id)
      (dto : SendMessageDto)
  | EditMessage (now : Time) (messageId userId : Id) (content : string)
  | DeleteMessage (now : Time) (messageId userId : Id)
  | ReactToMessage (now : Time) (messageId userId : Id)
      (dto : ReactToMessageDto)
  | AddParticipant (conversationId userId : Id) (dto : AddParticipantDto)
  | RemoveParticipant (conversationId userId participantId : Id).

(** Forgetting the value a call returns. *)
Definition void {A} (m : Svc A) : Svc unit := m ;;; ret tt.

Definition perform (op : Operation) : Svc unit :=
  match op with
  | CreateConversation now userId dto =>
      void (ChatService.createConversation now userId dto)
  | UpdateConversation conversationId userId dto =>
      void (ChatService.updateConversation conversationId userId dto)
  | SendMessage now conversationId userId dto =>
      void (ChatService.sendMessage now conversationId userId dto)
  | EditMessage now messageId userId content =>
      void (ChatService.editMessage now messageId userId content)
  | DeleteMessage now messageId userId =>
      ChatService.deleteMessage now messageId userId
  | ReactToMessage now messageId userId dto =>
      void (ChatService.reactToMessage now messageId userId dto)
  | AddParticipant conversationId userId dto =>
      ChatService.addParticipant conversationId userId dto
  | RemoveParticipant conversationId userId participantId =>
      ChatService.removeParticipant conversationId userId participantId
  end.

(** A computation that only reads, one that cannot throw, and one that
    has written nothing whenever it throws. *)
Definition readOnly {A} (m : Svc A) : Prop := ∀ s, (m s).2 = s.
Definition noThrow {A} (m : Svc A) : Prop := ∀ s, ¬ isThrown (m s).1.
Definition atomic {A} (m : Svc A) : Prop :=
  ∀ s, isThrown (m s).1 → (m s).2 = s.


(** Sound keys: the primary keys of users, conversations and messages
    and the rows of the join table are not repeated, and every generated
    key in use is below the key counter. *)
Record keysSound (s : Store) : Prop := {
  users_keyed : NoDup (User.id <$> users s);
  conversations_keyed : NoDup (Conversation.id <$> conversations s);
  participants_keyed : NoDup (conversation_participants s);
  messages_keyed : NoDup (Message.id <$> messages s);
  conversations_known :
    Forall (λ c, Conversation.id c < nextId s) (conversations s);
  participants_known :
    Forall (λ p, p.1 < nextId s) (conversation_participants s);
  messages_known : Forall (λ m, Message.id m < nextId s) (messages s);
  reactions_known :
    Forall (λ r, MessageReaction.id r < nextId s) (message_reactions s)
}.

(** C1 as the specification words it: the two calls succeed with the
    same conversation, the second leaves the store as it is, and the
    participants of that conversation are exactly the two users. *)
Definition directTwiceExactPair (now1 now2 : Time) (userId1 : Id)
    (dto1 : CreateConversationDto) (userId2 : Id)
    (dto2 : CreateConversationDto) (u1 u2 : Id) (s : Store) : Prop :=
  ∃ c1 c2 s1 s2,
    ChatService.createConversation now1 userId1 dto1 s = (Ok c1, s1) ∧
    ChatService.createConversation now2 userId2 dto2 s1 = (Ok c2, s2) ∧
    Conversation.columns c2 = Conversation.columns c1 ∧
    s2 = s1 ∧
    participantIdsOf (Conversation.id (Conversation.columns c2)) s2
      ≡ₚ [u1; u2].

(** ** More vocabulary: the other methods and the event handlers *)

(** The user holds an admin row of the conversation. *)
Definition isAdminOf (conversationId userId : Id) (s : Store) : Prop :=
  Exists (λ a, ConversationAdmin.conversationId a = conversationId ∧
               ConversationAdmin.userId a = userId) (conversation_admins s).

(** The user has a join row of the conversation. *)
Definition isParticipant (conversationId userId : Id) (s : Store) : Prop :=
  (conversationId, userId) ∈ conversation_participants s.

#[global] Instance isAdminOf_dec c u s : Decision (isAdminOf c u s).
Proof. unfold isAdminOf. apply _. Defined.
#[global] Instance isParticipant_dec c u s : Decision (isParticipant c u s).
Proof. unfold isParticipant. apply _. Defined.
#[global] Typeclasses Opaque isAdminOf isParticipant.

(** The foreign key of the join table: every join row names a stored
    user. *)
Definition participantsStored (s : Store) : Prop :=
  Forall (λ p, p.2 ∈ User.id <$> users s) (conversation_participants s).

(** The store after [createConversation] has inserted a conversation
    that is not direct and the admin row of its creator. *)
Definition withGroup (now : Time) (userId : Id) (c : Conversation.row)
    (ps : list User.t) (s : Store) : Store :=
  mkStore (users s) (conversations s ++ [c])
    (conversation_participants s
     ++ ((λ u, (Conversation.id c, User.id u)) <$> ps))
    (conversation_admins s
     ++ [ConversationAdmin.mk (S (nextId s)) (Conversation.id c) userId now])
    (messages s) (message_reactions s) (message_reads s)
    (S (S (nextId s))) (S (S (commits s))).

(** The store a [save] of a loaded entity leaves when [s'] is what it
    makes of the store [s]: [s'] with one more write committed, or the
    store as it was when nothing differs. *)
Definition afterSave (s s' : Store) : Store :=
  if decide (s' = s) then s' else committed s'.

(** The row [sendMessage] inserts. *)
Definition sentMessage (now : Time) (conversationId userId : Id)
    (dto : SendMessageDto) (s : Store) : Message.row :=
  Message.mkRow (nextId s) (sm_content dto) (default TEXT (sm_type dto)) SENT
    userId conversationId (sm_replyToId dto) false None false None
    (sm_metadata dto) now.

(** The store after [sendMessage] has inserted the row [m] and stamped
    the conversation. *)
Definition withMessage (now : Time) (conversationId : Id) (m : Message.row)
    (s : Store) : Store :=
  mkStore (users s)
    (updateById Conversation.id conversationId (touchActivity now)
       (conversations s))
    (conversation_participants s) (conversation_admins s)
    (messages s ++ [m]) (message_reactions s) (message_reads s)
    (S (nextId s)) (S (S (commits s))).

(** No user is kept with an empty set of sockets. *)
Definition noEmptyEntry (connected : gmap Id (gset string)) : Prop :=
  ∀ userId sockets, connected !! userId = Some sockets → sockets ≠ ∅.

(** The token of the handshake is valid and names a stored user. *)
Definition authenticates (verify : string → option Id)
    (client : ChatGateway.AuthenticatedSocket) (s : Store) (u : User.t)
    : Prop :=
  ∃ token, ChatGateway.handshakeToken client = Some token ∧
           verify token = Some (User.id u) ∧
           findOne (λ x, User.id x = User.id u) (users s) = Some u.

(** The events a socket can send, after the names the gateway subscribes
    to. *)
Inductive Event :=
  | JoinConversation (conversationId : Id)
  | LeaveConversation (conversationId : Id)
  | SendMessageEvent (conversationId : Id) (data : SendMessageDto)
  | EditMessageEvent (messageId : Id) (content : string)
  | DeleteMessageEvent (messageId : Id)
  | ReactMessage (messageId : Id) (emoji : string)
  | TypingStarts (conversationId : Id)
  | TypingStops (conversationId : Id)
  | ReadConversation (conversationId : Id)
  | UpdateStatusEvent (status : UserStatus).

(** The handler of each event; [now] is the time of the database,
    [readAt] that of the gateway. *)
Definition handle (now readAt : Time)
    (client : ChatGateway.AuthenticatedSocket) (e : Event)
    : ChatGateway.Hub → ChatGateway.Hub :=
  match e with
  | JoinConversation conversationId =>
      ChatGateway.handleJoinConversation client conversationId
  | LeaveConversation conversationId =>
      ChatGateway.handleLeaveConversation client conversationId
  | SendMessageEvent conversationId data =>
      ChatGateway.handleSendMessage now client conversationId data
  | EditMessageEvent messageId content =>
      ChatGateway.handleEditMessage now client messageId content
  | DeleteMessageEvent messageId =>
      ChatGateway.handleDeleteMessage now client messageId
  | ReactMessage messageId emoji =>
      ChatGateway.handleReactToMessage now client messageId emoji
  | TypingStarts conversationId =>
      ChatGateway.handleTypingStart client conversationId
  | TypingStops conversationId =>
      ChatGateway.handleTypingStop client conversationId
  | ReadConversation conversationId =>
      ChatGateway.handleMarkAsRead now readAt client conversationId
  | UpdateStatusEvent status =>
      ChatGateway.handleUpdateStatus now client status
  end.

(** An emit of the event "error". *)
Definition isError (a : ChatGateway.Action) : Prop :=
  match a with
  | ChatGateway.Emit _ event _ => event = "error"
  | _ => False
  end.
#[global] Instance isError_dec a : Decision (isError a).
Proof. destruct a; simpl; apply _. Defined.

(** An emit to the acting socket and to nobody else. *)
Definition toClientOnly (client : ChatGateway.AuthenticatedSocket)
    (a : ChatGateway.Action) : Prop :=
  match a with
  | ChatGateway.Emit audience _ _ =>
      audience = ChatGateway.ToClient (ChatGateway.id client)
  | _ => False
  end.

(** No conversation is kept with an empty set of typing users. *)
Definition noEmptyTyping (typing : gmap Id (gset Id)) : Prop :=
  ∀ conversationId typingSet,
    typing !! conversationId = Some typingSet → typingSet ≠ ∅.

(** The users typing in a conversation. *)
Definition typingIn (conversationId : Id) (h : ChatGateway.Hub) : gset Id :=
  default ∅ (ChatGateway.typingUsers h !! conversationId).

(** * Sample data *)

Module Sample.
Definition alice : User.t := User.mk 1 "alice" OFFLINE None.
Definition bob : User.t := User.mk 2 "bob" OFFLINE None.
Definition carol : User.t := User.mk 3 "carol" OFFLINE None.

(** Three registered users and nothing else. *)
Definition registered : Store :=
  mkStore [alice; bob; carol] [] [] [] [] [] [] 10 0.

Definition directWith (participantIds : list Id) : CreateConversationDto :=
  Build_CreateConversationDto None DIRECT None participantIds None.

Definition text (content : string) : SendMessageDto :=
  Build_SendMessageDto content (Some TEXT) None None.

(** alice asks for a direct conversation with bob and carol: the
    conversation [10] of type direct with three participants. *)
Definition trio : Store :=
  Eval vm_compute in
    (ChatService.createConversation 100 1 (directWith [2; 3]) registered).2.

(** alice opens the direct conversation [10] with bob and both write:
    messages [11], [12], [13]. *)
Definition chat : Store :=
  Eval vm_compute in
    let s1 := (ChatService.createConversation 100 1 (directWith [2])
                 registered).2 in
    let s2 := (ChatService.sendMessage 101 10 1 (text "hello") s1).2 in
    let s3 := (ChatService.sendMessage 102 10 2 (text "hi") s2).2 in
    (ChatService.sendMessage 103 10 1 (text "how are you?") s3).2.

Definition hello : Message.row :=
  Message.mkRow 11 "hello" TEXT SENT 1 10 None false None false None None
    101.
Definition hi : Message.row :=
  Message.mkRow 12 "hi" TEXT SENT 2 10 None false None false None None 102.
Definition howAreYou : Message.row :=
  Message.mkRow 13 "how are you?" TEXT SENT 1 10 None false None false None
    None 103.

(** bob then deletes his message [12]. *)
Definition afterDelete : Store :=
  Eval vm_compute in (ChatService.deleteMessage 104 12 2 chat).2.

(** Two requests of bob for the same reaction to message [11]. *)
Definition thumbsUp : ReactToMessageDto := {| rm_emoji := "+1" |}.
Definition firstTap : ReactCall := mkReactCall 201 11 2 thumbsUp.
Definition secondTap : ReactCall := mkReactCall 202 11 2 thumbsUp.

Definition groupWith (name : string) (participantIds : list Id)
    : CreateConversationDto :=
  Build_CreateConversationDto (Some name) GROUP None participantIds None.

(** alice opens the group [10] with bob and carol, which makes her its
    admin (row [11]), and bob writes the message [12]. *)
Definition team : Store :=
  Eval vm_compute in
    let s1 := (ChatService.createConversation 100 1
                 (groupWith "team" [2; 3]) registered).2 in
    (ChatService.sendMessage 101 10 2 (text "hey") s1).2.

(** alice opens the group [10] with bob alone (admin row [11]). *)
Definition club : Store :=
  Eval vm_compute in
    (ChatService.createConversation 100 1 (groupWith "club" [2])
       registered).2.

(** After [chat], alice opens the group [14] with bob and carol. *)
Definition busy : Store :=
  Eval vm_compute in
    (ChatService.createConversation 104 1 (groupWith "team" [2; 3]) chat).2.

Definition teamRow : Conversation.row :=
  Conversation.mkRow 10 (Some "team") GROUP None None false (Some 1)
    (Some 101).
Definition hey : Message.row :=
  Message.mkRow 12 "hey" TEXT SENT 2 10 None false None false None None 101.

(** [jwtService.verify] with one valid token for each user. *)
Definition verify (token : string) : option Id :=
  if decide (token = "token-of-alice") then Some 1
  else if decide (token = "token-of-bob") then Some 2
  else if decide (token = "token-of-dave") then Some 4
  else None.

(** Sockets of alice and bob once authenticated, and one that is not. *)
Definition aliceSocket : ChatGateway.AuthenticatedSocket :=
  ChatGateway.mkSocket "s1" (Some "token-of-alice") (Some 1) (Some alice).
Definition bobSocket : ChatGateway.AuthenticatedSocket :=
  ChatGateway.mkSocket "s2" (Some "token-of-bob") (Some 2) (Some bob).
Definition carolSocket : ChatGateway.AuthenticatedSocket :=
  ChatGateway.mkSocket "s3" None (Some 3) (Some carol).
Definition strangerSocket : ChatGateway.AuthenticatedSocket :=
  ChatGateway.mkSocket "s9" None None None.

(** The gateway over the store [chat], nobody typing, nothing sent. *)
Definition hub : ChatGateway.Hub := ChatGateway.mkHub chat ∅ [].
End Sample.

(** * Properties *)

(** ** Running a computation *)

Ltac run :=
  repeat (unfold bind, query, write, ret, throw, generateId, commit,
            commitIfChanged; simpl).

(** A decidable fact about sample data. *)
Ltac decided := apply (bool_decide_unpack _); vm_compute; exact I.

Section findOne_facts.
Context {A : Type} (P : A → Prop) `{!∀ x, Decision (P x)}.

Lemma findOne_None (tbl : list A) : findOne P tbl = None ↔ filter P tbl = [].
Proof. unfold findOne. apply head_None. Qed.

Lemma findOne_Some (tbl : list A) x : findOne P tbl = Some x → P x ∧ x ∈ tbl.
Proof.
  unfold findOne. intros Hx. apply head_Some_elem_of in Hx.
  by apply list_elem_of_filter in Hx.
Qed.

Lemma findOne_elem (tbl : list A) x : x ∈ tbl → P x → is_Some (findOne P tbl).
Proof.
  intros Hin HP. unfold findOne. apply head_is_Some.
  intros Hnil. by eapply (filter_nil_not_elem_of P tbl x).
Qed.

Lemma findOne_app_None (tbl : list A) x :
  findOne P tbl = None → P x → findOne P (tbl ++ [x]) = Some x.
Proof.
  rewrite findOne_None. intros Hnil HP. unfold findOne.
  rewrite filter_app, Hnil. simpl. by rewrite filter_cons_True.
Qed.

Lemma findOne_app_Some (tbl tbl' : list A) x :
  findOne P tbl = Some x → findOne P (tbl ++ tbl') = Some x.
Proof.
  unfold findOne. rewrite filter_app. intros Hx.
  apply head_Some in Hx as [l' ->]. done.
Qed.
End findOne_facts.

(** ** Deduplication, and counting rows by key *)

Lemma uniq_foldl (xs : list Id) : uniq xs = foldl addOnce [] xs.
Proof. done. Qed.

Lemma foldl_addOnce_spec (xs seen : list Id) :
  NoDup seen →
  NoDup (foldl addOnce seen xs) ∧
  ∀ x, x ∈ foldl addOnce seen xs ↔ x ∈ seen ∨ x ∈ xs.
Proof.
  revert seen. induction xs as [|y xs IH]; intros seen Hnd; simpl.
  - split; [done|]. intros x. rewrite elem_of_nil. tauto.
  - unfold addOnce at 2 4. destruct (decide (y ∈ seen)) as [Hy|Hy].
    + destruct (IH seen Hnd) as [? Hin]. split; [done|].
      intros x. rewrite Hin, elem_of_cons.
      split; [tauto|]. intros [?|[->|?]]; tauto.
    + assert (NoDup (seen ++ [y])) as Hnd'.
      { apply NoDup_app. split_and!; [done| |apply NoDup_singleton].
        intros x Hx ->%list_elem_of_singleton. done. }
      destruct (IH _ Hnd') as [? Hin]. split; [done|].
      intros x. rewrite Hin, elem_of_app, list_elem_of_singleton, elem_of_cons.
      tauto.
Qed.

Lemma NoDup_uniq (xs : list Id) : NoDup (uniq xs).
Proof. rewrite uniq_foldl. apply foldl_addOnce_spec, NoDup_nil_2. Qed.

Lemma elem_of_uniq (xs : list Id) x : x ∈ uniq xs ↔ x ∈ xs.
Proof.
  rewrite uniq_foldl.
  destruct (foldl_addOnce_spec xs [] (NoDup_nil_2)) as [_ ->].
  rewrite elem_of_nil. tauto.
Qed.

(** A list whose members are exactly two different values is, once
    deduplicated, one of the two orders of the pair. *)
Lemma uniq_pair (xs : list Id) (a b : Id) :
  a ≠ b → (∀ x, x ∈ xs ↔ x = a ∨ x = b) →
  uniq xs = [a; b] ∨ uniq xs = [b; a].
Proof.
  intros Hab Hxs.
  assert ([a; b] ≡ₚ uniq xs) as Hperm.
  { apply NoDup_Permutation; [|apply NoDup_uniq|].
    - apply NoDup_cons. split; [|apply NoDup_singleton].
      by intros ->%list_elem_of_singleton.
    - intros x. rewrite elem_of_uniq, Hxs, elem_of_cons,
        list_elem_of_singleton. done. }
  by apply Permutation_length_2_inv in Hperm.
Qed.

Section filter_facts.
Context {A : Type} (P : A → Prop) `{!∀ x, Decision (P x)}.

Lemma filter_none (l : list A) : (∀ x, x ∈ l → ¬ P x) → filter P l = [].
Proof.
  induction l as [|x l IH]; intros Hl; [done|].
  rewrite filter_cons_False by (apply Hl; left).
  apply IH. intros y Hy. apply Hl. by right.
Qed.

Lemma filter_all (l : list A) : (∀ x, x ∈ l → P x) → filter P l = l.
Proof.
  induction l as [|x l IH]; intros Hl; [done|].
  rewrite filter_cons_True by (apply Hl; left).
  f_equal. apply IH. intros y Hy. apply Hl. by right.
Qed.
End filter_facts.

(** Two different values that both occur in a duplicate-free list of at
    most two values are all of it. *)
Lemma NoDup_pair_perm (l : list Id) (a b : Id) :
  NoDup l → a ≠ b → a ∈ l → b ∈ l → length l ≤ 2 → l ≡ₚ [a; b].
Proof.
  intros Hnd Hab Ha Hb Hlen. symmetry.
  apply submseteq_length_Permutation; [|done].
  apply NoDup_submseteq.
  - apply NoDup_cons. split; [|apply NoDup_singleton].
    by intros ->%list_elem_of_singleton.
  - intros x [->| ->%list_elem_of_singleton]%elem_of_cons; done.
Qed.

Section keyed.
Context {A : Type} (key : A → Id).

(** In a table without repeated keys, the rows whose key is one of two
    different keys that both occur are two, one for each key. *)
Lemma filter_pair_perm (tbl : list A) (a b : Id) :
  NoDup (key <$> tbl) → a ≠ b →
  a ∈ key <$> tbl → b ∈ key <$> tbl →
  key <$> filter (λ r, key r ∈ [a; b]) tbl ≡ₚ [a; b].
Proof.
  intros Hnd Hab Ha Hb.
  apply NoDup_Permutation.
  - apply (sublist_NoDup _ (key <$> tbl)); [done|].
    apply fmap_sublist, sublist_filter.
  - apply NoDup_cons. split; [|apply NoDup_singleton].
    by intros ->%list_elem_of_singleton.
  - intros x. rewrite list_elem_of_fmap. split.
    + intros (r & -> & [? ?]%list_elem_of_filter). done.
    + intros Hx.
      assert (x ∈ key <$> tbl) as (r & -> & Hr)%list_elem_of_fmap.
      { apply elem_of_cons in Hx as [->| ->%list_elem_of_singleton];
          done. }
      exists r. split; [done|]. by apply list_elem_of_filter.
Qed.

Lemma filter_pair_length (tbl : list A) (a b : Id) :
  NoDup (key <$> tbl) → a ≠ b →
  a ∈ key <$> tbl → b ∈ key <$> tbl →
  length (filter (λ r, key r ∈ [a; b]) tbl) = 2.
Proof.
  intros Hnd Hab Ha Hb.
  pose proof (filter_pair_perm tbl a b Hnd Hab Ha Hb) as Hperm.
  apply Permutation_length in Hperm. by rewrite length_fmap in Hperm.
Qed.

(** Conversely, two such rows mean that both keys occur. *)
Lemma filter_pair_both (tbl : list A) (a b : Id) :
  NoDup (key <$> tbl) →
  length (filter (λ r, key r ∈ [a; b]) tbl) = 2 →
  a ≠ b ∧ a ∈ key <$> tbl ∧ b ∈ key <$> tbl.
Proof.
  intros Hnd Hlen.
  set (l := key <$> filter (λ r, key r ∈ [a; b]) tbl).
  assert (NoDup l) as Hndl.
  { apply (sublist_NoDup _ (key <$> tbl)); [done|].
    apply fmap_sublist, sublist_filter. }
  assert (length l = 2) as Hl by (unfold l; by rewrite length_fmap).
  assert (∀ x, x ∈ l → x = a ∨ x = b) as Hsub.
  { intros x (r & -> & [Hr ?]%list_elem_of_filter)%list_elem_of_fmap.
    apply elem_of_cons in Hr as [?|?%list_elem_of_singleton]; tauto. }
  assert (∀ x, x ∈ l → x ∈ key <$> tbl) as Hin.
  { intros x (r & -> & [? ?]%list_elem_of_filter)%list_elem_of_fmap.
    by apply list_elem_of_fmap_2. }
  destruct l as [|x [|y [|? ?]]]; simplify_eq/=.
  apply NoDup_cons in Hndl as [Hxy _].
  rewrite list_elem_of_singleton in Hxy.
  destruct (Hsub x) as [->| ->]; [left|..];
    (destruct (Hsub y) as [->| ->]; [right; left|..]); try done.
  - split_and!; [done|apply Hin; left|apply Hin; right; left].
  - split_and!; [done|apply Hin; right; left|apply Hin; left].
Qed.
End keyed.

(** ** Tables with a primary key *)

Section primary_key.
Context {A : Type} (key : A → Id).

Lemma NoDup_key_inj (tbl : list A) x y :
  NoDup (key <$> tbl) → x ∈ tbl → y ∈ tbl → key x = key y → x = y.
Proof.
  induction tbl as [|r tbl IH]; intros Hnd Hx Hy Hkey.
  - by apply elem_of_nil in Hx.
  - simpl in Hnd. apply NoDup_cons in Hnd as [Hr Hnd].
    apply elem_of_cons in Hx as [->|Hx]; apply elem_of_cons in Hy as [->|Hy].
    + done.
    + destruct Hr. rewrite Hkey. by apply list_elem_of_fmap_2.
    + destruct Hr. rewrite <-Hkey. by apply list_elem_of_fmap_2.
    + by apply IH.
Qed.

Lemma findOne_key (tbl : list A) m :
  NoDup (key <$> tbl) → m ∈ tbl →
  findOne (λ r, key r = key m) tbl = Some m.
Proof.
  intros Hnd Hm.
  destruct (findOne_elem (λ r, key r = key m) tbl m Hm eq_refl) as [x Hx].
  rewrite Hx. f_equal.
  apply findOne_Some in Hx as [Hkey Hin]. by eapply NoDup_key_inj.
Qed.

Lemma findOne_updateById (tbl : list A) (i : Id) (patch : A → A) :
  (∀ r, key (patch r) = key r) →
  findOne (λ r, key r = i) (updateById key i patch tbl)
  = patch <$> findOne (λ r, key r = i) tbl.
Proof.
  intros Hkey. unfold findOne, updateById.
  induction tbl as [|r tbl IH]; [done|].
  rewrite fmap_cons, !filter_cons.
  destruct (decide (key r = i)) as [Hr|Hr].
  - rewrite decide_True by (by rewrite Hkey). done.
  - rewrite decide_False by done. done.
Qed.
End primary_key.

(** ** The callbacks of [markAsRead], one after the other *)

Lemma withReads_same s : withReads (message_reads s) (nextId s) s = s.
Proof. destruct s. unfold withReads. simpl. f_equal. lia. Qed.

(** The key counter only grows. *)
Lemma foldl_markStep_mono now userId msgs rs n :
  n ≤ (foldl (markStep now userId) (rs, n) msgs).2.
Proof.
  revert rs n. induction msgs as [|m msgs IH]; intros rs n; [done|].
  simpl. unfold markStep at 2. simpl.
  destruct (readMarkers _ _ _); [|apply IH].
  etrans; [|apply IH]. lia.
Qed.

Lemma forEach_markOne now userId msgs s :
  forEach (ChatService.markOne now userId) msgs s
  = (Ok tt,
     withReads (foldl (markStep now userId) (message_reads s, nextId s) msgs).1
       (foldl (markStep now userId) (message_reads s, nextId s) msgs).2 s).
Proof.
  revert s. induction msgs as [|m msgs IH]; intros s.
  - simpl. by rewrite withReads_same.
  - simpl. unfold bind at 1. unfold ChatService.markOne at 1. run.
    unfold markStep at 2 4, readMarkers, findOne. simpl.
    destruct (filter _ (message_reads s)) as [|r rs]; simpl; rewrite IH;
      [|done].
    simpl. f_equal. unfold withReads. simpl. f_equal.
    pose proof (foldl_markStep_mono now userId msgs
                  (message_reads s
                   ++ [MessageRead.mk (nextId s) (Message.id m) userId now])
                  (S (nextId s))).
    lia.
Qed.

Lemma markAsRead_fold now conversationId userId s :
  ChatService.markAsRead now conversationId userId s
  = (Ok tt,
     withReads
       (foldl (markStep now userId) (message_reads s, nextId s)
          (messagesOf conversationId s)).1
       (foldl (markStep now userId) (message_reads s, nextId s)
          (messagesOf conversationId s)).2 s).
Proof.
  unfold ChatService.markAsRead. run. apply forEach_markOne.
Qed.

Lemma elem_of_messagesOf conversationId s m :
  m ∈ messagesOf conversationId s
  ↔ m ∈ messages s ∧ Message.conversationId m = conversationId.
Proof.
  unfold messagesOf. rewrite merge_sort_Permutation, list_elem_of_filter.
  tauto.
Qed.

Lemma readMarkers_app messageId userId rs rs' :
  readMarkers messageId userId (rs ++ rs')
  = readMarkers messageId userId rs ++ readMarkers messageId userId rs'.
Proof. apply filter_app. Qed.

(** The callbacks only append rows: each new row is a marker of the user
    for a message of the list that had none, no message gets two, and in
    the end every message of the list has one. *)
Lemma foldl_markStep now userId msgs rs n :
  ∃ added,
    (foldl (markStep now userId) (rs, n) msgs).1 = rs ++ added ∧
    Forall (λ r, MessageRead.userId r = userId ∧
                 ∃ m, m ∈ msgs ∧ MessageRead.messageId r = Message.id m ∧
                      readMarkers (Message.id m) userId rs = []) added ∧
    NoDup (MessageRead.messageId <$> added) ∧
    (∀ m, m ∈ msgs →
       readMarkers (Message.id m) userId (rs ++ added) ≠ []).
Proof.
  revert rs n. induction msgs as [|m msgs IH]; intros rs n.
  { exists []. rewrite app_nil_r. split_and!; [done|done|constructor|].
    intros m Hm. by apply elem_of_nil in Hm. }
  simpl. unfold markStep at 2. simpl.
  destruct (readMarkers (Message.id m) userId rs) as [|r0 rs0] eqn:Hm.
  - set (new := MessageRead.mk n (Message.id m) userId now).
    destruct (IH (rs ++ [new]) (S n)) as (added & Heq & Hall & Hnd & Hcov).
    assert (readMarkers (Message.id m) userId (rs ++ [new]) = [new]) as Hnew.
    { rewrite readMarkers_app, Hm. unfold readMarkers.
      by rewrite filter_cons_True. }
    exists (new :: added). rewrite Heq, <-app_assoc. simpl.
    split_and!; [done| | |].
    + constructor.
      * split; [done|]. exists m. split_and!; [left|done..].
      * eapply Forall_impl; [exact Hall|]. simpl.
        intros r (Hu & m' & Hm' & Hid & Hnone). split; [done|].
        exists m'. split_and!; [by right|done|].
        rewrite readMarkers_app in Hnone. by apply app_nil in Hnone as [? _].
    + apply NoDup_cons. split; [|done].
      intros (r & Hr & Hin)%list_elem_of_fmap.
      rewrite Forall_forall in Hall.
      destruct (Hall r Hin) as (_ & m' & _ & Hid & Hnone).
      simpl in Hr. rewrite <-Hid, <-Hr, Hnew in Hnone. done.
    + replace (rs ++ new :: added) with ((rs ++ [new]) ++ added)
        by (by rewrite <-app_assoc).
      intros m' [->|Hm']%elem_of_cons; [|by apply Hcov].
      rewrite readMarkers_app, Hnew. done.
  - destruct (IH rs n) as (added & Heq & Hall & Hnd & Hcov).
    exists added. split_and!; [done| |done|].
    + eapply Forall_impl; [exact Hall|]. simpl.
      intros r (Hu & m' & Hm' & Hid & Hnone). split; [done|].
      exists m'. split_and!; [by right|done..].
    + intros m' [->|Hm']%elem_of_cons; [|by apply Hcov].
      rewrite readMarkers_app, Hm. done.
Qed.

(** With a marker for every message of the list the callbacks do nothing. *)
Lemma foldl_markStep_marked now userId msgs rs n :
  (∀ m, m ∈ msgs → readMarkers (Message.id m) userId rs ≠ []) →
  foldl (markStep now userId) (rs, n) msgs = (rs, n).
Proof.
  induction msgs as [|m msgs IH]; intros Hall; [done|].
  simpl. unfold markStep at 2. simpl.
  destruct (readMarkers (Message.id m) userId rs) eqn:Hm.
  - destruct (Hall m); [left|done].
  - apply IH. intros m' Hm'. apply Hall. by right.
Qed.

Lemma filter_key_le_1 {A} (key : A → Id) (Q : A → Prop)
    `{!∀ x, Decision (Q x)} (k : Id) (l : list A) :
  NoDup (key <$> l) → length (filter (λ r, key r = k ∧ Q r) l) ≤ 1.
Proof.
  induction l as [|x l IH]; intros Hnd; simpl; [lia|].
  apply NoDup_cons in Hnd as [Hx Hnd].
  rewrite filter_cons. destruct (decide (key x = k ∧ Q x)) as [[Hk _]|_].
  - rewrite filter_none; [simpl; lia|].
    intros y Hy [Hyk _]. destruct Hx. rewrite Hk, <-Hyk.
    by apply list_elem_of_fmap_2.
  - by apply IH.
Qed.

(** Rows appended for messages that had no marker of the user, one per
    message at most, take no (message, user) pair beyond one marker. *)
Lemma readMarkers_added userId (msgs : list Message.row) rs added :
  Forall (λ r, MessageRead.userId r = userId ∧
               ∃ m, m ∈ msgs ∧ MessageRead.messageId r = Message.id m ∧
                    readMarkers (Message.id m) userId rs = []) added →
  NoDup (MessageRead.messageId <$> added) →
  ∀ messageId userId',
    length (readMarkers messageId userId' (rs ++ added))
    ≤ max 1 (length (readMarkers messageId userId' rs)).
Proof.
  intros Hall Hnd messageId userId'. rewrite readMarkers_app, length_app.
  assert (length (readMarkers messageId userId' added) ≤ 1) as Hle.
  { unfold readMarkers.
    by apply (filter_key_le_1 MessageRead.messageId
                (λ r, MessageRead.userId r = userId')). }
  destruct (readMarkers messageId userId' added) as [|r rs'] eqn:Hadded;
    [simpl; lia|].
  assert (r ∈ readMarkers messageId userId' added) as Hr
    by (rewrite Hadded; left).
  apply list_elem_of_filter in Hr as [[Hrm Hru] Hr].
  rewrite Forall_forall in Hall.
  destruct (Hall r Hr) as (Hu & m & _ & Hid & Hnone).
  assert (Message.id m = messageId) as Hmid by congruence.
  assert (userId = userId') as Huid by congruence.
  rewrite Hmid, Huid in Hnone. rewrite Hnone. simpl in *. lia.
Qed.

(** ** Sound keys are kept *)

Section key_facts.
Context {A : Type} (key : A → Id).

Lemma NoDup_key_snoc (tbl : list A) (x : A) :
  NoDup (key <$> tbl) → Forall (λ r, key r < key x) tbl →
  NoDup (key <$> (tbl ++ [x])).
Proof.
  intros Hnd Hlt. rewrite fmap_app. apply NoDup_app. split_and!.
  - done.
  - intros k (r & -> & Hr)%list_elem_of_fmap Hk.
    apply list_elem_of_singleton in Hk.
    rewrite Forall_forall in Hlt. specialize (Hlt r Hr). lia.
  - apply NoDup_singleton.
Qed.

Lemma fmap_key_updateById (tbl : list A) (i : Id) (patch : A → A) :
  (∀ r, key r = i → key (patch r) = i) →
  key <$> updateById key i patch tbl = key <$> tbl.
Proof.
  intros Hkey. unfold updateById. rewrite <-list_fmap_compose.
  apply list_fmap_ext. intros _ r _. simpl.
  destruct (decide (key r = i)) as [Hr|]; [|done]. by rewrite Hkey.
Qed.

Lemma Forall_key_updateById (n : Id) (tbl : list A) (i : Id)
    (patch : A → A) :
  (∀ r, key r = i → key (patch r) = i) →
  Forall (λ r, key r < n) tbl →
  Forall (λ r, key r < n) (updateById key i patch tbl).
Proof.
  intros Hkey Hall. unfold updateById. apply Forall_fmap.
  eapply Forall_impl; [exact Hall|]. simpl. intros r Hr.
  destruct (decide (key r = i)) as [Hi|]; [|done].
  rewrite Hkey by done. lia.
Qed.

Lemma Forall_key_mono (n n' : Id) (tbl : list A) :
  n ≤ n' → Forall (λ r, key r < n) tbl → Forall (λ r, key r < n') tbl.
Proof. intros Hle Hall. eapply Forall_impl; [exact Hall|]. simpl. lia. Qed.

Lemma Forall_key_snoc (n : Id) (tbl : list A) (x : A) :
  Forall (λ r, key r < n) tbl → key x = n →
  Forall (λ r, key r < S n) (tbl ++ [x]).
Proof.
  intros Hall Hx. apply Forall_app. split.
  - by apply (Forall_key_mono n); [lia|].
  - apply Forall_singleton. lia.
Qed.
End key_facts.

Lemma Forall_filter_sub {A} (P Q : A → Prop) `{!∀ x, Decision (Q x)}
    (l : list A) :
  Forall P l → Forall P (filter Q l).
Proof.
  rewrite !Forall_forall. intros Hall x [_ Hx]%list_elem_of_filter. auto.
Qed.

(** The fields of [keysSound] after a call, one goal each. *)
Ltac sound_fields :=
  match goal with
  | H : keysSound _ |- keysSound _ =>
      destruct H as [Hu Hc Hp Hm Hck Hpk Hmk Hrk]; constructor; simpl
  end.

(** A table stays keyed and known when a row with a new key is appended,
    when rows are rewritten in place and when rows are dropped. *)
Ltac sound_field :=
  unfold deleteWhere;
  first
    [ done
    | by apply Forall_filter_sub
    | by apply NoDup_filter
    | by (eapply Forall_impl; [eassumption|simpl; intros; lia])
    | by (apply Forall_app; split;
          [eapply Forall_impl; [eassumption|simpl; intros; lia]
          |apply Forall_singleton; simpl; lia])
    | by (apply NoDup_key_snoc; [done|
          eapply Forall_impl; [eassumption|simpl; intros; lia]])
    | by (rewrite fmap_key_updateById by done)
    | by (apply Forall_key_updateById; [done|
          eapply Forall_impl; [eassumption|simpl; intros; lia]]) ].

Lemma keysSound_reactToMessage now messageId userId dto s :
  keysSound s →
  keysSound (ChatService.reactToMessage now messageId userId dto s).2.
Proof.
  intros Hs. unfold ChatService.reactToMessage. run.
  repeat case_match; simpl; try done; sound_fields; sound_field.
Qed.

Lemma keysSound_editMessage now messageId userId content s :
  keysSound s →
  keysSound (ChatService.editMessage now messageId userId content s).2.
Proof.
  intros Hs. unfold ChatService.editMessage. run.
  repeat case_match; simpl; try done; sound_fields; sound_field.
Qed.

Lemma keysSound_deleteMessage now messageId userId s :
  keysSound s →
  keysSound (ChatService.deleteMessage now messageId userId s).2.
Proof.
  intros Hs. unfold ChatService.deleteMessage. run.
  repeat case_match; simpl; try done; sound_fields; sound_field.
Qed.

Lemma keysSound_sendMessage now conversationId userId dto s :
  keysSound s →
  keysSound (ChatService.sendMessage now conversationId userId dto s).2.
Proof.
  intros Hs. unfold ChatService.sendMessage, ChatService.getConversationById.
  run.
  repeat case_match; simplify_eq/=; try done; sound_fields; sound_field.
Qed.

Lemma keysSound_markAsRead now conversationId userId s :
  keysSound s →
  keysSound (ChatService.markAsRead now conversationId userId s).2.
Proof.
  intros Hs. rewrite markAsRead_fold. simpl.
  set (acc := foldl _ _ _).
  assert (nextId s ≤ acc.2) as Hle.
  { unfold acc. generalize (message_reads s) (nextId s).
    induction (messagesOf conversationId s) as [|m l IH]; intros rs n;
      simpl; [done|].
    unfold markStep at 2. simpl.
    destruct (readMarkers _ _ rs); [|apply IH].
    etrans; [|apply IH]. lia. }
  sound_fields; sound_field.
Qed.

Lemma keysSound_updateStatus now id status s :
  keysSound s → keysSound (UsersService.updateStatus now id status s).2.
Proof.
  intros Hs. unfold UsersService.updateStatus. run.
  sound_fields; sound_field.
Qed.

Lemma NoDup_users_filter (P : User.t → Prop) `{!∀ u, Decision (P u)}
    (us : list User.t) :
  NoDup (User.id <$> us) → NoDup (User.id <$> filter P us).
Proof.
  intros Hnd. apply (sublist_NoDup _ (User.id <$> us)); [done|].
  apply fmap_sublist, sublist_filter.
Qed.

Lemma participants_insert_NoDup (jt : list (Id * Id)) (n : Id)
    (ps : list User.t) :
  NoDup jt → Forall (λ p, p.1 < n) jt → NoDup (User.id <$> ps) →
  NoDup (jt ++ ((λ u, (n, User.id u)) <$> ps)).
Proof.
  intros Hnd Hknown Hps. apply NoDup_app. split_and!.
  - done.
  - intros p Hp (u & -> & _)%list_elem_of_fmap.
    rewrite Forall_forall in Hknown. specialize (Hknown _ Hp). simpl in *. lia.
  - rewrite (list_fmap_compose User.id (λ i, (n, i))).
    apply NoDup_fmap_2; [by intros i j [= ->]|done].
Qed.

Lemma participants_insert_known (jt : list (Id * Id)) (n n' : Id)
    (ps : list User.t) :
  Forall (λ p, p.1 < n) jt → n < n' →
  Forall (λ p, p.1 < n') (jt ++ ((λ u, (n, User.id u)) <$> ps)).
Proof.
  intros Hknown Hlt. apply Forall_app. split.
  - eapply Forall_impl; [exact Hknown|]. simpl. lia.
  - apply Forall_fmap, Forall_forall. by intros u _.
Qed.

Lemma keysSound_createConversation now userId dto s :
  keysSound s →
  keysSound (ChatService.createConversation now userId dto s).2.
Proof.
  intros Hs. unfold ChatService.createConversation,
    ChatService.findDirectConversation, ChatService.insertConversation,
    ChatService.insertAdmin.
  run.
  repeat case_match; simplify_eq/=; try done; sound_fields;
    first [ sound_field
          | by apply participants_insert_NoDup;
              [done|done|apply NoDup_users_filter]
          | by apply participants_insert_known; [done|lia] ].
Qed.

Lemma sync_rows_sound (conversationId : Id) (ids present : list Id)
    (jt : list (Id * Id)) (n : Id) :
  NoDup jt → Forall (λ p, p.1 < n) jt → conversationId < n →
  present = snd <$> filter (λ p, p.1 = conversationId) jt →
  NoDup (filter (λ p, p.1 ≠ conversationId ∨ p.2 ∈ ids) jt ++
         ((λ u, (conversationId, u))
            <$> filter (λ u, u ∉ present) (uniq ids))) ∧
  Forall (λ p, p.1 < n)
    (filter (λ p, p.1 ≠ conversationId ∨ p.2 ∈ ids) jt ++
     ((λ u, (conversationId, u)) <$> filter (λ u, u ∉ present) (uniq ids))).
Proof.
  intros Hnd Hknown Hcid ->. split.
  - apply NoDup_app. split_and!.
    + by apply NoDup_filter.
    + intros p [_ Hp]%list_elem_of_filter
        (u & -> & [Hu _]%list_elem_of_filter)%list_elem_of_fmap.
      apply Hu.
      apply (list_elem_of_fmap_2' snd _ (conversationId, u) u); [|done].
      by apply list_elem_of_filter.
    + apply NoDup_fmap_2; [by intros u1 u2 [= ->]|].
      apply NoDup_filter, NoDup_uniq.
  - apply Forall_app. split.
    + by apply Forall_filter_sub.
    + apply Forall_fmap, Forall_forall. by intros u _.
Qed.

(** The conversation [getConversationById] found is a stored one. *)
Ltac known_conversation :=
  match goal with
  | H : _ <$> findOne _ (conversations ?s) = Some _,
    Hck : Forall _ (conversations ?s) |- _ =>
      let c := fresh "c" in
      let Hin := fresh "Hin" in
      apply fmap_Some in H as (c & [_ Hin]%findOne_Some & ->);
      let Hlt := fresh "Hlt" in
      pose proof (proj1 (Forall_forall _ _) Hck c Hin) as Hlt;
      simpl in Hlt
  end.

Ltac sound_sync :=
   first
     [ sound_field
     | by (eapply proj1, sync_rows_sound; [done|done|done|reflexivity])
     | by (eapply proj2, sync_rows_sound; [done|done|done|reflexivity]) ].

Lemma keysSound_updateConversation conversationId userId dto s :
  keysSound s →
  keysSound (ChatService.updateConversation conversationId userId dto s).2.
Proof.
  intros Hs. unfold ChatService.updateConversation,
    ChatService.getConversationById, ChatService.isUserAdmin,
    ChatService.saveConversation.
  run.
  repeat case_match; simplify_eq/=; try done; sound_fields;
    try known_conversation; simplify_eq/=; sound_sync.
Qed.

Lemma keysSound_addParticipant conversationId userId dto s :
  keysSound s →
  keysSound (ChatService.addParticipant conversationId userId dto s).2.
Proof.
  intros Hs. unfold ChatService.addParticipant,
    ChatService.getConversationById, ChatService.isUserAdmin,
    ChatService.saveConversation.
  run.
  repeat case_match; simplify_eq/=; try done; sound_fields;
    try known_conversation; simplify_eq/=; sound_sync.
Qed.

Lemma keysSound_removeParticipant conversationId userId participantId s :
  keysSound s →
  keysSound
    (ChatService.removeParticipant conversationId userId participantId s).2.
Proof.
  intros Hs. unfold ChatService.removeParticipant,
    ChatService.getConversationById, ChatService.isUserAdmin,
    ChatService.saveConversation.
  run.
  repeat case_match; simplify_eq/=; try done; sound_fields;
    try known_conversation; simplify_eq/=; sound_sync.
Qed.

Lemma void_store {A} (m : Svc A) s : (void m s).2 = (m s).2.
Proof. unfold void, bind. by destruct (m s) as [[a|e] s']. Qed.

(** Every operation of the service keeps the keys sound. *)
Lemma keysSound_perform op s : keysSound s → keysSound (perform op s).2.
Proof.
  intros Hs. destruct op; unfold perform; rewrite ?void_store.
  - by apply keysSound_createConversation.
  - by apply keysSound_updateConversation.
  - by apply keysSound_sendMessage.
  - by apply keysSound_editMessage.
  - by apply keysSound_deleteMessage.
  - by apply keysSound_reactToMessage.
  - by apply keysSound_addParticipant.
  - by apply keysSound_removeParticipant.
Qed.

Lemma keysSound_registered : keysSound Sample.registered.
Proof.
  constructor; simpl; try constructor;
    apply (bool_decide_unpack _); vm_compute; exact I.
Qed.

Lemma keysSound_chat : keysSound Sample.chat.
Proof.
  constructor; apply (bool_decide_unpack _); vm_compute; exact I.
Qed.

Lemma keysSound_trio : keysSound Sample.trio.
Proof.
  constructor; apply (bool_decide_unpack _); vm_compute; exact I.
Qed.

(** ** Reactions *)

Lemma messageExists_findOne messageId s :
  messageExists messageId s ↔
  is_Some (findOne (λ m, Message.id m = messageId) (messages s)).
Proof.
  unfold messageExists. rewrite Exists_exists. split.
  - intros (m & Hin & Hid). by eapply findOne_elem.
  - intros [m Hm]. apply findOne_Some in Hm as [? ?]. by exists m.
Qed.

Lemma reactToMessage_missing now messageId userId dto s :
  ¬ messageExists messageId s →
  ChatService.reactToMessage now messageId userId dto s
  = (Thrown (NotFoundException "Message not found"), s).
Proof.
  rewrite messageExists_findOne, <-eq_None_not_Some. intros Hnone.
  unfold ChatService.reactToMessage. run. by rewrite Hnone.
Qed.

Lemma reactToMessage_add now messageId userId emoji s :
  messageExists messageId s →
  reactionsOf messageId userId emoji s = [] →
  let x := MessageReaction.mk (nextId s) messageId userId emoji now in
  ChatService.reactToMessage now messageId userId {| rm_emoji := emoji |} s
  = (Ok (Some x),
     mkStore (users s) (conversations s) (conversation_participants s)
       (conversation_admins s) (messages s) (message_reactions s ++ [x])
       (message_reads s) (S (nextId s)) (S (commits s))).
Proof.
  rewrite messageExists_findOne. intros [m Hm] Hnone.
  apply findOne_None in Hnone.
  unfold ChatService.reactToMessage. run. rewrite Hm. simpl.
  by rewrite Hnone.
Qed.

Lemma reactToMessage_remove now messageId userId emoji s x :
  messageExists messageId s →
  head (reactionsOf messageId userId emoji s) = Some x →
  ChatService.reactToMessage now messageId userId {| rm_emoji := emoji |} s
  = (Ok None,
     committed
       (setReactions
          (deleteWhere (λ r, MessageReaction.id r = MessageReaction.id x))
          s)).
Proof.
  rewrite messageExists_findOne. intros [m Hm] Hx.
  unfold ChatService.reactToMessage. run. rewrite Hm. simpl.
  unfold reactionsOf in Hx. unfold findOne at 1. by rewrite Hx.
Qed.

Lemma filter_comm {A} (P Q : A → Prop) `{!∀ x, Decision (P x)}
    `{!∀ x, Decision (Q x)} (l : list A) :
  filter P (filter Q l) = filter Q (filter P l).
Proof. rewrite !list_filter_filter. apply list_filter_iff. intros x. tauto. Qed.

Lemma reactionsOf_delete messageId userId emoji s (Q : MessageReaction.t → Prop)
    `{!∀ r, Decision (Q r)} :
  reactionsOf messageId userId emoji
    (committed (setReactions (deleteWhere Q) s))
  = filter (λ r, ¬ Q r) (reactionsOf messageId userId emoji s).
Proof. unfold reactionsOf, deleteWhere. simpl. apply filter_comm. Qed.

Lemma deleteWhere_fresh (rs : list MessageReaction.t) (x : MessageReaction.t) :
  Forall (λ r, MessageReaction.id r < MessageReaction.id x) rs →
  deleteWhere (λ r, MessageReaction.id r = MessageReaction.id x) (rs ++ [x])
  = rs.
Proof.
  intros Hfresh. unfold deleteWhere. rewrite filter_app.
  rewrite filter_cons_False by (intros Hne; by apply Hne).
  rewrite filter_nil, app_nil_r.
  induction Hfresh as [|r rs Hr _ IH]; [done|].
  rewrite filter_cons_True by lia. by rewrite IH.
Qed.

Lemma reactionsOf_snoc messageId userId emoji s s' now newId :
  message_reactions s'
  = message_reactions s
    ++ [MessageReaction.mk newId messageId userId emoji now] →
  reactionsOf messageId userId emoji s'
  = reactionsOf messageId userId emoji s
    ++ [MessageReaction.mk newId messageId userId emoji now].
Proof.
  intros Heq. unfold reactionsOf. rewrite Heq, filter_app.
  by rewrite (filter_cons_True _ _ []).
Qed.

(** Whatever the call, a key that had at most one reaction row before it
    has at most one after it. *)
Lemma reactToMessage_at_most_one now messageId' userId' dto s
    messageId userId emoji :
  length (reactionsOf messageId userId emoji s) ≤ 1 →
  length (reactionsOf messageId userId emoji
            (ChatService.reactToMessage now messageId' userId' dto s).2) ≤ 1.
Proof.
  intros Hle. destruct dto as [emoji'].
  destruct (decide (messageExists messageId' s)) as [Hm|Hm];
    [|by rewrite reactToMessage_missing].
  destruct (head (reactionsOf messageId' userId' emoji' s)) as [x|] eqn:Hx.
  - rewrite (reactToMessage_remove _ _ _ _ _ x) by done. simpl.
    rewrite reactionsOf_delete.
    etrans; [apply length_filter|done].
  - apply head_None in Hx. rewrite reactToMessage_add by done. simpl.
    unfold reactionsOf in *. simpl. rewrite filter_app, length_app.
    destruct (decide (messageId' = messageId ∧ userId' = userId
                      ∧ emoji' = emoji)) as [(-> & -> & ->)|Hne].
    + rewrite Hx. simpl. rewrite filter_cons_True by done. simpl. lia.
    + rewrite filter_cons_False by (simpl; naive_solver). simpl. lia.
Qed.

(** C2.  Calls that run one after the other, each to its end before the
    next begins: with the message and the user present and no reaction
    for (message, user, emoji), the first call creates the reaction and
    returns it, the second deletes it and returns null, the third returns
    a reaction again; after each call the table holds respectively one,
    no and one row for the triple; after the second call the table is the
    one before the first (the keys of the store being sound); and no such
    call of [reactToMessage] whatsoever takes a triple from at most one
    row to more than one. *)
Theorem reactToMessage_toggle now1 now2 now3 messageId userId emoji s :
  messageExists messageId s →
  userId ∈ User.id <$> users s →
  reactionsOf messageId userId emoji s = [] →
  let dto := {| rm_emoji := emoji |} in
  ∃ x y s1 s2 s3,
    ChatService.reactToMessage now1 messageId userId dto s = (Ok (Some x), s1) ∧
    ChatService.reactToMessage now2 messageId userId dto s1 = (Ok None, s2) ∧
    ChatService.reactToMessage now3 messageId userId dto s2 = (Ok (Some y), s3) ∧
    (MessageReaction.messageId x, MessageReaction.userId x,
     MessageReaction.emoji x) = (messageId, userId, emoji) ∧
    (MessageReaction.messageId y, MessageReaction.userId y,
     MessageReaction.emoji y) = (messageId, userId, emoji) ∧
    message_reactions s1 = message_reactions s ++ [x] ∧
    reactionsOf messageId userId emoji s1 = [x] ∧
    reactionsOf messageId userId emoji s2 = [] ∧
    reactionsOf messageId userId emoji s3 = [y] ∧
    (keysSound s → message_reactions s2 = message_reactions s) ∧
    (∀ now' messageId' userId' dto' s' m u e,
       length (reactionsOf m u e s') ≤ 1 →
       length (reactionsOf m u e
         (ChatService.reactToMessage now' messageId' userId' dto' s').2) ≤ 1).
Proof.
  intros Hm _ Hnone dto.
  set (x := MessageReaction.mk (nextId s) messageId userId emoji now1).
  pose proof (reactToMessage_add now1 _ _ _ _ Hm Hnone) as H1.
  cbv zeta in H1. fold x in H1.
  set (s1 := mkStore _ _ _ _ _ _ _ _ _) in H1.
  assert (reactionsOf messageId userId emoji s1 = [x]) as Hone.
  { by rewrite (reactionsOf_snoc _ _ _ s s1 now1 (nextId s)), Hnone. }
  assert (messageExists messageId s1) as Hm1 by done.
  pose proof (reactToMessage_remove now2 _ userId emoji _ x Hm1) as H2.
  rewrite Hone in H2. specialize (H2 eq_refl).
  set (s2 := committed _) in H2.
  assert (reactionsOf messageId userId emoji s2 = []) as Hnone2.
  { unfold s2. rewrite reactionsOf_delete, Hone.
    by rewrite filter_cons_False by naive_solver. }
  assert (messageExists messageId s2) as Hm2 by done.
  pose proof (reactToMessage_add now3 _ _ _ _ Hm2 Hnone2) as H3.
  cbv zeta in H3.
  set (y := MessageReaction.mk (nextId s2) messageId userId emoji now3) in H3.
  set (s3 := mkStore _ _ _ _ _ _ _ _ _) in H3.
  exists x, y, s1, s2, s3. split_and!; try done.
  - by rewrite (reactionsOf_snoc _ _ _ s2 s3 now3 (nextId s2)), Hnone2.
  - intros Hs. simpl. apply (deleteWhere_fresh _ x), (reactions_known s Hs).
  - intros. by apply reactToMessage_at_most_one.
Qed.

Lemma reactToMessage_toggle_witness :
  messageExists 11 Sample.chat ∧
  2 ∈ User.id <$> users Sample.chat ∧
  reactionsOf 11 2 "+1" Sample.chat = [] ∧
  ∃ x y s1 s2 s3,
    ChatService.reactToMessage 201 11 2 {| rm_emoji := "+1" |} Sample.chat
      = (Ok (Some x), s1) ∧
    ChatService.reactToMessage 202 11 2 {| rm_emoji := "+1" |} s1
      = (Ok None, s2) ∧
    ChatService.reactToMessage 203 11 2 {| rm_emoji := "+1" |} s2
      = (Ok (Some y), s3) ∧
    message_reactions s2 = message_reactions Sample.chat.
Proof.
  assert (messageExists 11 Sample.chat) as Hm
    by (apply (bool_decide_unpack _); vm_compute; exact I).
  assert (2 ∈ User.id <$> users Sample.chat) as Hu
    by (apply (bool_decide_unpack _); vm_compute; exact I).
  assert (reactionsOf 11 2 "+1" Sample.chat = []) as Hnone by reflexivity.
  split; [exact Hm|]. split; [exact Hu|]. split; [exact Hnone|].
  destruct (reactToMessage_toggle 201 202 203 11 2 "+1" Sample.chat
              Hm Hu Hnone)
    as (x & y & s1 & s2 & s3 & H1 & H2 & H3 & _ & _ & _ & _ & _ & _ & Hsame & _).
  exists x, y, s1, s2, s3. split_and!; try done.
  apply Hsame, keysSound_chat.
Defined.

(** A call that runs alone takes its steps one after the other and ends
    as [reactToMessage] does. *)
Lemma reactSchedule_alone call s :
  reactSchedule [0; 0; 0] [call] s
  = ((ChatService.reactToMessage (rc_now call) (rc_messageId call)
        (rc_userId call) (rc_dto call) s).2,
     [(call,
       Returned
         (ChatService.reactToMessage (rc_now call) (rc_messageId call)
            (rc_userId call) (rc_dto call) s).1)]).
Proof.
  destruct (ChatService.reactToMessage _ _ _ _ s) as [r s'] eqn:Hcall.
  revert Hcall.
  unfold ChatService.reactToMessage, reactSchedule, reactTurn. run.
  destruct (findOne _ (messages s)); simpl; [|by intros [= <- <-]].
  destruct (findOne _ (message_reactions s)); simpl; by intros [= <- <-].
Qed.

(** Two requests of one user for the same reaction to the same message.
    Run one after the other they add the reaction and remove it.  When
    they overlap, each looks for the reaction before the other has saved
    its own: both save, both report a reaction added, and the triple has
    two rows, there being no unique constraint on the table; a third
    request then removes the first of them and returns null while the
    other row stays. *)
Lemma reactToMessage_overlapping_calls :
  messageExists 11 Sample.chat ∧
  2 ∈ User.id <$> users Sample.chat ∧
  reactionsOf 11 2 "+1" Sample.chat = [] ∧
  (∃ x s',
     reactSchedule [0; 0; 0; 1; 1; 1] [Sample.firstTap; Sample.secondTap]
       Sample.chat
     = (s', [(Sample.firstTap, Returned (Ok (Some x)));
             (Sample.secondTap, Returned (Ok None))]) ∧
     reactionsOf 11 2 "+1" s' = []) ∧
  (∃ x y s' s'',
     reactSchedule [0; 1; 0; 1; 0; 1] [Sample.firstTap; Sample.secondTap]
       Sample.chat
     = (s', [(Sample.firstTap, Returned (Ok (Some x)));
             (Sample.secondTap, Returned (Ok (Some y)))]) ∧
     reactionsOf 11 2 "+1" s' = [x; y] ∧
     ¬ length (reactionsOf 11 2 "+1" s') ≤ 1 ∧
     ChatService.reactToMessage 203 11 2 Sample.thumbsUp s' = (Ok None, s'') ∧
     reactionsOf 11 2 "+1" s'' = [y]).
Proof.
  split_and!; [decided|decided|reflexivity|..].
  - eexists _, _. split; reflexivity.
  - eexists _, _, _, _. split_and!; [reflexivity|reflexivity| |reflexivity..].
    simpl. lia.
Qed.

(** C9.  [reactToMessage] looks at the message table and at the
    reactions, never at the participants of the conversation nor at the
    deleted flag of the message.  It throws NotFound exactly when no
    message has the key, and never Forbidden; when the message exists,
    deleted or not, and whoever the user is, participant or not, the call
    succeeds and toggles: without a reaction for the triple it appends
    one and returns it, and the triple then has that one row; with one it
    returns null, the first such row is gone from the table, every row
    with another key is kept in its place, and the triple has fewer rows
    than before. *)
Theorem reactToMessage_no_membership_check now messageId userId emoji s :
  let r := ChatService.reactToMessage now messageId userId
             {| rm_emoji := emoji |} s in
  (isNotFound r.1 ↔ ¬ messageExists messageId s) ∧
  ¬ isForbidden r.1 ∧
  (messageExists messageId s → userId ∈ User.id <$> users s →
   (reactionsOf messageId userId emoji s = [] →
    ∃ x, r.1 = Ok (Some x) ∧
         message_reactions r.2 = message_reactions s ++ [x] ∧
         (MessageReaction.messageId x, MessageReaction.userId x,
          MessageReaction.emoji x) = (messageId, userId, emoji) ∧
         reactionsOf messageId userId emoji r.2 = [x]) ∧
   (∀ x, head (reactionsOf messageId userId emoji s) = Some x →
    r.1 = Ok None ∧
    (x ∉ message_reactions r.2) ∧
    (∀ y, y ∈ message_reactions r.2
          ↔ y ∈ message_reactions s ∧
            MessageReaction.id y ≠ MessageReaction.id x) ∧
    sublist (message_reactions r.2) (message_reactions s) ∧
    length (reactionsOf messageId userId emoji r.2)
    < length (reactionsOf messageId userId emoji s))).
Proof.
  intros r. unfold r.
  destruct (decide (messageExists messageId s)) as [Hm|Hm].
  - destruct (head (reactionsOf messageId userId emoji s)) as [x|] eqn:Hx.
    + rewrite (reactToMessage_remove _ _ _ _ _ x) by done. cbn [fst snd].
      split_and!; [simpl; tauto|simpl; tauto|]. intros _ _.
      split; [intros Hnil; by rewrite Hnil in Hx|].
      intros x' [= <-]. rewrite reactionsOf_delete. simpl.
      unfold deleteWhere. split_and!.
      * done.
      * intros [Hne _]%list_elem_of_filter. by apply Hne.
      * intros y. rewrite list_elem_of_filter. tauto.
      * apply sublist_filter.
      * apply head_Some in Hx as [rest Hx]. rewrite Hx.
        rewrite filter_cons_False by (intros Hne; by apply Hne).
        simpl. apply Nat.lt_succ_r, length_filter.
    + apply head_None in Hx. rewrite reactToMessage_add by done.
      cbn [fst snd].
      split_and!; [simpl; tauto|simpl; tauto|]. intros _ _.
      split; [|by intros x Hx'].
      intros _. eexists. split_and!; [done..|].
      unfold reactionsOf in *. simpl. rewrite filter_app, Hx.
      by rewrite filter_cons_True.
  - rewrite reactToMessage_missing by done. simpl.
    split_and!; tauto.
Qed.

Lemma reactToMessage_no_membership_check_witness :
  ((10, 3) ∉ conversation_participants Sample.afterDelete) ∧
  (∃ m, m ∈ messages Sample.afterDelete ∧ Message.id m = 12 ∧
        Message.conversationId m = 10 ∧ Message.isDeleted m = true) ∧
  (ChatService.reactToMessage 501 99 3 {| rm_emoji := "+1" |}
     Sample.afterDelete).1
  = Thrown (NotFoundException "Message not found") ∧
  ∃ x s1 s2,
    ChatService.reactToMessage 500 12 3 {| rm_emoji := "+1" |} Sample.afterDelete
    = (Ok (Some x), s1) ∧
    reactionsOf 12 3 "+1" s1 = [x] ∧
    ChatService.reactToMessage 501 12 3 {| rm_emoji := "+1" |} s1
    = (Ok None, s2) ∧
    reactionsOf 12 3 "+1" s2 = [].
Proof.
  split_and!.
  - decided.
  - eexists. split_and!;
      [apply list_elem_of_further, list_elem_of_here|reflexivity..].
  - reflexivity.
  - destruct (reactToMessage_no_membership_check 500 12 3 "+1"
                Sample.afterDelete) as (_ & _ & Hok).
    destruct Hok as [Hadd _]; [decided|decided|].
    destruct Hadd as (x & Hx & _ & _ & Hone); [reflexivity|].
    set (s1 := (ChatService.reactToMessage 500 12 3 {| rm_emoji := "+1" |}
                  Sample.afterDelete).2) in *.
    destruct (reactToMessage_no_membership_check 501 12 3 "+1" s1)
      as (_ & _ & Hok).
    destruct Hok as [_ Hremove]; [decided|decided|].
    destruct (Hremove x) as (Hnull & _ & _ & _ & Hfewer);
      [by rewrite Hone|].
    exists x, s1,
      (ChatService.reactToMessage 501 12 3 {| rm_emoji := "+1" |} s1).2.
    split_and!.
    + by apply injective_projections.
    + exact Hone.
    + by apply injective_projections.
    + rewrite Hone in Hfewer. revert Hfewer.
      generalize (ChatService.reactToMessage 501 12 3 {| rm_emoji := "+1" |}
                    s1).2.
      intros s2 Hfewer. apply nil_length_inv.
      cbn [length] in Hfewer. lia.
Defined.

(** ** Direct conversations *)

Lemma elem_of_pair_swap (x a b : Id) : x ∈ [a; b] ↔ x ∈ [b; a].
Proof. rewrite !elem_of_cons, !elem_of_nil. tauto. Qed.

Lemma directMatch_swap s a b c : directMatch s a b c ↔ directMatch s b a c.
Proof.
  unfold directMatch.
  rewrite (list_filter_iff _
    (λ p, p.1 = Conversation.id c ∧ p.2 ∈ [b; a])); [done|].
  intros p. by rewrite elem_of_pair_swap.
Qed.

Lemma findOne_iff {A} (P Q : A → Prop) `{!∀ x, Decision (P x)}
    `{!∀ x, Decision (Q x)} (tbl : list A) :
  (∀ x, P x ↔ Q x) → findOne P tbl = findOne Q tbl.
Proof. intros HPQ. unfold findOne. by rewrite (list_filter_iff P Q). Qed.

(** The number of join rows counted by [directMatch], read off the
    participant ids of the conversation. *)
Lemma directMatch_count s a b cid :
  length (filter (λ p, p.1 = cid ∧ p.2 ∈ [a; b])
            (conversation_participants s))
  = length (filter (λ u, u ∈ [a; b]) (participantIdsOf cid s)).
Proof.
  unfold participantIdsOf.
  induction (conversation_participants s) as [|[c u] l IH]; [done|].
  rewrite !filter_cons. simpl.
  destruct (decide (c = cid)) as [->|Hc]; simpl.
  - rewrite filter_cons.
    destruct (decide (u ∈ [a; b])).
    + rewrite decide_True by done. simpl. by rewrite IH.
    + rewrite decide_False by tauto. done.
  - rewrite decide_False by tauto. done.
Qed.

Lemma NoDup_participantIdsOf cid s :
  NoDup (conversation_participants s) → NoDup (participantIdsOf cid s).
Proof.
  intros Hnd. unfold participantIdsOf.
  apply NoDup_fmap_2_strong; [|by apply NoDup_filter].
  intros [c1 x1] [c2 x2] [? _]%list_elem_of_filter [? _]%list_elem_of_filter.
  simpl in *. congruence.
Qed.

(** With the join table free of repeated rows, a conversation that
    [findDirectConversation] accepts has both users among its
    participants. *)
Lemma directMatch_both s a b c :
  NoDup (conversation_participants s) → directMatch s a b c →
  a ∈ participantIdsOf (Conversation.id c) s ∧
  b ∈ participantIdsOf (Conversation.id c) s.
Proof.
  intros Hnd [_ Hlen]. rewrite directMatch_count in Hlen.
  pose proof (NoDup_participantIdsOf (Conversation.id c) s Hnd) as Hndp.
  destruct (filter_pair_both (λ u, u) (participantIdsOf (Conversation.id c) s)
              a b) as (_ & Ha & Hb).
  - by rewrite list_fmap_id.
  - done.
  - by rewrite list_fmap_id in Ha, Hb.
Qed.

(** What [createConversation] computes for a direct conversation between
    two users that both exist. *)
Lemma createConversation_direct now userId dto s a b :
  cc_type dto = DIRECT →
  uniq (userId :: cc_participantIds dto) = [a; b] ∨
  uniq (userId :: cc_participantIds dto) = [b; a] →
  length (filter (λ u, User.id u ∈ [a; b]) (users s)) = 2 →
  ChatService.createConversation now userId dto s
  = match findOne (directMatch s a b) (conversations s) with
    | Some c => (Ok (Conversation.mk c None), s)
    | None =>
        let c := Conversation.mkRow (nextId s) (cc_name dto) DIRECT
                   (cc_description dto) None
                   (default false (cc_isPrivate dto)) (Some userId)
                   (Some now) in
        let ps := filter (λ u, User.id u ∈ [a; b]) (users s) in
        (Ok (Conversation.mk c (Some ps)), withDirect c ps s)
    end.
Proof.
  intros Htype Huniq Hlen.
  assert (filter (λ u, User.id u ∈ [b; a]) (users s)
          = filter (λ u, User.id u ∈ [a; b]) (users s)) as Hswap.
  { apply list_filter_iff. intros u. apply elem_of_pair_swap. }
  assert (findOne (directMatch s b a) (conversations s)
          = findOne (directMatch s a b) (conversations s)) as Hfind.
  { apply findOne_iff. intros c. apply directMatch_swap. }
  unfold ChatService.createConversation.
  destruct Huniq as [-> | ->]; run; rewrite ?Hswap, Hlen; simpl;
    rewrite Htype; simpl; unfold ChatService.findDirectConversation; run;
    rewrite ?Hfind;
    by destruct (findOne (directMatch s a b) (conversations s)).
Qed.

Lemma participantIdsOf_withDirect c ps s :
  Forall (λ p, p.1 < Conversation.id c) (conversation_participants s) →
  participantIdsOf (Conversation.id c) (withDirect c ps s) = User.id <$> ps.
Proof.
  intros Hfresh. unfold participantIdsOf. simpl. rewrite filter_app.
  rewrite filter_none, filter_all; simpl.
  - rewrite <-list_fmap_compose. done.
  - by intros p (u & -> & _)%list_elem_of_fmap.
  - rewrite Forall_forall in Hfresh. intros p Hp ?.
    specialize (Hfresh p Hp). simpl in *. lia.
Qed.

Lemma participantIdsOf_withDirect_ne c ps s cid :
  cid ≠ Conversation.id c →
  participantIdsOf cid (withDirect c ps s) = participantIdsOf cid s.
Proof.
  intros Hne. unfold participantIdsOf. simpl. rewrite filter_app.
  rewrite (filter_none _ (_ <$> ps)); [by rewrite app_nil_r|].
  intros p (u & -> & _)%list_elem_of_fmap. simpl. congruence.
Qed.

Lemma directMatch_withDirect_old c ps s a b c' :
  Conversation.id c' ≠ Conversation.id c →
  directMatch (withDirect c ps s) a b c' ↔ directMatch s a b c'.
Proof.
  intros Hne. unfold directMatch.
  by rewrite !directMatch_count, participantIdsOf_withDirect_ne.
Qed.

Lemma directMatch_withDirect_new c ps s a b :
  Conversation.type c = DIRECT →
  Forall (λ p, p.1 < Conversation.id c) (conversation_participants s) →
  User.id <$> ps ≡ₚ [a; b] →
  directMatch (withDirect c ps s) a b c.
Proof.
  intros Htype Hfresh Hperm. split; [done|].
  rewrite directMatch_count, participantIdsOf_withDirect by done.
  rewrite filter_all.
  - by rewrite Hperm.
  - intros x. by rewrite Hperm.
Qed.

(** C1, as the code has it.  Two users that both exist, a store whose
    keys are sound, and two requests for a direct conversation whose
    participants, requester included, are exactly the two users, in
    whatever order and from whichever of them: both calls return the same
    conversation row, the second call changes nothing in the store, and
    the conversation is of type direct with both users among its
    participants.  Its participants are exactly the pair when the first
    call had to create it, and when no direct conversation of the store
    has more than two participants. *)
Theorem createConversation_direct_twice
    now1 now2 userId1 dto1 userId2 dto2 u1 u2 s :
  keysSound s →
  u1 ≠ u2 →
  u1 ∈ User.id <$> users s → u2 ∈ User.id <$> users s →
  cc_type dto1 = DIRECT → cc_type dto2 = DIRECT →
  (∀ x, x ∈ userId1 :: cc_participantIds dto1 ↔ x = u1 ∨ x = u2) →
  (∀ x, x ∈ userId2 :: cc_participantIds dto2 ↔ x = u1 ∨ x = u2) →
  ∃ c1 c2 s1,
    ChatService.createConversation now1 userId1 dto1 s = (Ok c1, s1) ∧
    ChatService.createConversation now2 userId2 dto2 s1 = (Ok c2, s1) ∧
    Conversation.columns c2 = Conversation.columns c1 ∧
    Conversation.columns c2 ∈ conversations s1 ∧
    Conversation.type (Conversation.columns c2) = DIRECT ∧
    u1 ∈ participantIdsOf (Conversation.id (Conversation.columns c2)) s1 ∧
    u2 ∈ participantIdsOf (Conversation.id (Conversation.columns c2)) s1 ∧
    (findOne (directMatch s u1 u2) (conversations s) = None →
     participantIdsOf (Conversation.id (Conversation.columns c2)) s1
       ≡ₚ [u1; u2]) ∧
    (Forall (λ c, Conversation.type c = DIRECT →
                  length (participantIdsOf (Conversation.id c) s) ≤ 2)
       (conversations s) →
     participantIdsOf (Conversation.id (Conversation.columns c2)) s1
       ≡ₚ [u1; u2]).
Proof.
  intros [Hndu _ Hndp _ Hfc Hfp _ _] Hne Hu1 Hu2 Ht1 Ht2 Hset1 Hset2.
  pose proof (uniq_pair _ u1 u2 Hne Hset1) as Hord1.
  pose proof (uniq_pair _ u1 u2 Hne Hset2) as Hord2.
  pose proof (filter_pair_perm User.id (users s) u1 u2 Hndu Hne Hu1 Hu2)
    as Hperm.
  pose proof (filter_pair_length User.id (users s) u1 u2 Hndu Hne Hu1 Hu2)
    as Hlen.
  rewrite (createConversation_direct now1 userId1 dto1 s u1 u2) by done.
  destruct (findOne (directMatch s u1 u2) (conversations s)) as [c|] eqn:Hfind.
  - (* a direct conversation of the two users is already stored *)
    exists (Conversation.mk c None), (Conversation.mk c None), s.
    rewrite (createConversation_direct now2 userId2 dto2 s u1 u2) by done.
    rewrite Hfind. simpl.
    apply findOne_Some in Hfind as [Hmatch Hin].
    destruct (directMatch_both s u1 u2 c Hndp Hmatch) as [Hin1 Hin2].
    split_and!; try done.
    + apply Hmatch.
    + intros Hall. rewrite Forall_forall in Hall.
      apply NoDup_pair_perm; try done.
      * by apply NoDup_participantIdsOf.
      * apply Hall; [done|apply Hmatch].
  - (* none is stored: the first call inserts one, the second finds it *)
    set (c := Conversation.mkRow (nextId s) (cc_name dto1) DIRECT
                (cc_description dto1) None
                (default false (cc_isPrivate dto1)) (Some userId1)
                (Some now1)).
    set (ps := filter (λ u, User.id u ∈ [u1; u2]) (users s)) in *.
    cbv zeta.
    assert (participantIdsOf (Conversation.id c) (withDirect c ps s)
            ≡ₚ [u1; u2]) as Hps.
    { by rewrite participantIdsOf_withDirect. }
    assert (findOne (directMatch (withDirect c ps s) u1 u2)
              (conversations (withDirect c ps s)) = Some c) as Hfind'.
    { simpl. apply findOne_app_None.
      - apply findOne_None, filter_none. intros c' Hc' Hm.
        apply findOne_None in Hfind.
        apply (filter_nil_not_elem_of _ (conversations s) c' Hfind);
          [|done].
        apply (directMatch_withDirect_old c ps s u1 u2 c'); [|done].
        rewrite Forall_forall in Hfc. specialize (Hfc c' Hc'). simpl. lia.
      - by apply directMatch_withDirect_new. }
    exists (Conversation.mk c (Some ps)), (Conversation.mk c None),
      (withDirect c ps s).
    rewrite (createConversation_direct now2 userId2 dto2 _ u1 u2) by done.
    rewrite Hfind'. simpl.
    split_and!; try done.
    + apply elem_of_app. right. by apply list_elem_of_singleton.
    + change (nextId s) with (Conversation.id c). rewrite Hps. by left.
    + change (nextId s) with (Conversation.id c). rewrite Hps.
      right. by left.
Qed.

Lemma createConversation_direct_twice_witness :
  ∃ c1 c2 s1,
    ChatService.createConversation 100 1 (Sample.directWith [2])
      Sample.registered = (Ok c1, s1) ∧
    ChatService.createConversation 101 2 (Sample.directWith [1; 2]) s1
      = (Ok c2, s1) ∧
    Conversation.columns c2 = Conversation.columns c1 ∧
    participantIdsOf (Conversation.id (Conversation.columns c2)) s1
      ≡ₚ [1; 2].
Proof.
  destruct (createConversation_direct_twice 100 101
              1 (Sample.directWith [2]) 2 (Sample.directWith [1; 2])
              1 2 Sample.registered)
    as (c1 & c2 & s1 & H1 & H2 & Hsame & _ & _ & _ & _ & Hpair & _).
  - apply keysSound_registered.
  - lia.
  - apply (bool_decide_unpack _). vm_compute. exact I.
  - apply (bool_decide_unpack _). vm_compute. exact I.
  - reflexivity.
  - reflexivity.
  - intros x. simpl. rewrite !elem_of_cons, elem_of_nil. tauto.
  - intros x. simpl. rewrite !elem_of_cons, elem_of_nil. lia.
  - exists c1, c2, s1. split_and!; try done. apply Hpair. reflexivity.
Defined.

(** C1 fails as worded.  In [Sample.trio] the direct conversation [10]
    has the participants alice, bob and carol.  alice and bob each ask for
    a direct conversation with the other: both calls return [10], whose
    participants are not exactly the pair. *)
Lemma createConversation_direct_not_exact_pair :
  keysSound Sample.trio ∧
  (1 ≠ 2 ∧ 1 ∈ User.id <$> users Sample.trio
   ∧ 2 ∈ User.id <$> users Sample.trio) ∧
  uniq (1 :: cc_participantIds (Sample.directWith [2])) = [1; 2] ∧
  uniq (2 :: cc_participantIds (Sample.directWith [1])) = [2; 1] ∧
  (ChatService.createConversation 100 1 (Sample.directWith [2; 3])
     Sample.registered).2 = Sample.trio ∧
  (∃ c, ChatService.createConversation 200 1 (Sample.directWith [2])
          Sample.trio = (Ok (Conversation.mk c None), Sample.trio) ∧
        ChatService.createConversation 201 2 (Sample.directWith [1])
          Sample.trio = (Ok (Conversation.mk c None), Sample.trio) ∧
        Conversation.id c = 10 ∧ Conversation.type c = DIRECT ∧
        participantIdsOf 10 Sample.trio = [1; 2; 3]) ∧
  ¬ directTwiceExactPair 200 201 1 (Sample.directWith [2])
      2 (Sample.directWith [1]) 1 2 Sample.trio.
Proof.
  split_and!; try reflexivity; try lia.
  - apply keysSound_trio.
  - apply (bool_decide_unpack _). vm_compute. exact I.
  - apply (bool_decide_unpack _). vm_compute. exact I.
  - eexists. split_and!; reflexivity.
  - intros (c1 & c2 & s1 & s2 & H1 & H2 & _ & -> & Hperm).
    vm_compute in H1. injection H1 as <- <-.
    vm_compute in H2. injection H2 as <-.
    apply Permutation_length in Hperm. vm_compute in Hperm. discriminate.
Qed.

(** ** Editing a message *)

(** C6.  In a store with sound keys, the message with key [messageId]
    being [m]: a requester other than its sender gets NotFound (the
    exception of a missing message, not Forbidden) and the store stays as
    it is; the sender gets the message back with the new content, the
    edited flag set, the edit time stamped and the sender relation
    loaded, and only that row changes.  A call that succeeds was made by
    the sender. *)
Theorem editMessage_only_sender now messageId userId content s m :
  keysSound s →
  m ∈ messages s → Message.id m = messageId →
  let r := ChatService.editMessage now messageId userId content s in
  (Message.senderId m ≠ userId →
   r = (Thrown (NotFoundException "Message not found or access denied"), s)
   ∧ isNotFound r.1 ∧ ¬ isForbidden r.1) ∧
  (Message.senderId m = userId →
   ∃ e,
     r = (Ok (Some e),
          committed
            (setMessages
               (updateById Message.id messageId
                  (Message.setEdited content now)) s)) ∧
     Message.columns e = Message.setEdited content now m ∧
     Message.content (Message.columns e) = content ∧
     Message.isEdited (Message.columns e) = true ∧
     Message.editedAt (Message.columns e) = Some now ∧
     Message.sender e = findOne (λ u, User.id u = userId) (users s)) ∧
  (¬ isThrown r.1 → Message.senderId m = userId).
Proof.
  intros Hs Hm Hid r. pose proof (messages_keyed s Hs) as Hnd.
  assert (Message.senderId m ≠ userId →
          r = (Thrown (NotFoundException "Message not found or access denied"),
               s)) as Hother.
  { intros Hne. unfold r, ChatService.editMessage. run.
    rewrite (proj2 (findOne_None _ (messages s))); [done|].
    apply filter_none. intros x Hx [Hxid Hxs].
    assert (x = m) as -> by (eapply (NoDup_key_inj Message.id); [done..|congruence]).
    done. }
  split_and!.
  - intros Hne. rewrite (Hother Hne). simpl. tauto.
  - intros Hsender. subst messageId.
    assert (findOne (λ x, Message.id x = Message.id m ∧
                          Message.senderId x = userId) (messages s) = Some m)
      as Hfound.
    { destruct (findOne_elem (λ x, Message.id x = Message.id m ∧
                  Message.senderId x = userId) (messages s) m Hm) as [x Hx];
        [done|].
      rewrite Hx. f_equal. apply findOne_Some in Hx as [[Hxid _] Hin].
      by eapply (NoDup_key_inj Message.id). }
    exists (ChatService.withSender s (Message.setEdited content now m)).
    split_and!; try done; [|by rewrite <-Hsender].
    unfold r, ChatService.editMessage. run. rewrite Hfound. simpl.
    rewrite (findOne_updateById Message.id) by done.
    by rewrite (findOne_key Message.id).
  - intros Hok. destruct (decide (Message.senderId m = userId)); [done|].
    rewrite Hother in Hok by done. by destruct Hok.
Qed.

Lemma editMessage_only_sender_witness :
  (ChatService.editMessage 300 11 2 "bye" Sample.chat).1
  = Thrown (NotFoundException "Message not found or access denied") ∧
  ∃ e, (ChatService.editMessage 300 11 1 "bye" Sample.chat).1 = Ok (Some e)
       ∧ Message.content (Message.columns e) = "bye"
       ∧ Message.sender e = Some Sample.alice.
Proof.
  pose proof keysSound_chat as Hnd.
  assert (∃ m, m ∈ messages Sample.chat ∧ Message.id m = 11
               ∧ Message.senderId m = 1) as (m & Hm & Hid & Hsender).
  { eexists. split_and!; [apply list_elem_of_here|reflexivity..]. }
  split.
  - destruct (editMessage_only_sender 300 11 2 "bye" Sample.chat m Hnd Hm Hid)
      as (Hother & _ & _).
    destruct Hother as (-> & _); [rewrite Hsender; lia|done].
  - destruct (editMessage_only_sender 300 11 1 "bye" Sample.chat m Hnd Hm Hid)
      as (_ & Hown & _).
    destruct (Hown Hsender) as (e & -> & _ & Hc & _ & _ & Hs).
    exists e. split_and!; [done..|]. by rewrite Hs.
Defined.

(** ** Membership check *)

(** [getConversationById] on a stored conversation: the conversation for
    a participant, NotFound for anybody else; it writes nothing. *)
Lemma getConversationById_stored conversationId userId s c :
  NoDup (Conversation.id <$> conversations s) →
  c ∈ conversations s → Conversation.id c = conversationId →
  ChatService.getConversationById conversationId userId s
  = if decide ((conversationId, userId) ∈ conversation_participants s)
    then (Ok (Conversation.mk c
                (Some (filter (λ u, User.id u = userId) (users s)))), s)
    else (Thrown (NotFoundException "Conversation not found or access denied"),
          s).
Proof.
  intros Hnd Hc Hid. subst conversationId.
  unfold ChatService.getConversationById. run.
  destruct (decide ((Conversation.id c, userId) ∈ conversation_participants s))
    as [Hin|Hout].
  - rewrite (findOne_iff _ (λ c', Conversation.id c' = Conversation.id c))
      by (intros c'; tauto).
    by rewrite (findOne_key Conversation.id).
  - rewrite (proj2 (findOne_None _ (conversations s))); [done|].
    apply filter_none. intros c' _ [_ ?]. done.
Qed.

Lemma getConversationById_unchanged conversationId userId s :
  (ChatService.getConversationById conversationId userId s).2 = s.
Proof.
  unfold ChatService.getConversationById. run.
  by destruct (findOne _ (conversations s)).
Qed.

(** ** Removing a participant of a direct conversation *)

(** C7, as the code has it.  In a store with sound keys,
    [removeParticipant] on a direct conversation always fails and leaves
    the store, hence the participants, as they are, whatever the target:
    with Forbidden when the acting user is a participant of the
    conversation, with NotFound when not (the membership check of
    [getConversationById] comes first). *)
Theorem removeParticipant_direct conversationId userId participantId s c :
  keysSound s →
  c ∈ conversations s → Conversation.id c = conversationId →
  Conversation.type c = DIRECT →
  let r := ChatService.removeParticipant conversationId userId participantId s
  in
  r.2 = s ∧
  participantIdsOf conversationId r.2 = participantIdsOf conversationId s ∧
  ((conversationId, userId) ∈ conversation_participants s →
   r.1 = Thrown (ForbiddenException
                   "Cannot remove participants from direct conversations")) ∧
  ((conversationId, userId) ∉ conversation_participants s →
   r.1 = Thrown (NotFoundException
                   "Conversation not found or access denied")).
Proof.
  intros Hs Hc Hid Htype r. pose proof (conversations_keyed s Hs) as Hnd.
  assert (r = if decide ((conversationId, userId)
                         ∈ conversation_participants s)
              then (Thrown (ForbiddenException
                      "Cannot remove participants from direct conversations"),
                    s)
              else (Thrown (NotFoundException
                      "Conversation not found or access denied"), s)) as ->.
  { unfold r, ChatService.removeParticipant, bind.
    rewrite (getConversationById_stored _ _ _ c) by done.
    destruct (decide _); [|done]. simpl.
    by rewrite decide_True by done. }
  destruct (decide _); split_and!; done.
Qed.

Lemma removeParticipant_direct_witness :
  ChatService.removeParticipant 10 1 2 Sample.chat
  = (Thrown (ForbiddenException
               "Cannot remove participants from direct conversations"),
     Sample.chat) ∧
  ChatService.removeParticipant 10 3 2 Sample.chat
  = (Thrown (NotFoundException "Conversation not found or access denied"),
     Sample.chat).
Proof.
  pose proof keysSound_chat as Hnd.
  assert (∃ c, c ∈ conversations Sample.chat ∧ Conversation.id c = 10
               ∧ Conversation.type c = DIRECT) as (c & Hc & Hid & Htype).
  { eexists. split_and!; [apply list_elem_of_here|reflexivity..]. }
  split.
  - destruct (removeParticipant_direct 10 1 2 Sample.chat c Hnd Hc Hid Htype)
      as (Hs & _ & Hin & _).
    apply injective_projections; [|done].
    apply Hin. apply (bool_decide_unpack _). vm_compute. exact I.
  - destruct (removeParticipant_direct 10 3 2 Sample.chat c Hnd Hc Hid Htype)
      as (Hs & _ & _ & Hout).
    apply injective_projections; [|done].
    apply Hout. apply (bool_decide_unpack _). vm_compute. exact I.
Defined.

(** C7 fails as worded.  [10] is the direct conversation of alice and
    bob in [Sample.chat]; carol, who is not a participant, asks to remove
    bob: the call fails with NotFound, not with Forbidden. *)
Lemma removeParticipant_direct_outsider :
  (∃ c, c ∈ conversations Sample.chat ∧ Conversation.id c = 10
        ∧ Conversation.type c = DIRECT) ∧
  participantIdsOf 10 Sample.chat = [1; 2] ∧
  3 ∈ User.id <$> users Sample.chat ∧
  (ChatService.removeParticipant 10 3 2 Sample.chat).1
  = Thrown (NotFoundException "Conversation not found or access denied") ∧
  ¬ isForbidden (ChatService.removeParticipant 10 3 2 Sample.chat).1.
Proof.
  split_and!.
  - eexists. split_and!; [apply list_elem_of_here|reflexivity..].
  - reflexivity.
  - apply (bool_decide_unpack _). vm_compute. exact I.
  - reflexivity.
  - vm_compute. tauto.
Qed.

(** ** Read markers *)

(** C3.  [markAsRead] succeeds, and a second call right after it leaves
    the store exactly as the first call left it.  The first call only
    appends rows to the read markers: each new row is a marker of the
    user for a message of the conversation that had no marker of the
    user, at most one per message, so that a (message, user) pair with at
    most one marker before the call has at most one after it. *)
Theorem markAsRead_idempotent now1 now2 conversationId userId s :
  userId ∈ User.id <$> users s →
  ∃ s1 added,
    ChatService.markAsRead now1 conversationId userId s = (Ok tt, s1) ∧
    ChatService.markAsRead now2 conversationId userId s1 = (Ok tt, s1) ∧
    message_reads s1 = message_reads s ++ added ∧
    Forall (λ r,
        MessageRead.userId r = userId ∧
        ∃ m, m ∈ messages s ∧ Message.conversationId m = conversationId ∧
             MessageRead.messageId r = Message.id m ∧
             readMarkers (Message.id m) userId (message_reads s) = [])
      added ∧
    NoDup (MessageRead.messageId <$> added) ∧
    (∀ messageId userId',
       length (readMarkers messageId userId' (message_reads s1))
       ≤ max 1 (length (readMarkers messageId userId' (message_reads s)))).
Proof.
  intros _.
  destruct (foldl_markStep now1 userId (messagesOf conversationId s)
              (message_reads s) (nextId s))
    as (added & Heq & Hall & Hnd & Hcov).
  set (acc := foldl (markStep now1 userId) (message_reads s, nextId s)
                (messagesOf conversationId s)) in *.
  exists (withReads acc.1 acc.2 s), added.
  split_and!.
  - apply markAsRead_fold.
  - rewrite markAsRead_fold.
    change (messagesOf conversationId (withReads acc.1 acc.2 s))
      with (messagesOf conversationId s).
    rewrite foldl_markStep_marked.
    + cbn [fst snd]. by rewrite withReads_same.
    + simpl. rewrite Heq. done.
  - done.
  - eapply Forall_impl; [exact Hall|]. simpl.
    intros r (Hu & m & [Hm Hc]%elem_of_messagesOf & Hid & Hnone).
    split; [done|]. by exists m.
  - done.
  - intros messageId userId'. simpl. rewrite Heq.
    by eapply readMarkers_added.
Qed.

Lemma markAsRead_idempotent_witness :
  ∃ s1,
    ChatService.markAsRead 400 10 2 Sample.chat = (Ok tt, s1) ∧
    ChatService.markAsRead 401 10 2 s1 = (Ok tt, s1) ∧
    (λ r, (MessageRead.messageId r, MessageRead.userId r))
      <$> message_reads s1 = [(13, 2); (12, 2); (11, 2)].
Proof.
  destruct (markAsRead_idempotent 400 401 10 2 Sample.chat)
    as (s1 & added & H1 & H2 & _).
  - apply (bool_decide_unpack _). vm_compute. exact I.
  - exists s1. split_and!; [done..|].
    assert (s1 = (ChatService.markAsRead 400 10 2 Sample.chat).2) as ->
      by (by rewrite H1).
    reflexivity.
Defined.

(** C10.  [markAsRead] asks neither whether the user is a participant
    of the conversation nor whether a message is deleted: for every
    conversation id and every user it succeeds, and afterwards every
    message of the conversation, deleted or not, has a read marker of the
    user, exactly one when it had none; nothing but the read markers (and
    the counters of keys and of writes) changes. *)
Theorem markAsRead_no_checks now conversationId userId s :
  userId ∈ User.id <$> users s →
  let r := ChatService.markAsRead now conversationId userId s in
  r.1 = Ok tt ∧
  (∀ m, m ∈ messages s → Message.conversationId m = conversationId →
     readMarkers (Message.id m) userId (message_reads r.2) ≠ [] ∧
     (readMarkers (Message.id m) userId (message_reads s) = [] →
      length (readMarkers (Message.id m) userId (message_reads r.2)) = 1)) ∧
  r.2 = withReads (message_reads r.2) (nextId r.2) s.
Proof.
  intros _ r.
  destruct (foldl_markStep now userId (messagesOf conversationId s)
              (message_reads s) (nextId s))
    as (added & Heq & Hall & Hnd & Hcov).
  unfold r. rewrite markAsRead_fold. cbn [fst snd].
  set (acc := foldl (markStep now userId) (message_reads s, nextId s)
                (messagesOf conversationId s)) in *.
  change (message_reads (withReads acc.1 acc.2 s)) with acc.1.
  rewrite Heq. split_and!; [done| |done].
  intros m Hm Hc.
  assert (readMarkers (Message.id m) userId (message_reads s ++ added) ≠ [])
    as Hsome by (by apply Hcov, elem_of_messagesOf).
  split; [done|]. intros Hnone.
  pose proof (readMarkers_added _ _ _ _ Hall Hnd (Message.id m) userId) as Hle.
  rewrite Hnone in Hle.
  destruct (readMarkers (Message.id m) userId (message_reads s ++ added));
    simpl in *; [done|lia].
Qed.

Lemma markAsRead_no_checks_witness :
  ((10, 3) ∉ conversation_participants Sample.afterDelete) ∧
  (∃ m, m ∈ messages Sample.afterDelete ∧ Message.id m = 12 ∧
        Message.conversationId m = 10 ∧ Message.isDeleted m = true) ∧
  (ChatService.markAsRead 400 10 3 Sample.afterDelete).1 = Ok tt ∧
  length (readMarkers 12 3
            (message_reads
               (ChatService.markAsRead 400 10 3 Sample.afterDelete).2)) = 1.
Proof.
  assert (∃ m, m ∈ messages Sample.afterDelete ∧ Message.id m = 12 ∧
               Message.conversationId m = 10 ∧ Message.isDeleted m = true)
    as (m & Hm & Hid & Hc & Hdel).
  { eexists. split_and!;
      [apply list_elem_of_further, list_elem_of_here|reflexivity..]. }
  destruct (markAsRead_no_checks 400 10 3 Sample.afterDelete)
    as (Hok & Hall & _).
  { apply (bool_decide_unpack _). vm_compute. exact I. }
  split_and!.
  - apply (bool_decide_unpack _). vm_compute. exact I.
  - by exists m.
  - done.
  - destruct (Hall m Hm Hc) as [_ Hone]. rewrite Hid in Hone.
    apply Hone. reflexivity.
Defined.

(** ** Overlapping callbacks of [markAsRead] *)

Section overlap.
Context (now : Time) (userId : Id) (rs0 : list MessageRead.t)
  (msgs : list Message.row).
Hypothesis msgs_keyed : NoDup (Message.id <$> msgs).

(** The rows added so far do not concern a message whose callback is
    not done. *)
Lemma overlap_untouched rs n before m p after :
  overlapInv userId rs0 msgs (rs, n, before ++ (m, p) :: after) →
  p ≠ Settled →
  readMarkers (Message.id m) userId rs = readMarkers (Message.id m) userId rs0.
Proof using msgs_keyed.
  intros (Hmsgs & _ & added & Hrs & _ & Hperm) Hp. simpl in *.
  rewrite Hrs, readMarkers_app.
  assert (readMarkers (Message.id m) userId added = []) as ->;
    [|by rewrite app_nil_r].
  apply filter_none. intros r Hr [Hid _].
  assert (Message.id m ∈ MessageRead.messageId <$> added) as Hin.
  { rewrite <-Hid. by apply list_elem_of_fmap_2. }
  rewrite Hperm in Hin.
  apply list_elem_of_fmap in Hin as (m' & Hid' & Hin).
  apply list_elem_of_fmap in Hin as (t & -> & Hin).
  apply list_elem_of_filter in Hin as [[Ht _] Hin].
  rewrite <-Hmsgs, fmap_app, fmap_cons, fmap_app in msgs_keyed.
  simpl in msgs_keyed.
  apply NoDup_app in msgs_keyed as (_ & Hdisj & Hnd).
  apply NoDup_cons in Hnd as [Hm _].
  apply elem_of_app in Hin as [Hin|Hin].
  - apply (Hdisj (Message.id m)).
    + rewrite Hid'. by apply list_elem_of_fmap_2, list_elem_of_fmap_2.
    + left.
  - apply elem_of_cons in Hin as [->|Hin]; [done|].
    apply Hm. rewrite Hid'.
    by apply list_elem_of_fmap_2, list_elem_of_fmap_2.
Qed.

Lemma overlapInv_step st st' :
  overlapInv userId rs0 msgs st → overlapStep now userId st st' →
  overlapInv userId rs0 msgs st'.
Proof using msgs_keyed.
  intros Hinv Hstep. destruct Hstep as [rs n before m after
    |rs n before m after|rs n before m after].
  - (* an answer arrives *)
    pose proof (overlap_untouched _ _ _ _ _ _ Hinv) as Hsame.
    destruct Hinv as (Hmsgs & Hans & added & Hrs & Hu & Hperm).
    unfold overlapInv. simpl in *. split_and!.
    + rewrite <-Hmsgs. by rewrite !fmap_app, !fmap_cons.
    + apply Forall_app in Hans as [Hb Ha]. apply Forall_cons in Ha as [_ Ha].
      apply Forall_app. split; [done|]. apply Forall_cons. split; [|done].
      simpl. intros b [= <-]. rewrite Hsame by done. done.
    + exists added. split_and!; [done..|].
      rewrite Hperm, !filter_app, !filter_cons. simpl. done.
  - (* the marker exists: nothing to insert *)
    destruct Hinv as (Hmsgs & Hans & added & Hrs & Hu & Hperm).
    unfold overlapInv. simpl in *. split_and!.
    + rewrite <-Hmsgs. by rewrite !fmap_app, !fmap_cons.
    + apply Forall_app in Hans as [Hb Ha]. apply Forall_cons in Ha as [_ Ha].
      apply Forall_app. split; [done|]. apply Forall_cons. split; [|done].
      simpl. by intros b.
    + exists added. split_and!; [done..|].
      apply Forall_app in Hans as [_ Ha]. apply Forall_cons in Ha as [Hm _].
      specialize (Hm true eq_refl). simpl in Hm.
      symmetry in Hm. apply bool_decide_eq_true in Hm.
      rewrite Hperm, !filter_app, !filter_cons. simpl.
      rewrite decide_False by (by intros [_ ?]). done.
  - (* no marker: insert one *)
    destruct Hinv as (Hmsgs & Hans & added & Hrs & Hu & Hperm).
    unfold overlapInv. simpl in *. split_and!.
    + rewrite <-Hmsgs. by rewrite !fmap_app, !fmap_cons.
    + apply Forall_app in Hans as [Hb Ha]. apply Forall_cons in Ha as [_ Ha].
      apply Forall_app. split; [done|]. apply Forall_cons. split; [|done].
      simpl. by intros b.
    + exists (added ++ [MessageRead.mk n (Message.id m) userId now]).
      apply Forall_app in Hans as [_ Ha]. apply Forall_cons in Ha as [Hm _].
      specialize (Hm false eq_refl). simpl in Hm.
      symmetry in Hm. apply bool_decide_eq_false in Hm.
      assert (lacking userId rs0 m) as Hlack.
      { destruct (decide (lacking userId rs0 m)); [done|by destruct Hm]. }
      split_and!.
      * by rewrite Hrs, app_assoc.
      * apply Forall_app. split; [done|]. by apply Forall_singleton.
      * rewrite fmap_app, Hperm, !filter_app, !filter_cons. simpl.
        rewrite decide_True by done.
        rewrite !fmap_app, !fmap_cons. simpl.
        rewrite <-app_assoc. apply Permutation_app_head.
        symmetry. apply Permutation_cons_append.
Qed.

Lemma overlapInv_rtc st st' :
  overlapInv userId rs0 msgs st → rtc (overlapStep now userId) st st' →
  overlapInv userId rs0 msgs st'.
Proof using msgs_keyed.
  intros Hinv Hrun. induction Hrun as [|st st1 st' Hstep _ IH]; [done|].
  apply IH. by eapply overlapInv_step.
Qed.

Lemma overlapInv_start n :
  overlapInv userId rs0 msgs (rs0, n, (λ m, (m, Asked)) <$> msgs).
Proof.
  split_and!; simpl.
  - rewrite <-list_fmap_compose. apply list_fmap_id.
  - apply Forall_fmap, Forall_forall. by intros m _ b.
  - exists []. rewrite app_nil_r. split_and!; [done|constructor|].
    rewrite filter_none; [done|].
    by intros t (m & -> & _)%list_elem_of_fmap [? _].
Qed.

(** At the end of a complete run the rows added are one marker of the
    user for each message that had none. *)
Lemma overlap_complete n rs' n' :
  rtc (overlapStep now userId)
    (rs0, n, (λ m, (m, Asked)) <$> msgs)
    (rs', n', (λ m, (m, Settled)) <$> msgs) →
  ∃ added,
    rs' = rs0 ++ added ∧
    Forall (λ r, MessageRead.userId r = userId) added ∧
    MessageRead.messageId <$> added
      ≡ₚ Message.id <$> filter (lacking userId rs0) msgs.
Proof using msgs_keyed.
  intros Hrun.
  destruct (overlapInv_rtc _ _ (overlapInv_start n) Hrun)
    as (_ & _ & added & Hrs & Hu & Hperm). simpl in *.
  exists added. split_and!; [done..|].
  rewrite Hperm. clear. induction msgs as [|m l IH]; [done|].
  rewrite fmap_cons, !filter_cons. simpl.
  destruct (decide (lacking userId rs0 m)).
  - rewrite decide_True by done. simpl. by rewrite IH.
  - rewrite decide_False by (by intros [_ ?]). done.
Qed.

(** The callbacks run one after the other are one of the overlapped
    runs. *)
Lemma overlap_sequential rs n settled :
  rtc (overlapStep now userId)
    (rs, n, settled ++ ((λ m, (m, Asked)) <$> msgs))
    ((foldl (markStep now userId) (rs, n) msgs).1,
     (foldl (markStep now userId) (rs, n) msgs).2,
     settled ++ ((λ m, (m, Settled)) <$> msgs)).
Proof.
  clear msgs_keyed. revert rs n settled.
  induction msgs as [|m l IH]; intros rs n settled; [done|].
  simpl. eapply rtc_l; [apply overlap_answer|].
  unfold markStep at 2 4. simpl.
  destruct (readMarkers (Message.id m) userId rs) as [|r rs1] eqn:Hm.
  - rewrite bool_decide_eq_false_2 by (by intros []).
    eapply rtc_l; [apply overlap_save|].
    rewrite !(cons_middle _ settled), !app_assoc. apply IH.
  - rewrite bool_decide_eq_true_2 by done.
    eapply rtc_l; [apply overlap_skip|].
    rewrite !(cons_middle _ settled), !app_assoc. apply IH.
Qed.
End overlap.

Lemma markerPairs_app rs rs' :
  markerPairs (rs ++ rs') = markerPairs rs ++ markerPairs rs'.
Proof. apply fmap_app. Qed.

Lemma markerPairs_of_user userId (added : list MessageRead.t) :
  Forall (λ r, MessageRead.userId r = userId) added →
  markerPairs added = (λ i, (i, userId)) <$> (MessageRead.messageId <$> added).
Proof.
  intros Hu. unfold markerPairs. rewrite <-list_fmap_compose.
  apply Forall_fmap_ext_1. eapply Forall_impl; [exact Hu|].
  simpl. by intros r <-.
Qed.

Lemma NoDup_messagesOf conversationId s :
  NoDup (Message.id <$> messages s) →
  NoDup (Message.id <$> messagesOf conversationId s).
Proof.
  intros Hnd. unfold messagesOf. rewrite merge_sort_Permutation.
  apply (sublist_NoDup _ (Message.id <$> messages s)); [done|].
  apply fmap_sublist, sublist_filter.
Qed.

(** What the callbacks run one after the other add, message keys being
    unique: one marker of the user for each message that had none. *)
Lemma foldl_markStep_lacking now userId msgs rs n :
  NoDup (Message.id <$> msgs) →
  ∃ added,
    (foldl (markStep now userId) (rs, n) msgs).1 = rs ++ added ∧
    Forall (λ r, MessageRead.userId r = userId) added ∧
    MessageRead.messageId <$> added
      ≡ₚ Message.id <$> filter (lacking userId rs) msgs.
Proof.
  intros Hkeys.
  destruct (foldl_markStep now userId msgs rs n)
    as (added & Heq & Hall & Hnd & Hcov).
  exists added. split_and!; [done| |].
  - eapply Forall_impl; [exact Hall|]. simpl. tauto.
  - apply NoDup_Permutation; [done| |].
    + apply (sublist_NoDup _ (Message.id <$> msgs)); [done|].
      apply fmap_sublist, sublist_filter.
    + intros i. rewrite !list_elem_of_fmap. split.
      * intros (r & -> & Hr). rewrite Forall_forall in Hall.
        destruct (Hall r Hr) as (_ & m & Hm & Hid & Hlack).
        exists m. split; [done|]. by apply list_elem_of_filter.
      * intros (m & -> & [Hlack Hm]%list_elem_of_filter).
        specialize (Hcov m Hm). rewrite readMarkers_app in Hcov.
        unfold lacking in Hlack. rewrite Hlack in Hcov. simpl in Hcov.
        destruct (readMarkers (Message.id m) userId added) as [|r l] eqn:Hr;
          [done|].
        assert (r ∈ readMarkers (Message.id m) userId added) as Hin
          by (rewrite Hr; left).
        apply list_elem_of_filter in Hin as [[Hid _] Hin].
        by exists r.
Qed.

(** Message keys being unique, every complete overlapped run of
    [markAsRead] ends with the same read markers as the run of the
    callbacks one after the other, which is one of these runs. *)
Lemma markAsRead_any_schedule now conversationId userId s rs' :
  NoDup (Message.id <$> messages s) →
  overlappedRun now conversationId userId s rs' →
  markerPairs rs'
  ≡ₚ markerPairs
       (message_reads (ChatService.markAsRead now conversationId userId s).2).
Proof.
  intros Hkeys [n' Hrun].
  pose proof (NoDup_messagesOf conversationId s Hkeys) as Hnd.
  destruct (overlap_complete now userId (message_reads s) _ Hnd _ _ _ Hrun)
    as (added & -> & Hu & Hperm).
  destruct (foldl_markStep_lacking now userId (messagesOf conversationId s)
              (message_reads s) (nextId s) Hnd)
    as (added' & Heq & Hu' & Hperm').
  rewrite markAsRead_fold. simpl. rewrite Heq, !markerPairs_app.
  apply Permutation_app_head.
  rewrite (markerPairs_of_user userId added),
    (markerPairs_of_user userId added') by done.
  by rewrite Hperm, Hperm'.
Qed.

Lemma markAsRead_is_a_schedule now conversationId userId s :
  overlappedRun now conversationId userId s
    (message_reads (ChatService.markAsRead now conversationId userId s).2).
Proof.
  rewrite markAsRead_fold. simpl. eexists.
  apply (overlap_sequential now userId _ _ _ []).
Qed.

(** Message keys being unique, a complete overlapped run of a second
    [markAsRead] adds nothing to what a complete overlapped run of the
    first has left. *)
Lemma markAsRead_overlapped_idempotent now1 now2 conversationId userId s
    rs1 n1 rs2 :
  NoDup (Message.id <$> messages s) →
  overlappedRun now1 conversationId userId s rs1 →
  overlappedRun now2 conversationId userId (withReads rs1 n1 s) rs2 →
  rs2 = rs1.
Proof.
  intros Hkeys [n1' Hrun1] [n2' Hrun2].
  pose proof (NoDup_messagesOf conversationId s Hkeys) as Hnd.
  destruct (overlap_complete now1 userId (message_reads s) _ Hnd _ _ _ Hrun1)
    as (added1 & -> & Hu1 & Hperm1).
  change (messagesOf conversationId (withReads _ n1 s))
    with (messagesOf conversationId s) in Hrun2. simpl in Hrun2.
  destruct (overlap_complete now2 userId _ _ Hnd _ _ _ Hrun2)
    as (added2 & -> & Hu2 & Hperm2).
  rewrite filter_none in Hperm2.
  - apply Permutation_nil_r in Hperm2. apply fmap_nil_inv in Hperm2.
    by rewrite Hperm2, app_nil_r.
  - intros m Hm Hlack. unfold lacking in Hlack.
    rewrite readMarkers_app in Hlack. apply app_nil in Hlack as [Hl0 Hl1].
    assert (Message.id m ∈ MessageRead.messageId <$> added1) as Hin.
    { rewrite Hperm1. apply list_elem_of_fmap_2.
      by apply list_elem_of_filter. }
    apply list_elem_of_fmap in Hin as (r & Hid & Hr).
    rewrite Forall_forall in Hu1.
    refine (filter_nil_not_elem_of _ added1 r Hl1 _ Hr).
    split; [done|by apply Hu1].
Qed.

(** ** Message history *)

Lemma newerFirst_trans : Transitive newerFirst.
Proof. intros a b c. unfold newerFirst. lia. Qed.
Lemma newerFirst_total : Total newerFirst.
Proof. intros a b. unfold newerFirst. lia. Qed.

Lemma merge_sort_newerFirst (l : list Message.row) :
  StronglySorted newerFirst (merge_sort newerFirst l).
Proof.
  apply (@StronglySorted_merge_sort _ newerFirst _
           newerFirst_trans newerFirst_total).
Qed.

Lemma getConversationById_member conversationId userId s :
  (∃ c, c ∈ conversations s ∧ Conversation.id c = conversationId) →
  (conversationId, userId) ∈ conversation_participants s →
  ∃ e, ChatService.getConversationById conversationId userId s = (Ok e, s).
Proof.
  intros (c & Hc & Hid) Hin.
  unfold ChatService.getConversationById. run.
  destruct (findOne_elem
              (λ c', Conversation.id c' = conversationId ∧
                     (conversationId, userId) ∈ conversation_participants s)
              (conversations s) c Hc) as [c' ->]; [done|].
  simpl. eauto.
Qed.

Lemma getMessages_member conversationId userId page limit s :
  (∃ c, c ∈ conversations s ∧ Conversation.id c = conversationId) →
  (conversationId, userId) ∈ conversation_participants s →
  (1 ≤ page)%Z → (1 ≤ limit)%Z →
  let rows := merge_sort newerFirst (liveMessages conversationId s) in
  ChatService.getMessages conversationId userId page limit s
  = (Ok (reverse (ChatService.withRelations s <$>
                    take (Z.to_nat limit)
                      (drop (Z.to_nat ((page - 1) * limit)) rows)),
         length rows), s).
Proof.
  intros Hc Hin Hpage Hlimit rows.
  destruct (getConversationById_member _ _ _ Hc Hin) as [e He].
  unfold ChatService.getMessages, bind. rewrite He. cbv zeta.
  rewrite decide_False by nia. unfold query.
  rewrite decide_False by lia. done.
Qed.

Lemma columns_withRelations s (ms : list Message.row) :
  Message.columns <$> (ChatService.withRelations s <$> ms) = ms.
Proof. rewrite <-list_fmap_compose. apply list_fmap_id. Qed.

(** Three messages with different creation times, however the table
    stores them, come out of the query newest first. *)
Lemma merge_sort_three (l : list Message.row) m1 m2 m3 :
  l ≡ₚ [m1; m2; m3] →
  Message.createdAt m1 < Message.createdAt m2 →
  Message.createdAt m2 < Message.createdAt m3 →
  merge_sort newerFirst l = [m3; m2; m1].
Proof.
  intros Hperm H12 H23.
  apply (StronglySorted_unique_strong newerFirst).
  - intros x1 x2 Hx1 Hx2. unfold newerFirst. intros Hle1 Hle2.
    rewrite merge_sort_Permutation, Hperm in Hx1.
    set_unfold. destruct Hx1 as [->|[->|[->|[]]]];
      destruct Hx2 as [->|[->|[->|[]]]]; first [done | lia].
  - apply merge_sort_newerFirst.
  - repeat constructor; unfold newerFirst; lia.
  - rewrite merge_sort_Permutation, Hperm.
    apply NoDup_Permutation.
    + repeat constructor; set_unfold; intros H; intuition (subst; lia).
    + repeat constructor; set_unfold; intros H; intuition (subst; lia).
    + intros x. set_unfold. tauto.
Qed.

(** A sorted list cut in three: what is skipped, the window, the rest. *)
Lemma window_split {A} (k n : nat) (l : list A) :
  l = take k l ++ take n (drop k l) ++ drop n (drop k l).
Proof. by rewrite !take_drop. Qed.

(** C4.  For a requester that is a participant of the conversation:
    with three messages that are not deleted, of creation times
    [m1] < [m2] < [m3], page 1 with limit 2 is [m2; m3] and the total is 3;
    for any page and limit from 1 up, the total is the number of messages
    of the conversation that are not deleted, these split into the ones
    skipped (none newer than them is returned), the ones returned and the
    rest (none older than them is returned), the returned ones come
    oldest first and are stored messages of the conversation that are not
    deleted. *)
Theorem getMessages_newest_page conversationId userId s :
  (∃ c, c ∈ conversations s ∧ Conversation.id c = conversationId) →
  (conversationId, userId) ∈ conversation_participants s →
  (∀ m1 m2 m3,
     liveMessages conversationId s ≡ₚ [m1; m2; m3] →
     Message.createdAt m1 < Message.createdAt m2 →
     Message.createdAt m2 < Message.createdAt m3 →
     ChatService.getMessages conversationId userId 1 2 s
     = (Ok ([ChatService.withRelations s m2; ChatService.withRelations s m3],
            3), s)) ∧
  (∀ page limit : Z, (1 ≤ page)%Z → (1 ≤ limit)%Z →
     ∃ msgs total newer older,
       ChatService.getMessages conversationId userId page limit s
       = (Ok (msgs, total), s) ∧
       total = length (liveMessages conversationId s) ∧
       liveMessages conversationId s
         ≡ₚ newer ++ (Message.columns <$> msgs) ++ older ∧
       length newer = Z.to_nat ((page - 1) * limit) `min` total ∧
       length msgs
       = Z.to_nat limit `min` (total - Z.to_nat ((page - 1) * limit)) ∧
       StronglySorted olderFirst (Message.columns <$> msgs) ∧
       (∀ n r, n ∈ newer → r ∈ Message.columns <$> msgs → olderFirst r n) ∧
       (∀ o r, o ∈ older → r ∈ Message.columns <$> msgs → olderFirst o r) ∧
       Forall (λ r, r ∈ messages s ∧
                    Message.conversationId r = conversationId ∧
                    Message.isDeleted r = false)
         (Message.columns <$> msgs)).
Proof.
  intros Hc Hin. split.
  - intros m1 m2 m3 Hperm H12 H23.
    rewrite getMessages_member by done. cbv zeta.
    rewrite (merge_sort_three _ m1 m2 m3) by done. done.
  - intros page limit Hpage Hlimit.
    set (rows := merge_sort newerFirst (liveMessages conversationId s)).
    set (k := Z.to_nat ((page - 1) * limit)).
    set (n := Z.to_nat limit).
    pose proof (merge_sort_newerFirst (liveMessages conversationId s))
      as Hsorted. fold rows in Hsorted.
    assert (rows ≡ₚ liveMessages conversationId s) as Hperm
      by apply merge_sort_Permutation.
    rewrite (window_split k n rows) in Hsorted.
    apply StronglySorted_app in Hsorted as (Hnewer & _ & Hsorted).
    apply StronglySorted_app in Hsorted as (Holder & Hwindow & _).
    exists (reverse (ChatService.withRelations s <$> take n (drop k rows))),
      (length rows), (take k rows), (drop n (drop k rows)).
    rewrite fmap_reverse, columns_withRelations.
    split_and!.
    + by rewrite getMessages_member.
    + by rewrite Hperm.
    + rewrite reverse_Permutation, <-Hperm. by rewrite <-window_split.
    + rewrite length_take. done.
    + rewrite length_reverse, length_fmap, length_take, length_drop. done.
    + apply Sorted_StronglySorted.
      { intros a b c. unfold olderFirst. lia. }
      apply StronglySorted_Sorted in Hwindow.
      apply Sorted_reverse in Hwindow. done.
    + intros x r Hx Hr. rewrite elem_of_reverse in Hr.
      apply (Hnewer x r); [done|]. apply elem_of_app. by left.
    + intros x r Hx Hr. rewrite elem_of_reverse in Hr.
      by apply (Holder r x).
    + apply Forall_forall. intros r Hr. rewrite elem_of_reverse in Hr.
      assert (r ∈ rows) as Hrows.
      { eapply elem_of_sublist; [|apply sublist_drop].
        eapply elem_of_sublist; [exact Hr|apply sublist_take]. }
      rewrite Hperm in Hrows.
      apply list_elem_of_filter in Hrows as [[? ?] ?]. done.
Qed.

Lemma getMessages_newest_page_witness :
  messages Sample.chat = [Sample.hello; Sample.hi; Sample.howAreYou] ∧
  ChatService.getMessages 10 1 1 2 Sample.chat
  = (Ok ([ChatService.withRelations Sample.chat Sample.hi;
          ChatService.withRelations Sample.chat Sample.howAreYou], 3),
     Sample.chat) ∧
  ∃ msgs,
    (ChatService.getMessages 10 1 1 2 Sample.afterDelete).1 = Ok (msgs, 2) ∧
    Message.id <$> (Message.columns <$> msgs) = [11; 13].
Proof.
  split; [reflexivity|].
  split.
  - destruct (getMessages_newest_page 10 1 Sample.chat) as [Hthree _].
    + eexists. split; [apply list_elem_of_here|reflexivity].
    + apply (bool_decide_unpack _). vm_compute. exact I.
    + apply (Hthree Sample.hello Sample.hi Sample.howAreYou).
      * reflexivity.
      * vm_compute. lia.
      * vm_compute. lia.
  - destruct (getMessages_newest_page 10 1 Sample.afterDelete) as [_ Hpage].
    + eexists. split; [apply list_elem_of_here|reflexivity].
    + apply (bool_decide_unpack _). vm_compute. exact I.
    + destruct (Hpage 1%Z 2%Z) as (msgs & total & _ & _ & Hget & _);
        [lia..|].
      eexists. split; reflexivity.
Defined.

(** ** Presence *)

Lemma statusOf_updateStatus now userId status s u :
  findOne (λ x, User.id x = userId) (users s) = Some u →
  statusOf userId (UsersService.updateStatus now userId status s).2
  = Some status.
Proof.
  intros Hu. unfold statusOf, UsersService.updateStatus. run.
  rewrite (findOne_updateById User.id) by done. by rewrite Hu.
Qed.

(** A connection with a valid token of a stored user. *)
Lemma handleConnection_valid verify now client st token u :
  ChatGateway.handshakeToken client = Some token →
  verify token = Some (User.id u) →
  findOne (λ x, User.id x = User.id u) (users (ChatGateway.db st)) = Some u →
  let db1 :=
    (UsersService.updateStatus now (User.id u) ONLINE (ChatGateway.db st)).2 in
  ChatGateway.handleConnection verify now client st
  = (ChatGateway.mkSocket (ChatGateway.id client) (Some token)
       (Some (User.id u)) (Some u),
     ChatGateway.mkState
       (<[User.id u :=
            default ∅ (ChatGateway.connectedUsers st !! User.id u)
            ∪ {[ChatGateway.id client]}]> (ChatGateway.connectedUsers st))
       db1
       (ChatGateway.effects st ++
        [ChatGateway.UpdateStatus (User.id u) ONLINE] ++
        ((λ c, ChatGateway.JoinRoom (ChatGateway.id client)
                 (Conversation.id c))
           <$> (merge_sort recentFirst
                  (filter (λ c, (Conversation.id c, User.id u)
                                  ∈ conversation_participants db1)
                     (conversations db1)))) ++
        [ChatGateway.BroadcastEmit (ChatGateway.id client) "user:online"
           (User.id u)])).
Proof.
  intros Htoken Hverify Hu db1.
  unfold ChatGateway.handleConnection.
  rewrite Htoken, Hverify. unfold UsersService.findById. run.
  rewrite Hu. simpl. done.
Qed.

(** A disconnect that leaves the user other sockets touches neither the
    store nor the outside. *)
Lemma handleDisconnect_others now client st u sockets :
  ChatGateway.userId client = Some u →
  ChatGateway.connectedUsers st !! u = Some sockets →
  sockets ∖ {[ChatGateway.id client]} ≠ ∅ →
  ChatGateway.handleDisconnect now client st
  = ChatGateway.mkState
      (<[u := sockets ∖ {[ChatGateway.id client]}]>
         (ChatGateway.connectedUsers st))
      (ChatGateway.db st) (ChatGateway.effects st).
Proof.
  intros Hu Hs Hne. unfold ChatGateway.handleDisconnect.
  rewrite Hu, Hs. rewrite decide_False; [done|].
  intros Hsize. apply size_empty_inv in Hsize. by apply leibniz_equiv in Hsize.
Qed.

(** The disconnect of the last socket of the user. *)
Lemma handleDisconnect_last now client st u sockets :
  ChatGateway.userId client = Some u →
  ChatGateway.connectedUsers st !! u = Some sockets →
  sockets ∖ {[ChatGateway.id client]} = ∅ →
  ChatGateway.handleDisconnect now client st
  = ChatGateway.mkState
      (delete u (ChatGateway.connectedUsers st))
      (UsersService.updateStatus now u OFFLINE (ChatGateway.db st)).2
      (ChatGateway.effects st ++
       [ChatGateway.UpdateStatus u OFFLINE;
        ChatGateway.BroadcastEmit (ChatGateway.id client) "user:offline" u]).
Proof.
  intros Hu Hs Hempty. unfold ChatGateway.handleDisconnect.
  rewrite Hu, Hs, Hempty. rewrite decide_True by apply size_empty.
  by rewrite delete_insert_eq.
Qed.

Lemma offlineUpdates_app userId es es' :
  offlineUpdates userId (es ++ es')
  = offlineUpdates userId es + offlineUpdates userId es'.
Proof. unfold offlineUpdates. by rewrite filter_app, length_app. Qed.

Lemma offlineBroadcasts_app userId es es' :
  offlineBroadcasts userId (es ++ es')
  = offlineBroadcasts userId es + offlineBroadcasts userId es'.
Proof. unfold offlineBroadcasts. by rewrite filter_app, length_app. Qed.

(** A user with exactly two live sockets: the disconnect of one keeps the
    entry with the other socket and changes neither the store nor the
    effects; the disconnect of the other then removes the entry, sets the
    user offline in the store and broadcasts it, once each. *)
Lemma handleDisconnect_two_sockets now1 now2 client1 client2 u st :
  ChatGateway.userId client1 = Some u →
  ChatGateway.userId client2 = Some u →
  ChatGateway.id client1 ≠ ChatGateway.id client2 →
  ChatGateway.connectedUsers st !! u
  = Some {[ChatGateway.id client1; ChatGateway.id client2]} →
  let st1 := ChatGateway.handleDisconnect now1 client1 st in
  let st2 := ChatGateway.handleDisconnect now2 client2 st1 in
  ChatGateway.connectedUsers st1 !! u = Some {[ChatGateway.id client2]} ∧
  ChatGateway.db st1 = ChatGateway.db st ∧
  ChatGateway.effects st1 = ChatGateway.effects st ∧
  ChatGateway.connectedUsers st2 !! u = None ∧
  ChatGateway.db st2
  = (UsersService.updateStatus now2 u OFFLINE (ChatGateway.db st)).2 ∧
  ChatGateway.effects st2
  = ChatGateway.effects st ++
    [ChatGateway.UpdateStatus u OFFLINE;
     ChatGateway.BroadcastEmit (ChatGateway.id client2) "user:offline" u].
Proof.
  intros Hu1 Hu2 Hne Hs st1 st2.
  assert (({[ChatGateway.id client1; ChatGateway.id client2]} : gset string)
          ∖ {[ChatGateway.id client1]} = {[ChatGateway.id client2]}) as Hrest
    by set_solver.
  assert (st1 = ChatGateway.mkState
                  (<[u := {[ChatGateway.id client2]}]>
                     (ChatGateway.connectedUsers st))
                  (ChatGateway.db st) (ChatGateway.effects st)) as Hst1.
  { unfold st1. rewrite (handleDisconnect_others _ _ _ u _ Hu1 Hs).
    - by rewrite Hrest.
    - rewrite Hrest. set_solver. }
  assert (ChatGateway.connectedUsers st1 !! u
          = Some {[ChatGateway.id client2]}) as Hs1.
  { rewrite Hst1. simpl. apply lookup_insert_eq. }
  assert (st2 = ChatGateway.mkState
                  (delete u (ChatGateway.connectedUsers st1))
                  (UsersService.updateStatus now2 u OFFLINE
                     (ChatGateway.db st1)).2
                  (ChatGateway.effects st1 ++
                   [ChatGateway.UpdateStatus u OFFLINE;
                    ChatGateway.BroadcastEmit (ChatGateway.id client2)
                      "user:offline" u])) as Hst2.
  { unfold st2. apply (handleDisconnect_last _ _ _ u _ Hu2 Hs1). set_solver. }
  rewrite Hst2. simpl. rewrite Hst1. simpl.
  split_and!; try done.
  - apply lookup_insert_eq.
  - apply lookup_delete_eq.
Qed.

(** A stored user without a live socket connects from two sockets with
    valid tokens, then the two sockets disconnect, in either order. *)
Lemma two_connections_scenario
    verify now1 now2 now3 now4 socket1 socket2 token1 token2 u st :
  ChatGateway.handshakeToken socket1 = Some token1 →
  verify token1 = Some (User.id u) →
  ChatGateway.handshakeToken socket2 = Some token2 →
  verify token2 = Some (User.id u) →
  ChatGateway.id socket1 ≠ ChatGateway.id socket2 →
  findOne (λ x, User.id x = User.id u) (users (ChatGateway.db st)) = Some u →
  ChatGateway.connectedUsers st !! User.id u = None →
  ∃ client1 client2 st1 st2,
    ChatGateway.handleConnection verify now1 socket1 st = (client1, st1) ∧
    ChatGateway.handleConnection verify now2 socket2 st1 = (client2, st2) ∧
    ChatGateway.connectedUsers st2 !! User.id u
    = Some {[ChatGateway.id socket1; ChatGateway.id socket2]} ∧
    statusOf (User.id u) (ChatGateway.db st2) = Some ONLINE ∧
    ∀ first last,
      (first, last) = (client1, client2) ∨ (first, last) = (client2, client1) →
      let st3 := ChatGateway.handleDisconnect now3 first st2 in
      let st4 := ChatGateway.handleDisconnect now4 last st3 in
      ChatGateway.connectedUsers st3 !! User.id u
      = Some {[ChatGateway.id last]} ∧
      ChatGateway.db st3 = ChatGateway.db st2 ∧
      statusOf (User.id u) (ChatGateway.db st3) = Some ONLINE ∧
      ChatGateway.effects st3 = ChatGateway.effects st2 ∧
      ChatGateway.connectedUsers st4 !! User.id u = None ∧
      statusOf (User.id u) (ChatGateway.db st4) = Some OFFLINE ∧
      ChatGateway.effects st4
      = ChatGateway.effects st2 ++
        [ChatGateway.UpdateStatus (User.id u) OFFLINE;
         ChatGateway.BroadcastEmit (ChatGateway.id last) "user:offline"
           (User.id u)] ∧
      offlineUpdates (User.id u) (ChatGateway.effects st4)
      = offlineUpdates (User.id u) (ChatGateway.effects st2) + 1 ∧
      offlineBroadcasts (User.id u) (ChatGateway.effects st4)
      = offlineBroadcasts (User.id u) (ChatGateway.effects st2) + 1.
Proof.
  intros Htok1 Hver1 Htok2 Hver2 Hne Hu Hnone.
  pose proof (handleConnection_valid verify now1 socket1 st token1 u
                Htok1 Hver1 Hu) as H1.
  cbv zeta in H1.
  set (db1 := (UsersService.updateStatus now1 (User.id u) ONLINE
                 (ChatGateway.db st)).2) in *.
  set (client1 := ChatGateway.mkSocket _ _ _ _) in H1.
  set (st1 := ChatGateway.mkState _ _ _) in H1.
  set (u1 := User.mk (User.id u) (User.username u) ONLINE (Some now1)).
  assert (findOne (λ x, User.id x = User.id u1) (users (ChatGateway.db st1))
          = Some u1) as Hu1.
  { simpl. fold db1. unfold db1, UsersService.updateStatus. run.
    rewrite (findOne_updateById User.id) by done. by rewrite Hu. }
  pose proof (handleConnection_valid verify now2 socket2 st1 token2 u1
                Htok2 Hver2 Hu1) as H2.
  cbv zeta in H2.
  set (db2 := (UsersService.updateStatus now2 (User.id u1) ONLINE
                 (ChatGateway.db st1)).2) in *.
  set (client2 := ChatGateway.mkSocket _ _ _ _) in H2.
  set (st2 := ChatGateway.mkState _ _ _) in H2.
  assert (ChatGateway.connectedUsers st2 !! User.id u
          = Some {[ChatGateway.id socket1; ChatGateway.id socket2]}) as Hs2.
  { unfold st2. simpl. rewrite lookup_insert_eq, lookup_insert_eq, Hnone.
    simpl. f_equal. set_solver. }
  assert (statusOf (User.id u) (ChatGateway.db st2) = Some ONLINE) as Hon.
  { unfold st2. simpl. fold db2. unfold db2.
    by apply (statusOf_updateStatus _ _ _ _ u1). }
  assert (∃ u2, findOne (λ x, User.id x = User.id u)
                  (users (ChatGateway.db st2)) = Some u2) as [u2 Hu2].
  { unfold statusOf in Hon.
    destruct (findOne _ (users (ChatGateway.db st2))); [eauto|done]. }
  exists client1, client2, st1, st2.
  split_and!; [done..|].
  intros first last Horder st3 st4.
  assert (ChatGateway.userId first = Some (User.id u) ∧
          ChatGateway.userId last = Some (User.id u) ∧
          ChatGateway.id first ≠ ChatGateway.id last ∧
          ChatGateway.connectedUsers st2 !! User.id u
          = Some {[ChatGateway.id first; ChatGateway.id last]})
    as (Hf & Hl & Hfl & Hs).
  { destruct Horder as [[= -> ->]|[= -> ->]].
    - split_and!; [done..|exact Hs2].
    - split_and!; [done|done|by intros ?; apply Hne|].
      rewrite Hs2. f_equal. simpl. set_solver. }
  destruct (handleDisconnect_two_sockets now3 now4 first last (User.id u) st2
              Hf Hl Hfl Hs) as (H3s & H3d & H3e & H4s & H4d & H4e).
  fold st3 in H3s, H3d, H3e, H4s, H4d, H4e. fold st4 in H4s, H4d, H4e.
  split_and!; try done.
  - by rewrite H3d.
  - rewrite H4d. by apply (statusOf_updateStatus _ _ _ _ u2).
  - rewrite H4e, offlineUpdates_app. f_equal.
    unfold offlineUpdates. rewrite filter_cons_True by done.
    by rewrite filter_cons_False by done.
  - rewrite H4e, offlineBroadcasts_app. f_equal.
    unfold offlineBroadcasts. rewrite filter_cons_False by (simpl; tauto).
    by rewrite filter_cons_True by done.
Qed.

(** C5.  While another socket of the user stays live, a disconnect only
    takes the socket out of the user's entry: the store, hence the durable
    status, and the effects are untouched (no status write, no
    broadcast).  The disconnect of the user's last socket removes the
    entry altogether, leaves the durable status offline, and adds exactly
    one status write to offline and one "user:offline" broadcast.  So a
    stored user who connects from two sockets is online, stays online
    when one of them disconnects, and goes offline, once, when the other
    one does too. *)
Theorem presence_multi_device :
  (∀ now client st u sockets,
     ChatGateway.userId client = Some u →
     ChatGateway.connectedUsers st !! u = Some sockets →
     sockets ∖ {[ChatGateway.id client]} ≠ ∅ →
     let st' := ChatGateway.handleDisconnect now client st in
     ChatGateway.connectedUsers st' !! u
     = Some (sockets ∖ {[ChatGateway.id client]}) ∧
     ChatGateway.db st' = ChatGateway.db st ∧
     ChatGateway.effects st' = ChatGateway.effects st) ∧
  (∀ now client st u sockets,
     ChatGateway.userId client = Some u →
     ChatGateway.connectedUsers st !! u = Some sockets →
     sockets ∖ {[ChatGateway.id client]} = ∅ →
     let st' := ChatGateway.handleDisconnect now client st in
     ChatGateway.connectedUsers st' !! u = None ∧
     (is_Some (statusOf u (ChatGateway.db st)) →
      statusOf u (ChatGateway.db st') = Some OFFLINE) ∧
     ChatGateway.effects st'
     = ChatGateway.effects st ++
       [ChatGateway.UpdateStatus u OFFLINE;
        ChatGateway.BroadcastEmit (ChatGateway.id client) "user:offline" u] ∧
     offlineUpdates u (ChatGateway.effects st')
     = offlineUpdates u (ChatGateway.effects st) + 1 ∧
     offlineBroadcasts u (ChatGateway.effects st')
     = offlineBroadcasts u (ChatGateway.effects st) + 1) ∧
  (∀ verify now1 now2 now3 now4 socket1 socket2 token1 token2 u st,
     ChatGateway.handshakeToken socket1 = Some token1 →
     verify token1 = Some (User.id u) →
     ChatGateway.handshakeToken socket2 = Some token2 →
     verify token2 = Some (User.id u) →
     ChatGateway.id socket1 ≠ ChatGateway.id socket2 →
     findOne (λ x, User.id x = User.id u) (users (ChatGateway.db st))
     = Some u →
     ChatGateway.connectedUsers st !! User.id u = None →
     ∃ client1 client2 st1 st2,
       ChatGateway.handleConnection verify now1 socket1 st = (client1, st1) ∧
       ChatGateway.handleConnection verify now2 socket2 st1 = (client2, st2) ∧
       ChatGateway.connectedUsers st2 !! User.id u
       = Some {[ChatGateway.id socket1; ChatGateway.id socket2]} ∧
       statusOf (User.id u) (ChatGateway.db st2) = Some ONLINE ∧
       ∀ first last,
         (first, last) = (client1, client2)
         ∨ (first, last) = (client2, client1) →
         let st3 := ChatGateway.handleDisconnect now3 first st2 in
         let st4 := ChatGateway.handleDisconnect now4 last st3 in
         ChatGateway.connectedUsers st3 !! User.id u
         = Some {[ChatGateway.id last]} ∧
         statusOf (User.id u) (ChatGateway.db st3) = Some ONLINE ∧
         offlineUpdates (User.id u) (ChatGateway.effects st3)
         = offlineUpdates (User.id u) (ChatGateway.effects st2) ∧
         offlineBroadcasts (User.id u) (ChatGateway.effects st3)
         = offlineBroadcasts (User.id u) (ChatGateway.effects st2) ∧
         ChatGateway.connectedUsers st4 !! User.id u = None ∧
         statusOf (User.id u) (ChatGateway.db st4) = Some OFFLINE ∧
         offlineUpdates (User.id u) (ChatGateway.effects st4)
         = offlineUpdates (User.id u) (ChatGateway.effects st2) + 1 ∧
         offlineBroadcasts (User.id u) (ChatGateway.effects st4)
         = offlineBroadcasts (User.id u) (ChatGateway.effects st2) + 1).
Proof.
  split_and!.
  - intros now client st u sockets Hu Hs Hne st'. unfold st'.
    rewrite (handleDisconnect_others _ _ _ u sockets) by done. simpl.
    split_and!; [apply lookup_insert_eq|done..].
  - intros now client st u sockets Hu Hs Hlast st'. unfold st'.
    rewrite (handleDisconnect_last _ _ _ u sockets) by done. simpl.
    split_and!.
    + apply lookup_delete_eq.
    + unfold statusOf at 1. intros [x Hx].
      destruct (findOne _ (users (ChatGateway.db st))) as [u0|] eqn:Hu0;
        [|done].
      by apply (statusOf_updateStatus _ _ _ _ u0).
    + done.
    + rewrite offlineUpdates_app. f_equal.
      unfold offlineUpdates. rewrite filter_cons_True by done.
      by rewrite filter_cons_False by done.
    + rewrite offlineBroadcasts_app. f_equal.
      unfold offlineBroadcasts. rewrite filter_cons_False by (simpl; tauto).
      by rewrite filter_cons_True by done.
  - intros verify now1 now2 now3 now4 socket1 socket2 token1 token2 u st
      Htok1 Hver1 Htok2 Hver2 Hne Hu Hnone.
    destruct (two_connections_scenario verify now1 now2 now3 now4
                socket1 socket2 token1 token2 u st)
      as (client1 & client2 & st1 & st2 & H1 & H2 & Hs2 & Hon & Hd);
      [done..|].
    exists client1, client2, st1, st2. split_and!; [done..|].
    intros first last Horder.
    destruct (Hd first last Horder)
      as (H3s & H3d & H3on & H3e & H4s & H4off & H4e & H4u & H4b).
    cbv zeta. split_and!; try done; by rewrite H3e.
Qed.

Lemma presence_multi_device_witness :
  let verify := λ token : string,
    if decide (token = "token-of-alice") then Some 1 else None in
  let st := ChatGateway.mkState ∅ Sample.chat [] in
  let socket1 := ChatGateway.mkSocket "s1" (Some "token-of-alice") None None in
  let socket2 := ChatGateway.mkSocket "s2" (Some "token-of-alice") None None in
  ∃ client1 client2 st1 st2,
    ChatGateway.handleConnection verify 1 socket1 st = (client1, st1) ∧
    ChatGateway.handleConnection verify 2 socket2 st1 = (client2, st2) ∧
    let st3 := ChatGateway.handleDisconnect 3 client1 st2 in
    let st4 := ChatGateway.handleDisconnect 4 client2 st3 in
    statusOf 1 (ChatGateway.db st3) = Some ONLINE ∧
    statusOf 1 (ChatGateway.db st4) = Some OFFLINE ∧
    ChatGateway.connectedUsers st4 !! 1 = None.
Proof.
  intros verify st socket1 socket2.
  destruct presence_multi_device as (_ & _ & Hscenario).
  destruct (Hscenario verify 1 2 3 4 socket1 socket2
              "token-of-alice" "token-of-alice" Sample.alice st)
    as (client1 & client2 & st1 & st2 & H1 & H2 & _ & _ & Hd);
    [reflexivity|reflexivity|reflexivity|reflexivity| |reflexivity
    |reflexivity|].
  { simpl. intros [=]. }
  exists client1, client2, st1, st2. split_and!; [done..|].
  destruct (Hd client1 client2) as (_ & Hon & _ & _ & Hgone & Hoff & _);
    [by left|].
  done.
Defined.

(** ** Failure leaves the store as it was *)

Section atomicity.
Context {A B : Type}.

Lemma readOnly_ret (a : A) : readOnly (ret a).
Proof. done. Qed.
Lemma readOnly_throw e : readOnly (@throw A e).
Proof. done. Qed.
Lemma readOnly_query (f : Store → A) : readOnly (query f).
Proof. done. Qed.
Lemma readOnly_bind (m : Svc A) (k : A → Svc B) :
  readOnly m → (∀ a, readOnly (k a)) → readOnly (bind m k).
Proof.
  intros Hm Hk s. unfold bind. specialize (Hm s).
  destruct (m s) as [[a|e] s']; simpl in *; subst; [apply Hk|done].
Qed.

Lemma noThrow_ret (a : A) : noThrow (ret a).
Proof. intros s. simpl. tauto. Qed.
Lemma noThrow_query (f : Store → A) : noThrow (query f).
Proof. intros s. simpl. tauto. Qed.
Lemma noThrow_bind (m : Svc A) (k : A → Svc B) :
  noThrow m → (∀ a, noThrow (k a)) → noThrow (bind m k).
Proof.
  intros Hm Hk s. unfold bind. specialize (Hm s).
  destruct (m s) as [[a|e] s']; simpl in *; [apply Hk|tauto].
Qed.

Lemma atomic_readOnly (m : Svc A) : readOnly m → atomic m.
Proof. intros Hm s _. apply Hm. Qed.
Lemma atomic_noThrow (m : Svc A) : noThrow m → atomic m.
Proof. intros Hm s Hs. by destruct (Hm s). Qed.
(** Checks first, writes after. *)
Lemma atomic_bind (m : Svc A) (k : A → Svc B) :
  readOnly m → (∀ a, atomic (k a)) → atomic (bind m k).
Proof.
  intros Hm Hk s. unfold bind. specialize (Hm s).
  destruct (m s) as [[a|e] s']; simpl in *; subst; [apply Hk|done].
Qed.
End atomicity.

Lemma noThrow_write f : noThrow (write f).
Proof. intros s. simpl. tauto. Qed.
Lemma noThrow_generateId : noThrow generateId.
Proof. intros s. simpl. tauto. Qed.
Lemma noThrow_commit : noThrow commit.
Proof. intros s. simpl. tauto. Qed.
Lemma noThrow_commitIfChanged stored : noThrow (commitIfChanged stored).
Proof. intros s. unfold commitIfChanged. case_decide; simpl; tauto. Qed.
Lemma atomic_void {A} (m : Svc A) : atomic m → atomic (void m).
Proof.
  intros Hm s. unfold void, bind. specialize (Hm s).
  destruct (m s) as [[a|e] s']; simpl in *; [tauto|done].
Qed.

(** Down the structure of a computation built from reads. *)
Ltac read_only :=
  repeat first
    [ apply readOnly_ret | apply readOnly_throw | apply readOnly_query
    | apply readOnly_bind; [|intros ?]
    | progress cbv beta
    | match goal with
      | |- readOnly (match ?x with _ => _ end) => destruct x
      | |- readOnly (if ?x then _ else _) => destruct x
      end ].

(** Down the structure of a computation built from writes. *)
Ltac no_throw :=
  repeat first
    [ apply noThrow_ret | apply noThrow_query | apply noThrow_commit
    | apply noThrow_commitIfChanged
    | apply noThrow_write | apply noThrow_generateId
    | apply noThrow_bind; [|intros ?]
    | progress cbv beta
    | match goal with
      | |- noThrow (match ?x with _ => _ end) => destruct x
      | |- noThrow (if ?x then _ else _) => destruct x
      end ].

Lemma readOnly_getConversationById conversationId userId :
  readOnly (ChatService.getConversationById conversationId userId).
Proof. unfold ChatService.getConversationById. read_only. Qed.

Lemma readOnly_isUserAdmin conversationId userId :
  readOnly (ChatService.isUserAdmin conversationId userId).
Proof. unfold ChatService.isUserAdmin. read_only. Qed.

Lemma readOnly_findDirectConversation userId1 userId2 :
  readOnly (ChatService.findDirectConversation userId1 userId2).
Proof. unfold ChatService.findDirectConversation. read_only. Qed.

Lemma noThrow_saveConversation c : noThrow (ChatService.saveConversation c).
Proof. unfold ChatService.saveConversation. no_throw. Qed.

(** Through a chain of checks: every check only reads, and what follows
    the last check cannot throw. *)
Ltac checks_then_writes :=
  repeat first
    [ apply atomic_void
    | apply atomic_bind;
        [ first [ apply readOnly_getConversationById
                | apply readOnly_isUserAdmin
                | apply readOnly_findDirectConversation
                | solve [read_only] ]
        | intros ? ]
    | solve [apply atomic_readOnly; read_only]
    | solve [apply atomic_noThrow; no_throw]
    | solve [apply atomic_noThrow, noThrow_bind;
               [apply noThrow_saveConversation | intros ?; no_throw]]
    | progress cbv beta
    | match goal with
      | |- atomic (match ?x with _ => _ end) => destruct x
      | |- atomic (if ?x then _ else _) => destruct x
      end ].


(** ** The repository writes of a call *)

Section writes.
Context {A B : Type}.

End writes.







(** * The other methods of the service and the event handlers *)

Lemma keysSound_team : keysSound Sample.team.
Proof.
  constructor; apply (bool_decide_unpack _); vm_compute; exact I.
Qed.
Lemma keysSound_club : keysSound Sample.club.
Proof.
  constructor; apply (bool_decide_unpack _); vm_compute; exact I.
Qed.
Lemma keysSound_busy : keysSound Sample.busy.
Proof.
  constructor; apply (bool_decide_unpack _); vm_compute; exact I.
Qed.

Lemma isUserAdmin_spec conversationId userId s :
  ChatService.isUserAdmin conversationId userId s
  = (Ok (bool_decide (isAdminOf conversationId userId s)), s).
Proof.
  unfold ChatService.isUserAdmin, query. do 2 f_equal.
  apply bool_decide_ext. unfold isAdminOf. rewrite Exists_exists.
  split.
  - intros [a Ha]. apply findOne_Some in Ha as [? ?]. by exists a.
  - intros (a & Ha & HP). by eapply findOne_elem.
Qed.

(** [deleteMessage] once the message is found. *)
Lemma deleteMessage_found now userId s m :
  NoDup (Message.id <$> messages s) → m ∈ messages s →
  ChatService.deleteMessage now (Message.id m) userId s
  = if negb (bool_decide (Message.senderId m = userId))
       && negb (bool_decide (isAdminOf (Message.conversationId m) userId s))
    then (Thrown (ForbiddenException "You can only delete your own messages"),
          s)
    else (Ok tt,
          committed
            (setMessages
               (updateById Message.id (Message.id m) (Message.setDeleted now))
               s)).
Proof.
  intros Hnd Hm.
  assert (findOne (λ x, Message.id x = Message.id m) (messages s) = Some m)
    as Hfound by (by apply (findOne_key Message.id)).
  unfold ChatService.deleteMessage. unfold bind at 1.
  unfold query at 1. rewrite Hfound. cbv beta iota zeta.
  unfold bind at 1. rewrite isUserAdmin_spec.
  by destruct (negb _ && negb _).
Qed.



Lemma filter_updateById {A} (key : A → Id) (P : A → Prop)
    `{!∀ x, Decision (P x)} (i : Id) (patch : A → A) (l : list A) :
  (∀ x, x ∈ l → key x = i → ¬ P (patch x)) →
  filter P (updateById key i patch l) = filter (λ x, key x ≠ i) (filter P l).
Proof.
  unfold updateById. induction l as [|x l IH]; intros Hpatch; [done|].
  rewrite fmap_cons, !filter_cons.
  rewrite IH by (intros y Hy; apply Hpatch; by right).
  destruct (decide (key x = i)) as [Hx|Hx].
  - rewrite decide_False by (apply Hpatch; [left|done]).
    destruct (decide (P x)); [|done].
    by rewrite filter_cons_False by (intros Hne; by apply Hne).
  - destruct (decide (P x)); [|done]. by rewrite filter_cons_True.
Qed.

Lemma length_filter_other_key {A} (key : A → Id) (m : A) (l : list A) :
  NoDup (key <$> l) → m ∈ l →
  S (length (filter (λ x, key x ≠ key m) l)) = length l.
Proof.
  induction l as [|x l IH]; intros Hnd Hm; [by apply elem_of_nil in Hm|].
  simpl in Hnd. apply NoDup_cons in Hnd as [Hx Hnd].
  rewrite filter_cons. apply elem_of_cons in Hm as [<-|Hm].
  - rewrite decide_False by (intros Hne; by apply Hne). simpl. f_equal.
    f_equal. apply filter_all. intros y Hy Heq. destruct Hx.
    rewrite <-Heq. by apply list_elem_of_fmap_2.
  - rewrite decide_True.
    + simpl. f_equal. by apply IH.
    + intros Heq. destruct Hx. rewrite Heq. by apply list_elem_of_fmap_2.
Qed.

(** X10.  Once a message that was not deleted has been deleted, the
    history of its conversation no longer has it: whatever page and limit
    from 1 up a participant asks for, the total is one less than the
    number of messages that were not deleted before, and no message
    returned has the key of the deleted one. *)
Theorem deleteMessage_then_getMessages
    now userId reader page limit s m :
  keysSound s →
  m ∈ messages s → Message.isDeleted m = false →
  (∃ c, c ∈ conversations s ∧ Conversation.id c = Message.conversationId m) →
  isParticipant (Message.conversationId m) reader s →
  (1 ≤ page)%Z → (1 ≤ limit)%Z →
  (ChatService.deleteMessage now (Message.id m) userId s).1 = Ok tt →
  let s' := (ChatService.deleteMessage now (Message.id m) userId s).2 in
  ∃ found total,
    ChatService.getMessages (Message.conversationId m) reader page limit s'
    = (Ok (found, total), s') ∧
    S total = length (liveMessages (Message.conversationId m) s) ∧
    Forall (λ x, Message.id (Message.columns x) ≠ Message.id m ∧
                 Message.columns x ∈ liveMessages (Message.conversationId m) s)
      found.
Proof.
  intros Hs Hm Hlive Hc Hin Hpage Hlimit Hok s'.
  pose proof (messages_keyed s Hs) as Hnd.
  unfold s'. clear s'. revert Hok.
  rewrite deleteMessage_found by done.
  destruct (negb _ && negb _); [done|]. intros _. cbn [snd].
  set (s' := committed _).
  assert (liveMessages (Message.conversationId m) s'
          = filter (λ x, Message.id x ≠ Message.id m)
              (liveMessages (Message.conversationId m) s)) as Hlive'.
  { unfold liveMessages, s'. simpl. apply filter_updateById.
    intros x _ _ [_ Hx]. done. }
  eexists _, _. split; [by apply getMessages_member|]. split.
  - rewrite (Permutation_length (merge_sort_Permutation _ _)), Hlive'.
    apply (length_filter_other_key Message.id).
    + apply (sublist_NoDup _ (Message.id <$> messages s)); [done|].
      apply fmap_sublist, sublist_filter.
    + apply list_elem_of_filter. done.
  - apply Forall_forall. intros x Hx.
    apply elem_of_reverse, list_elem_of_fmap in Hx as (y & -> & Hy). simpl.
    assert (y ∈ merge_sort newerFirst
                  (liveMessages (Message.conversationId m) s')) as Hy'.
    { eapply elem_of_sublist; [exact Hy|].
      etrans; [apply sublist_take|apply sublist_drop]. }
    rewrite merge_sort_Permutation, Hlive' in Hy'.
    by apply list_elem_of_filter in Hy'.
Qed.

Lemma deleteMessage_then_getMessages_witness :
  ∃ found,
    ChatService.getMessages 10 1 1 50
      (ChatService.deleteMessage 104 12 2 Sample.chat).2
    = (Ok (found, 2), (ChatService.deleteMessage 104 12 2 Sample.chat).2) ∧
    Forall (λ x, Message.id (Message.columns x) ≠ 12) found.
Proof.
  destruct (deleteMessage_then_getMessages 104 2 1 1 50 Sample.chat Sample.hi
              keysSound_chat)
    as (found & total & Hget & Htotal & Hfound);
    [decided|reflexivity| |decided|lia|lia|reflexivity|].
  { eexists. split; [apply list_elem_of_here|reflexivity]. }
  exists found. injection Htotal as ->. split; [exact Hget|].
  eapply Forall_impl; [exact Hfound|]. by intros x [? _].
Defined.

(** X30.  The bounds of the page window, for a participant of a stored
    conversation.  The call never writes.  It throws exactly when the
    limit is negative or when the page is below 1 with a limit above 0:
    the query then carries a negative LIMIT or OFFSET and the database
    rejects it.  A limit of 0 is no limit: whatever the page, every
    message of the conversation that is not deleted comes back, oldest
    first. *)
Theorem getMessages_window_bounds conversationId userId page limit s :
  (∃ c, c ∈ conversations s ∧ Conversation.id c = conversationId) →
  isParticipant conversationId userId s →
  let r := ChatService.getMessages conversationId userId page limit s in
  r.2 = s ∧
  (isThrown r.1 ↔ (limit < 0 ∨ (0 < limit ∧ page < 1))%Z) ∧
  (isThrown r.1 → r.1 = Thrown (QueryFailedError NegativeRowCount)) ∧
  (limit = 0%Z →
   ∃ found,
     r.1 = Ok (found, length (liveMessages conversationId s)) ∧
     Message.columns <$> found ≡ₚ liveMessages conversationId s ∧
     StronglySorted olderFirst (Message.columns <$> found)).
Proof.
  intros Hc Hin r. unfold r.
  destruct (getConversationById_member _ _ _ Hc Hin) as [e He].
  unfold ChatService.getMessages, bind. rewrite He. cbv zeta.
  case_decide as Hok.
  - split_and!; [done| |done|].
    + split; [intros _|done]. destruct Hok as [Hskip|?]; [|by left].
      destruct (decide (limit < 0)%Z); [by left|]. right.
      assert (limit ≠ 0%Z) by (intros ->; lia).
      split; [lia|]. destruct (decide (page < 1)%Z); [done|].
      assert (0 ≤ (page - 1) * limit)%Z by (apply Z.mul_nonneg_nonneg; lia).
      lia.
    + intros ->. lia.
  - unfold query, ret. cbn [fst snd].
    split_and!; [done| |done|].
    + split; [done|]. intros Hneg. destruct Hok.
      destruct Hneg as [?|[? ?]]; [by right|left].
      apply Z.mul_neg_pos; lia.
    + intros ->. rewrite decide_True by done.
      fold (liveMessages conversationId s).
      eexists. split_and!.
      * by rewrite (Permutation_length (merge_sort_Permutation _ _)).
      * rewrite fmap_reverse, columns_withRelations, reverse_Permutation.
        apply merge_sort_Permutation.
      * rewrite fmap_reverse, columns_withRelations.
        apply Sorted_StronglySorted.
        { intros a b c. unfold olderFirst. lia. }
        apply Sorted_reverse, StronglySorted_Sorted, merge_sort_newerFirst.
Qed.

Lemma getMessages_window_bounds_witness :
  (∃ found,
     ChatService.getMessages 10 1 7 0 Sample.afterDelete
     = (Ok (found, 2), Sample.afterDelete) ∧
     Message.id <$> (Message.columns <$> found) = [11; 13]) ∧
  ChatService.getMessages 10 1 0 50 Sample.afterDelete
  = (Thrown (QueryFailedError NegativeRowCount), Sample.afterDelete) ∧
  ChatService.getMessages 10 1 1 (-1) Sample.afterDelete
  = (Thrown (QueryFailedError NegativeRowCount), Sample.afterDelete).
Proof.
  assert (∃ c, c ∈ conversations Sample.afterDelete ∧ Conversation.id c = 10)
    as Hc.
  { eexists. split; [apply list_elem_of_here|reflexivity]. }
  assert (isParticipant 10 1 Sample.afterDelete) as Hin by decided.
  pose proof (getMessages_window_bounds 10 1 7 0 Sample.afterDelete Hc Hin)
    as (Hsame0 & _ & _ & Hall).
  pose proof (getMessages_window_bounds 10 1 0 50 Sample.afterDelete Hc Hin)
    as (Hsame1 & Hiff1 & Hwhich1 & _).
  pose proof (getMessages_window_bounds 10 1 1 (-1) Sample.afterDelete Hc Hin)
    as (Hsame2 & Hiff2 & Hwhich2 & _).
  split_and!.
  - destruct (Hall eq_refl) as (found & Hget & _).
    exists found. split; [|by injection Hget as <-].
    apply injective_projections; [exact Hget|exact Hsame0].
  - apply injective_projections; [|exact Hsame1].
    apply Hwhich1, Hiff1. lia.
  - apply injective_projections; [|exact Hsame2].
    apply Hwhich2, Hiff2. lia.
Defined.

(** ** Creating a conversation *)

(** As many users are found as ids were asked for exactly when every id
    asked for is the key of a user. *)
Lemma participants_found (us : list User.t) (ids : list Id) :
  NoDup (User.id <$> us) → NoDup ids →
  length (filter (λ u, User.id u ∈ ids) us) = length ids
  ↔ ∀ x, x ∈ ids → x ∈ User.id <$> us.
Proof.
  intros Hus Hids.
  set (ps := filter (λ u, User.id u ∈ ids) us).
  assert (NoDup (User.id <$> ps)) as Hps by (by apply NoDup_users_filter).
  assert (∀ x, x ∈ User.id <$> ps → x ∈ ids) as Hsub.
  { intros x (u & -> & Hu)%list_elem_of_fmap.
    by apply list_elem_of_filter in Hu as [? _]. }
  rewrite <-(length_fmap User.id ps). split.
  - intros Hlen x Hx.
    assert (User.id <$> ps ≡ₚ ids) as Hperm.
    { apply submseteq_length_Permutation; [by apply NoDup_submseteq|lia]. }
    rewrite <-Hperm in Hx.
    apply list_elem_of_fmap in Hx as (u & -> & Hu).
    apply list_elem_of_filter in Hu as [_ Hu]. by apply list_elem_of_fmap_2.
  - intros Hall. apply Permutation_length, NoDup_Permutation; [done..|].
    intros x. split; [apply Hsub|]. intros Hx.
    specialize (Hall x Hx). apply list_elem_of_fmap in Hall as (u & -> & Hu).
    apply list_elem_of_fmap_2, list_elem_of_filter. done.
Qed.

Lemma participantIdsOf_fresh (n : Id) (ps : list User.t) (jt : list (Id * Id)) :
  Forall (λ p, p.1 < n) jt →
  snd <$> filter (λ p, p.1 = n) (jt ++ ((λ u, (n, User.id u)) <$> ps))
  = User.id <$> ps.
Proof.
  intros Hjt. rewrite filter_app.
  rewrite (filter_none (λ p : Id * Id, p.1 = n) jt).
  - simpl. rewrite filter_all.
    + rewrite <-list_fmap_compose. done.
    + intros p (u & -> & _)%list_elem_of_fmap. done.
  - rewrite Forall_forall in Hjt. intros p Hp Heq.
    specialize (Hjt p Hp). lia.
Qed.

Lemma participantIdsOf_other (n cid : Id) (ps : list User.t)
    (jt : list (Id * Id)) :
  cid ≠ n →
  snd <$> filter (λ p, p.1 = cid) (jt ++ ((λ u, (n, User.id u)) <$> ps))
  = snd <$> filter (λ p, p.1 = cid) jt.
Proof.
  intros Hne. rewrite filter_app.
  rewrite (filter_none (λ p : Id * Id, p.1 = cid) (_ <$> ps)).
  - by rewrite app_nil_r.
  - intros p (u & -> & _)%list_elem_of_fmap. simpl. congruence.
Qed.

(** X1.  A creator or participant id that is the key of no user makes
    the call fail with NotFound and leaves the store as it is, and
    nothing else makes it fail. *)
Theorem createConversation_unknown_user now userId dto s :
  keysSound s →
  let r := ChatService.createConversation now userId dto s in
  (isThrown r.1
   ↔ ∃ x, x ∈ userId :: cc_participantIds dto ∧ x ∉ User.id <$> users s) ∧
  (isThrown r.1 →
   r = (Thrown (NotFoundException "One or more participants not found"), s)).
Proof.
  intros Hs r.
  pose proof (participants_found (users s)
                (uniq (userId :: cc_participantIds dto))
                (users_keyed s Hs) (NoDup_uniq _)) as Hfound.
  assert ((∃ x, x ∈ userId :: cc_participantIds dto ∧
                x ∉ User.id <$> users s)
          ↔ length (filter (λ u, User.id u
                                 ∈ uniq (userId :: cc_participantIds dto))
                      (users s))
            ≠ length (uniq (userId :: cc_participantIds dto))) as ->.
  { rewrite Hfound. split.
    - intros (x & Hx & Hout) Hall. apply Hout, Hall. by apply elem_of_uniq.
    - intros Hnot.
      destruct (decide (Exists (λ x, x ∉ User.id <$> users s)
                          (userId :: cc_participantIds dto))) as [Hex|Hex].
      + apply Exists_exists in Hex. done.
      + destruct Hnot. intros x Hx. apply (proj1 (elem_of_uniq _ _)) in Hx.
        apply not_Exists_Forall in Hex; [|apply _].
        rewrite Forall_forall in Hex. specialize (Hex x Hx). simpl in Hex.
        by apply dec_stable. }
  destruct (decide (length (filter (λ u, User.id u
                             ∈ uniq (userId :: cc_participantIds dto))
                          (users s))
                    ≠ length (uniq (userId :: cc_participantIds dto))))
    as [Hne|Heq].
  - assert (r = (Thrown (NotFoundException
                           "One or more participants not found"), s)) as ->.
    { unfold r, ChatService.createConversation. cbv zeta.
      unfold bind at 1. unfold query at 1. cbv beta iota.
      by rewrite decide_True. }
    simpl. tauto.
  - assert (¬ isThrown r.1) as Hok; [|tauto].
    unfold r, ChatService.createConversation. cbv zeta.
    unfold bind at 1. unfold query at 1. cbv beta iota.
    rewrite decide_False by done.
    match goal with |- ¬ isThrown (?m s).1 =>
      cut (noThrow m); [intros Hm; apply Hm|] end.
    unfold ChatService.findDirectConversation,
      ChatService.insertConversation, ChatService.insertAdmin.
    no_throw.
Qed.

Lemma createConversation_unknown_user_witness :
  ChatService.createConversation 100 1 (Sample.directWith [7])
    Sample.registered
  = (Thrown (NotFoundException "One or more participants not found"),
     Sample.registered) ∧
  ¬ isThrown
      (ChatService.createConversation 100 1 (Sample.directWith [2])
         Sample.registered).1.
Proof.
  pose proof (createConversation_unknown_user 100 1 (Sample.directWith [7])
                Sample.registered keysSound_registered) as [Hiff Hthrown].
  pose proof (createConversation_unknown_user 100 1 (Sample.directWith [2])
                Sample.registered keysSound_registered) as [Hiff' _].
  split.
  - apply Hthrown, Hiff. exists 7. split; [decided|decided].
  - rewrite Hiff'. intros (x & Hx & Hout). revert Hout. simpl in Hx.
    rewrite !elem_of_cons, elem_of_nil in Hx.
    destruct Hx as [->|[->|[]]]; intros Hout; apply Hout; decided.
Defined.


Lemma createConversation_inserts now userId dto s :
  let all := uniq (userId :: cc_participantIds dto) in
  let ps := filter (λ u, User.id u ∈ all) (users s) in
  let c := Conversation.mkRow (nextId s) (cc_name dto) (cc_type dto)
             (cc_description dto) None (default false (cc_isPrivate dto))
             (Some userId) (Some now) in
  length ps = length all →
  cc_type dto ≠ DIRECT ∨ length all ≠ 2 →
  ChatService.createConversation now userId dto s
  = (Ok (Conversation.mk c (Some ps)),
     if decide (cc_type dto = DIRECT) then withDirect c ps s
     else withGroup now userId c ps s).
Proof.
  intros all ps c Hlen Hnew.
  unfold ChatService.createConversation. cbv zeta.
  unfold bind at 1. unfold query at 1. cbv beta iota.
  rewrite decide_False by (intros H; by apply H).
  assert ((match uniq (userId :: cc_participantIds dto) with
           | [id0; id1] =>
               if decide (cc_type dto = DIRECT)
               then ChatService.findDirectConversation id0 id1
               else ret None
           | _ => ret None
           end) = ret None) as ->.
  { fold all. destruct Hnew as [Htype|Hall].
    - destruct all as [|? [|? [|]]]; try done. by rewrite decide_False.
    - by destruct all as [|? [|? [|]]]. }
  unfold ChatService.insertConversation, ChatService.insertAdmin. run.
  destruct (decide (cc_type dto = DIRECT)) as [Htype|Htype].
  - rewrite decide_False by (intros H; by apply H). done.
  - rewrite decide_True by done. done.
Qed.

(** X2.  With every user known, a conversation that is not direct, or one
    that does not have exactly two distinct users, is created whatever the
    store holds already: it gets a key no conversation has, the fields of
    the request, the creator and the time of the call; its participants
    are the creator and the users asked for, each once; and its creator
    becomes admin unless the type is direct. *)
Theorem createConversation_new now userId dto s :
  keysSound s →
  (∀ x, x ∈ userId :: cc_participantIds dto → x ∈ User.id <$> users s) →
  cc_type dto ≠ DIRECT ∨ length (uniq (userId :: cc_participantIds dto)) ≠ 2 →
  ∃ c s',
    ChatService.createConversation now userId dto s = (Ok c, s') ∧
    Conversation.columns c
    = Conversation.mkRow (nextId s) (cc_name dto) (cc_type dto)
        (cc_description dto) None (default false (cc_isPrivate dto))
        (Some userId) (Some now) ∧
    (nextId s ∉ Conversation.id <$> conversations s) ∧
    conversations s' = conversations s ++ [Conversation.columns c] ∧
    NoDup (participantIdsOf (nextId s) s') ∧
    (∀ x, x ∈ participantIdsOf (nextId s) s'
          ↔ x ∈ userId :: cc_participantIds dto) ∧
    (∀ cid, cid ≠ nextId s →
            participantIdsOf cid s' = participantIdsOf cid s) ∧
    (cc_type dto = DIRECT → conversation_admins s' = conversation_admins s) ∧
    (cc_type dto ≠ DIRECT →
     conversation_admins s'
     = conversation_admins s
       ++ [ConversationAdmin.mk (S (nextId s)) (nextId s) userId now]).
Proof.
  intros Hs Hall Hnew.
  set (all := uniq (userId :: cc_participantIds dto)) in *.
  set (ps := filter (λ u, User.id u ∈ all) (users s)).
  assert (length ps = length all) as Hlen.
  { apply participants_found; [apply Hs|apply NoDup_uniq|].
    intros x Hx. apply Hall. by apply elem_of_uniq. }
  rewrite createConversation_inserts by done. fold all ps.
  eexists _, _. split; [done|]. cbn [Conversation.columns].
  assert (∀ s', conversation_participants s'
                = conversation_participants s
                  ++ ((λ u, (nextId s, User.id u)) <$> ps) →
          NoDup (participantIdsOf (nextId s) s') ∧
          (∀ x, x ∈ participantIdsOf (nextId s) s'
                ↔ x ∈ userId :: cc_participantIds dto) ∧
          (∀ cid, cid ≠ nextId s →
                  participantIdsOf cid s' = participantIdsOf cid s))
    as Hjoin.
  { intros s' Hs'. unfold participantIdsOf. rewrite Hs'.
    rewrite participantIdsOf_fresh by apply Hs. split_and!.
    - apply NoDup_users_filter, Hs.
    - intros x. rewrite <-(elem_of_uniq (userId :: _)). fold all.
      rewrite list_elem_of_fmap. split.
      + intros (u & -> & Hu). by apply list_elem_of_filter in Hu as [? _].
      + intros Hx. assert (x ∈ User.id <$> users s) as Hu.
        { apply Hall. by apply elem_of_uniq. }
        apply list_elem_of_fmap in Hu as (u & -> & Hu).
        exists u. split; [done|]. by apply list_elem_of_filter.
    - intros cid Hne. by apply participantIdsOf_other. }
  split_and!; [done| |..].
  - intros (c & Hid & Hc)%list_elem_of_fmap.
    pose proof (conversations_known s Hs) as Hknown.
    rewrite Forall_forall in Hknown. specialize (Hknown c Hc). lia.
  - by destruct (decide (cc_type dto = DIRECT)).
  - apply Hjoin. by destruct (decide (cc_type dto = DIRECT)).
  - apply Hjoin. by destruct (decide (cc_type dto = DIRECT)).
  - apply Hjoin. by destruct (decide (cc_type dto = DIRECT)).
  - intros Htype. by rewrite decide_True.
  - intros Htype. by rewrite decide_False.
Qed.

Lemma createConversation_new_witness :
  ∃ c s',
    ChatService.createConversation 200 1 (Sample.groupWith "team" [2; 3])
      Sample.team = (Ok c, s') ∧
    Conversation.id (Conversation.columns c) = 13 ∧
    Conversation.name <$> conversations s' = [Some "team"; Some "team"] ∧
    conversation_admins s'
    = conversation_admins Sample.team ++ [ConversationAdmin.mk 14 13 1 200].
Proof.
  destruct (createConversation_new 200 1 (Sample.groupWith "team" [2; 3])
              Sample.team keysSound_team)
    as (c & s' & Hcall & Hcols & _ & Hconvs & _ & _ & _ & _ & Hadmin).
  - intros x Hx. simpl in Hx. rewrite !elem_of_cons, elem_of_nil in Hx.
    destruct Hx as [->|[->|[->|[]]]]; decided.
  - left. done.
  - exists c, s'. split_and!; [exact Hcall|by rewrite Hcols| |by apply Hadmin].
    by rewrite Hconvs, Hcols.
Defined.

(** ** Sending a message *)


Lemma sendMessage_member now conversationId userId dto s :
  Forall (λ m, Message.id m < nextId s) (messages s) →
  (∃ c, c ∈ conversations s ∧ Conversation.id c = conversationId) →
  isParticipant conversationId userId s →
  replyKnown (sm_replyToId dto) s →
  let m := sentMessage now conversationId userId dto s in
  ChatService.sendMessage now conversationId userId dto s
  = (Ok (Some (Message.mk m (findOne (λ u, User.id u = userId) (users s))
                 None [])),
     withMessage now conversationId m s).
Proof.
  intros Hknown Hc Hin Hreply m.
  destruct (getConversationById_member _ _ _ Hc Hin) as [e He].
  unfold ChatService.sendMessage. unfold bind at 1. rewrite He.
  unfold bind at 1, query at 1. rewrite bool_decide_true by done.
  cbn [negb]. run.
  fold (sentMessage now conversationId userId dto s). fold m.
  rewrite (findOne_app_None _ _ m); [done| |done].
  apply findOne_None, filter_none. intros x Hx Hid.
  rewrite Forall_forall in Hknown. specialize (Hknown x Hx). lia.
Qed.




(** Whatever heads a sorted list is in relation with every element: an
    element nothing else is in relation with is the head. *)
Lemma sorted_head {A} `{!EqDecision A} (R : relation A) (srt : list A)
    (m : A) :
  StronglySorted R srt → m ∈ srt → (∀ x, x ∈ srt → x ≠ m → ¬ R x m) →
  ∃ rest, srt = m :: rest.
Proof.
  intros Hsrt Hm Hmax. destruct srt as [|h rest]; [by apply elem_of_nil in Hm|].
  destruct (decide (h = m)) as [->|Hne]; [by exists rest|].
  apply elem_of_cons in Hm as [->|Hm]; [done|].
  apply StronglySorted_inv in Hsrt as [_ Hall].
  rewrite Forall_forall in Hall. destruct (Hmax h); [left|done|by apply Hall].
Qed.

(** X7.  Once a participant has sent a message (one that answers no
    message, or a stored one) at a time later than that of every message
    of the conversation, the first page of the history, whatever its size
    from one up, ends with that message, and the total is one more than
    before. *)
Theorem sendMessage_then_getMessages
    now conversationId userId reader dto limit s :
  keysSound s →
  (∃ c, c ∈ conversations s ∧ Conversation.id c = conversationId) →
  isParticipant conversationId userId s →
  isParticipant conversationId reader s →
  replyKnown (sm_replyToId dto) s →
  (∀ m, m ∈ messages s → Message.conversationId m = conversationId →
        Message.createdAt m < now) →
  (1 ≤ limit)%Z →
  let s' := (ChatService.sendMessage now conversationId userId dto s).2 in
  ∃ found total msg,
    ChatService.getMessages conversationId reader 1 limit s'
    = (Ok (found, total), s') ∧
    total = S (length (liveMessages conversationId s)) ∧
    last found = Some msg ∧
    Message.columns msg = sentMessage now conversationId userId dto s.
Proof.
  intros Hs Hc Hin Hreader Hreply Hlater Hlimit s'.
  set (m := sentMessage now conversationId userId dto s).
  assert (s' = withMessage now conversationId m s) as Hs'.
  { unfold s'. by rewrite sendMessage_member; [|apply Hs|done..]. }
  assert (liveMessages conversationId s'
          = liveMessages conversationId s ++ [m]) as Hlive.
  { rewrite Hs'. unfold liveMessages. simpl. rewrite filter_app.
    by rewrite (filter_cons_True _ m []). }
  destruct (sorted_head newerFirst
              (merge_sort newerFirst (liveMessages conversationId s')) m)
    as [rest Hrest].
  - apply merge_sort_newerFirst.
  - rewrite merge_sort_Permutation, Hlive. set_solver.
  - intros x Hx Hne. rewrite merge_sort_Permutation, Hlive in Hx.
    apply elem_of_app in Hx as [Hx|Hx]; [|set_solver].
    apply list_elem_of_filter in Hx as [[Hxc _] Hx].
    specialize (Hlater x Hx Hxc). unfold newerFirst, m. simpl. lia.
  - assert (∃ c, c ∈ conversations s' ∧ Conversation.id c = conversationId)
      as Hc'.
    { destruct Hc as (c & Hc & Hid). exists (touchActivity now c).
      rewrite Hs'. simpl. split; [|done]. unfold updateById.
      apply list_elem_of_fmap. exists c. by rewrite decide_True. }
    assert (isParticipant conversationId reader s') as Hreader'
      by (by rewrite Hs').
    rewrite getMessages_member by done. cbv zeta. rewrite Hrest.
    eexists _, _, (ChatService.withRelations s' m). split; [done|].
    split_and!.
    + rewrite <-Hrest, (Permutation_length (merge_sort_Permutation _ _)).
      rewrite Hlive, length_app. simpl. lia.
    + replace (Z.to_nat limit) with (S (Z.to_nat (limit - 1))) by lia.
      simpl. rewrite reverse_cons. apply last_snoc.
    + done.
Qed.

Lemma sendMessage_then_getMessages_witness :
  ∃ found msg,
    (ChatService.getMessages 10 2 1 2
       (ChatService.sendMessage 500 10 1 (Sample.text "see you")
          Sample.chat).2).1
    = Ok (found, 4) ∧
    last found = Some msg ∧
    Message.content (Message.columns msg) = "see you".
Proof.
  destruct (sendMessage_then_getMessages 500 10 1 2 (Sample.text "see you") 2
              Sample.chat keysSound_chat)
    as (found & total & msg & Hget & -> & Hlast & Hcols);
    [ |decided|decided|exact I| |lia|].
  { eexists. split; [apply list_elem_of_here|reflexivity]. }
  { assert (Forall (λ m, Message.createdAt m < 500) (messages Sample.chat))
      as Hall by decided.
    rewrite Forall_forall in Hall. intros m Hm _. by apply Hall. }
  exists found, msg. split_and!; [by rewrite Hget|exact Hlast|].
  by rewrite Hcols.
Defined.

(** ** The conversations of a user *)

Lemma recentFirst_trans : Transitive recentFirst.
Proof.
  intros a b c. unfold recentFirst.
  destruct (Conversation.lastActivity a), (Conversation.lastActivity b),
    (Conversation.lastActivity c); try done. lia.
Qed.
Lemma recentFirst_total : Total recentFirst.
Proof.
  intros a b. unfold recentFirst.
  destruct (Conversation.lastActivity a), (Conversation.lastActivity b);
    try tauto. lia.
Qed.

Lemma merge_sort_recentFirst (l : list Conversation.row) :
  StronglySorted recentFirst (merge_sort recentFirst l).
Proof.
  apply (@StronglySorted_merge_sort _ recentFirst _
           recentFirst_trans recentFirst_total).
Qed.

(** X4.  [getUserConversations] never fails and writes nothing; it gives
    the conversations that have a join row for the user, each as often as
    the table holds it, and no other; a conversation without activity
    stamp comes before every stamped one, and of two stamped ones the one
    with the later stamp comes first. *)
Theorem getUserConversations_lists userId s :
  ∃ cs,
    ChatService.getUserConversations userId s = (Ok cs, s) ∧
    cs ≡ₚ filter (λ c, isParticipant (Conversation.id c) userId s)
            (conversations s) ∧
    (∀ before c after d, cs = before ++ c :: after → d ∈ after →
       match Conversation.lastActivity c, Conversation.lastActivity d with
       | None, _ => True
       | Some _, None => False
       | Some x, Some y => y ≤ x
       end).
Proof.
  set (mine := filter (λ c, (Conversation.id c, userId)
                             ∈ conversation_participants s) (conversations s)).
  exists (merge_sort recentFirst mine). split; [done|]. split.
  - rewrite merge_sort_Permutation. unfold mine.
    by rewrite (list_filter_iff _
                  (λ c, isParticipant (Conversation.id c) userId s)).
  - intros before c after d Heq Hd.
    pose proof (merge_sort_recentFirst mine) as Hsrt. rewrite Heq in Hsrt.
    apply StronglySorted_app_1_r, StronglySorted_inv in Hsrt as [_ Hall].
    rewrite Forall_forall in Hall. by apply Hall.
Qed.

Lemma getUserConversations_lists_witness :
  ∃ cs, ChatService.getUserConversations 3 Sample.busy = (Ok cs, Sample.busy)
        ∧ Conversation.id <$> cs ≡ₚ [14].
Proof.
  destruct (getUserConversations_lists 3 Sample.busy) as (cs & Hcall & Hcs & _).
  exists cs. split; [exact Hcall|]. by rewrite Hcs.
Defined.

(** X8.  After a participant has sent a message (one that answers no
    message, or a stored one) at a time later than the last activity of
    every other conversation of a user who takes part in the
    conversation, that user's list starts with this conversation. *)
Theorem sendMessage_bumps_conversation
    now conversationId userId reader dto s :
  keysSound s →
  (∃ c, c ∈ conversations s ∧ Conversation.id c = conversationId) →
  isParticipant conversationId userId s →
  isParticipant conversationId reader s →
  replyKnown (sm_replyToId dto) s →
  (∀ c, c ∈ conversations s → isParticipant (Conversation.id c) reader s →
        Conversation.id c ≠ conversationId →
        ∃ t, Conversation.lastActivity c = Some t ∧ t < now) →
  let s' := (ChatService.sendMessage now conversationId userId dto s).2 in
  ∃ c rest,
    ChatService.getUserConversations reader s' = (Ok (c :: rest), s') ∧
    Conversation.id c = conversationId ∧
    Conversation.lastActivity c = Some now.
Proof.
  intros Hs (c & Hc & Hid) Hin Hreader Hreply Hearlier s'.
  set (m := sentMessage now conversationId userId dto s).
  assert (s' = withMessage now conversationId m s) as ->.
  { unfold s'.
    rewrite sendMessage_member; [done|apply Hs|by exists c|done..]. }
  unfold ChatService.getUserConversations, query. simpl.
  set (mine := filter _ _).
  destruct (sorted_head recentFirst (merge_sort recentFirst mine)
              (touchActivity now c)) as [rest Hrest].
  - apply merge_sort_recentFirst.
  - rewrite merge_sort_Permutation. apply list_elem_of_filter. simpl.
    split; [by rewrite Hid|]. unfold updateById.
    apply list_elem_of_fmap. exists c. by rewrite decide_True.
  - intros x Hx Hne. rewrite merge_sort_Permutation in Hx.
    apply list_elem_of_filter in Hx as [Hxin Hx].
    unfold updateById in Hx. apply list_elem_of_fmap in Hx as (y & -> & Hy).
    destruct (decide (Conversation.id y = conversationId)) as [Hy'|Hy'].
    + destruct Hne. f_equal.
      apply (NoDup_key_inj Conversation.id (conversations s));
        [apply Hs|done..|congruence].
    + destruct (Hearlier y Hy Hxin Hy') as (t & Ht & Hlt).
      unfold recentFirst. rewrite Ht. simpl. lia.
  - rewrite Hrest. by eexists _, _.
Qed.

Lemma sendMessage_bumps_conversation_witness :
  ∃ c rest,
    (ChatService.getUserConversations 1
       (ChatService.sendMessage 500 10 2 (Sample.text "back") Sample.busy).2).1
    = Ok (c :: rest) ∧
    Conversation.id c = 10.
Proof.
  destruct (sendMessage_bumps_conversation 500 10 2 1 (Sample.text "back")
              Sample.busy keysSound_busy)
    as (c & rest & Hcall & Hid & _); [ |decided|decided|exact I| |].
  { eexists. split; [apply list_elem_of_here|reflexivity]. }
  { intros c Hc _ Hne.
    change (conversations Sample.busy)
      with [Conversation.mkRow 10 None DIRECT None None false (Some 1)
              (Some 103);
            Conversation.mkRow 14 (Some "team") GROUP None None false (Some 1)
              (Some 104)] in Hc.
    rewrite !elem_of_cons, elem_of_nil in Hc.
    destruct Hc as [->|[->|[]]]; [done|]. exists 104. split; [done|lia]. }
  exists c, rest. split; [by rewrite Hcall|exact Hid].
Defined.

(** ** Saving a loaded conversation *)

Lemma elem_of_participantIdsOf conversationId s x :
  x ∈ participantIdsOf conversationId s ↔ isParticipant conversationId x s.
Proof.
  unfold participantIdsOf, isParticipant. rewrite list_elem_of_fmap. split.
  - intros ([c u] & -> & [Hc Hp]%list_elem_of_filter). simpl in *. by subst.
  - intros Hp. exists (conversationId, x). split; [done|].
    by apply list_elem_of_filter.
Qed.

Lemma isParticipant_sync conversationId ps s x :
  isParticipant conversationId x (syncParticipants conversationId ps s)
  ↔ x ∈ User.id <$> ps.
Proof.
  unfold isParticipant, syncParticipants. simpl. rewrite elem_of_app. split.
  - intros [Hkept|Hadded].
    + apply list_elem_of_filter in Hkept as [[?|?] _]; done.
    + apply list_elem_of_fmap in Hadded as (u & Heq & Hu).
      injection Heq as ->. apply list_elem_of_filter in Hu as [_ Hu].
      by apply elem_of_uniq.
  - intros Hx.
    destruct (decide ((conversationId, x) ∈ conversation_participants s))
      as [Hin|Hout].
    + left. apply list_elem_of_filter. split; [by right|done].
    + right. apply list_elem_of_fmap. exists x. split; [done|].
      apply list_elem_of_filter. split; [|by apply elem_of_uniq].
      by rewrite elem_of_participantIdsOf.
Qed.

Lemma isParticipant_sync_other conversationId ps s cid x :
  cid ≠ conversationId →
  isParticipant cid x (syncParticipants conversationId ps s)
  ↔ isParticipant cid x s.
Proof.
  intros Hne. unfold isParticipant, syncParticipants. simpl.
  rewrite elem_of_app. split.
  - intros [Hkept|Hadded].
    + by apply list_elem_of_filter in Hkept as [_ ?].
    + apply list_elem_of_fmap in Hadded as (u & Heq & _).
      injection Heq as -> ->. done.
  - intros Hin. left. apply list_elem_of_filter. split; [by left|done].
Qed.

Lemma updateById_same {A} (key : A → Id) (i : Id) (patch : A → A)
    (l : list A) :
  (∀ x, x ∈ l → key x = i → patch x = x) → updateById key i patch l = l.
Proof.
  intros Hsame. unfold updateById. induction l as [|x l IH]; [done|].
  rewrite fmap_cons. f_equal.
  - destruct (decide (key x = i)); [|done]. apply Hsame; [left|done].
  - apply IH. intros y Hy. apply Hsame. by right.
Qed.

Lemma saveConversation_loaded c ps s :
  ChatService.saveConversation (Conversation.mk c (Some ps)) s
  = (Ok (Conversation.mk c (Some ps)),
     afterSave s
       (syncParticipants (Conversation.id c) ps
          (setConversations
             (updateById Conversation.id (Conversation.id c) (λ _, c)) s))).
Proof.
  unfold ChatService.saveConversation, afterSave. run.
  by case_decide.
Qed.

(** A save that sends nothing and one that sends a write leave the same
    rows. *)
Lemma afterSave_tables s s' :
  users (afterSave s s') = users s' ∧
  conversations (afterSave s s') = conversations s' ∧
  conversation_participants (afterSave s s') = conversation_participants s' ∧
  conversation_admins (afterSave s s') = conversation_admins s' ∧
  messages (afterSave s s') = messages s' ∧
  message_reactions (afterSave s s') = message_reactions s' ∧
  message_reads (afterSave s s') = message_reads s'.
Proof. unfold afterSave. by case_decide. Qed.

Ltac after_save :=
  repeat match goal with
  | |- context [users (afterSave ?s ?s')] =>
      rewrite (proj1 (afterSave_tables s s'))
  | |- context [conversations (afterSave ?s ?s')] =>
      rewrite (proj1 (proj2 (afterSave_tables s s')))
  | |- context [conversation_participants (afterSave ?s ?s')] =>
      rewrite (proj1 (proj2 (proj2 (afterSave_tables s s'))))
  | |- context [conversation_admins (afterSave ?s ?s')] =>
      rewrite (proj1 (proj2 (proj2 (proj2 (afterSave_tables s s')))))
  | |- context [messages (afterSave ?s ?s')] =>
      rewrite (proj1 (proj2 (proj2 (proj2 (proj2 (afterSave_tables s s'))))))
  | |- context [message_reactions (afterSave ?s ?s')] =>
      rewrite (proj1 (proj2 (proj2 (proj2 (proj2 (proj2
                 (afterSave_tables s s')))))))
  | |- context [message_reads (afterSave ?s ?s')] =>
      rewrite (proj2 (proj2 (proj2 (proj2 (proj2 (proj2
                 (afterSave_tables s s')))))))
  end.

Lemma isParticipant_afterSave s s' cid x :
  isParticipant cid x (afterSave s s') ↔ isParticipant cid x s'.
Proof. unfold afterSave. by case_decide. Qed.

Lemma isAdminOf_afterSave s s' cid x :
  isAdminOf cid x (afterSave s s') ↔ isAdminOf cid x s'.
Proof. unfold afterSave. by case_decide. Qed.

(** ** Updating a conversation *)

Lemma findOne_updateById_at {A} (key : A → Id) (tbl : list A) (i : Id)
    (patch : A → A) :
  (∀ r, key r = i → key (patch r) = i) →
  findOne (λ r, key r = i) (updateById key i patch tbl)
  = patch <$> findOne (λ r, key r = i) tbl.
Proof.
  intros Hkey. unfold findOne, updateById.
  induction tbl as [|r tbl IH]; [done|].
  rewrite fmap_cons, !filter_cons.
  destruct (decide (key r = i)) as [Hr|Hr].
  - rewrite decide_True by (by apply Hkey). done.
  - rewrite decide_False by done. done.
Qed.

Lemma updateConversation_stored conversationId userId dto s c :
  NoDup (Conversation.id <$> conversations s) →
  c ∈ conversations s → Conversation.id c = conversationId →
  ChatService.updateConversation conversationId userId dto s
  = if decide (isParticipant conversationId userId s) then
      if decide (Conversation.type c ≠ DIRECT ∧
                 ¬ isAdminOf conversationId userId s)
      then (Thrown (ForbiddenException
                      "Only admins can update conversation details"), s)
      else
        let us := filter (λ u, User.id u = userId) (users s) in
        (Ok (Conversation.mk (assignUpdate c dto) (Some us)),
         afterSave s
           (syncParticipants conversationId us
              (setConversations
                 (updateById Conversation.id conversationId
                    (λ _, assignUpdate c dto)) s)))
    else (Thrown (NotFoundException "Conversation not found or access denied"),
          s).
Proof.
  intros Hnd Hc Hid. unfold ChatService.updateConversation.
  unfold bind at 1. rewrite (getConversationById_stored _ _ _ c) by done.
  unfold isParticipant.
  destruct (decide ((conversationId, userId) ∈ conversation_participants s));
    [|done].
  cbn [Conversation.columns Conversation.participants].
  destruct (decide (Conversation.type c ≠ DIRECT)) as [Htype|Htype].
  - unfold bind at 1. unfold bind at 1. rewrite isUserAdmin_spec.
    destruct (decide (isAdminOf conversationId userId s)) as [Ha|Ha].
    + rewrite (bool_decide_eq_true_2 _ Ha). simpl.
      rewrite decide_False by tauto.
      rewrite saveConversation_loaded. simpl. by rewrite Hid.
    + rewrite (bool_decide_eq_false_2 _ Ha). simpl.
      by rewrite decide_True.
  - rewrite decide_False by tauto. unfold bind at 1. unfold ret at 1.
    rewrite saveConversation_loaded. simpl. by rewrite Hid.
Qed.

(** X5.  Updating a stored conversation: who is no participant gets
    NotFound; a participant of a conversation that is not direct who
    holds no admin row gets Forbidden; in a direct conversation every
    participant, elsewhere every participating admin, gets the
    conversation back with the name, description and avatar of the
    request where it gives one and the old value where it gives none;
    key, type, privacy, creator and last activity stay as they are, and so
    do the other conversations, their participants, the admins and the
    messages. *)
Theorem updateConversation_outcome conversationId userId dto s c :
  keysSound s →
  c ∈ conversations s → Conversation.id c = conversationId →
  let r := ChatService.updateConversation conversationId userId dto s in
  (¬ isParticipant conversationId userId s →
   r = (Thrown (NotFoundException "Conversation not found or access denied"),
        s)) ∧
  (isParticipant conversationId userId s →
   Conversation.type c ≠ DIRECT → ¬ isAdminOf conversationId userId s →
   r = (Thrown (ForbiddenException
                  "Only admins can update conversation details"), s)) ∧
  (isParticipant conversationId userId s →
   Conversation.type c = DIRECT ∨ isAdminOf conversationId userId s →
   ∃ c',
     r.1 = Ok c' ∧
     Conversation.columns c'
     = Conversation.mkRow (Conversation.id c)
         (match uc_name dto with
          | Some n => Some n | None => Conversation.name c end)
         (Conversation.type c)
         (match uc_description dto with
          | Some d => Some d | None => Conversation.description c end)
         (match uc_avatar dto with
          | Some a => Some a | None => Conversation.avatar c end)
         (Conversation.isPrivate c) (Conversation.createdBy c)
         (Conversation.lastActivity c) ∧
     findOne (λ x, Conversation.id x = conversationId) (conversations r.2)
     = Some (Conversation.columns c') ∧
     (∀ x, x ∈ conversations s → Conversation.id x ≠ conversationId →
           x ∈ conversations r.2) ∧
     length (conversations r.2) = length (conversations s) ∧
     (∀ cid x, cid ≠ conversationId →
               isParticipant cid x r.2 ↔ isParticipant cid x s) ∧
     (users r.2, conversation_admins r.2, messages r.2, message_reactions r.2,
      message_reads r.2)
     = (users s, conversation_admins s, messages s, message_reactions s,
        message_reads s)).
Proof.
  intros Hs Hc Hid r. unfold r.
  rewrite (updateConversation_stored _ _ _ _ c); [|apply Hs|done..].
  split_and!.
  - intros Hout. by rewrite decide_False.
  - intros Hin Htype Ha. by rewrite decide_True, decide_True.
  - intros Hin Hallowed. rewrite decide_True by done.
    rewrite decide_False.
    2: { intros [Htype Ha]. destruct Hallowed; done. }
    cbv zeta. eexists. split; [done|]. cbn [fst snd Conversation.columns].
    after_save.
    split_and!; [done|..].
    + simpl. rewrite (findOne_updateById_at Conversation.id) by done.
      subst conversationId.
      rewrite (findOne_key Conversation.id); [done|apply Hs|done].
    + intros x Hx Hne. simpl. unfold updateById.
      apply list_elem_of_fmap. exists x. by rewrite decide_False.
    + simpl. unfold updateById. by rewrite length_fmap.
    + intros cid x Hne.
      by rewrite isParticipant_afterSave, isParticipant_sync_other.
    + done.
Qed.

Lemma updateConversation_outcome_witness :
  ChatService.updateConversation 10 2
    (Build_UpdateConversationDto (Some "crew") None None) Sample.team
  = (Thrown (ForbiddenException "Only admins can update conversation details"),
     Sample.team) ∧
  ∃ c',
    (ChatService.updateConversation 10 1
       (Build_UpdateConversationDto (Some "crew") None None) Sample.team).1
    = Ok c' ∧
    Conversation.name (Conversation.columns c') = Some "crew" ∧
    Conversation.lastActivity (Conversation.columns c') = Some 101.
Proof.
  assert (Sample.teamRow ∈ conversations Sample.team) as Hc by decided.
  pose proof (updateConversation_outcome 10 2
                (Build_UpdateConversationDto (Some "crew") None None)
                Sample.team Sample.teamRow keysSound_team Hc eq_refl)
    as (_ & Hmember & _).
  pose proof (updateConversation_outcome 10 1
                (Build_UpdateConversationDto (Some "crew") None None)
                Sample.team Sample.teamRow keysSound_team Hc eq_refl)
    as (_ & _ & Hadmin).
  split.
  - apply Hmember; [decided|done|decided].
  - destruct Hadmin as (c' & Hcall & Hcols & _); [decided|right; decided|].
    exists c'. split; [exact Hcall|]. by rewrite Hcols.
Defined.

(** ** Adding and removing participants *)

Lemma addParticipant_stored conversationId userId dto s c :
  NoDup (Conversation.id <$> conversations s) →
  c ∈ conversations s → Conversation.id c = conversationId →
  ChatService.addParticipant conversationId userId dto s
  = if decide (isParticipant conversationId userId s) then
      if decide (Conversation.type c = DIRECT) then
        (Thrown (ForbiddenException
                   "Cannot add participants to direct conversations"), s)
      else if decide (isAdminOf conversationId userId s) then
        match findOne (λ u, User.id u = ap_userId dto) (users s) with
        | None => (Thrown (NotFoundException "User not found"), s)
        | Some newParticipant =>
            (Ok tt,
             afterSave s
               (syncParticipants conversationId
                  (filter (λ u, User.id u = userId) (users s)
                   ++ [newParticipant])
                  (setConversations
                     (updateById Conversation.id conversationId (λ _, c)) s)))
        end
      else (Thrown (ForbiddenException "Only admins can add participants"), s)
    else (Thrown (NotFoundException "Conversation not found or access denied"),
          s).
Proof.
  intros Hnd Hc Hid. unfold ChatService.addParticipant.
  unfold bind at 1. rewrite (getConversationById_stored _ _ _ c) by done.
  unfold isParticipant.
  destruct (decide ((conversationId, userId) ∈ conversation_participants s));
    [|done].
  cbn [Conversation.columns Conversation.participants].
  destruct (decide (Conversation.type c = DIRECT)); [done|].
  unfold bind at 1. rewrite isUserAdmin_spec.
  destruct (decide (isAdminOf conversationId userId s)) as [Ha|Ha].
  - rewrite (bool_decide_eq_true_2 _ Ha). simpl.
    unfold bind at 1. unfold query at 1.
    destruct (findOne _ (users s)) as [new|]; [|done].
    unfold bind at 1. rewrite saveConversation_loaded. simpl.
    by rewrite Hid.
  - by rewrite (bool_decide_eq_false_2 _ Ha).
Qed.

Lemma removeParticipant_stored conversationId userId participantId s c :
  NoDup (Conversation.id <$> conversations s) →
  c ∈ conversations s → Conversation.id c = conversationId →
  ChatService.removeParticipant conversationId userId participantId s
  = if decide (isParticipant conversationId userId s) then
      if decide (Conversation.type c = DIRECT) then
        (Thrown (ForbiddenException
                   "Cannot remove participants from direct conversations"), s)
      else if decide (isAdminOf conversationId userId s
                      ∨ userId = participantId) then
        (Ok tt,
         committed
           (setAdmins
              (deleteWhere
                 (λ a, ConversationAdmin.conversationId a = conversationId ∧
                       ConversationAdmin.userId a = participantId))
              (afterSave s
                 (syncParticipants conversationId
                    (filter (λ p, User.id p ≠ participantId)
                       (filter (λ u, User.id u = userId) (users s)))
                    (setConversations
                       (updateById Conversation.id conversationId (λ _, c))
                       s)))))
      else (Thrown (ForbiddenException
                      "Only admins can remove other participants"), s)
    else (Thrown (NotFoundException "Conversation not found or access denied"),
          s).
Proof.
  intros Hnd Hc Hid. unfold ChatService.removeParticipant.
  unfold bind at 1. rewrite (getConversationById_stored _ _ _ c) by done.
  unfold isParticipant.
  destruct (decide ((conversationId, userId) ∈ conversation_participants s));
    [|done].
  cbn [Conversation.columns Conversation.participants].
  destruct (decide (Conversation.type c = DIRECT)); [done|].
  unfold bind at 1. rewrite isUserAdmin_spec. cbv zeta.
  destruct (decide (isAdminOf conversationId userId s)) as [Ha|Ha].
  - rewrite (bool_decide_eq_true_2 _ Ha). simpl. rewrite decide_True by tauto.
    unfold bind at 1. unfold bind at 1. rewrite saveConversation_loaded.
    simpl. by rewrite Hid.
  - rewrite (bool_decide_eq_false_2 _ Ha). simpl.
    destruct (decide (userId = participantId)) as [Hself|Hself].
    + rewrite (bool_decide_eq_true_2 _ Hself). simpl.
      rewrite decide_True by tauto.
      unfold bind at 1. unfold bind at 1. rewrite saveConversation_loaded.
      simpl. by rewrite Hid.
    + rewrite (bool_decide_eq_false_2 _ Hself). simpl.
      by rewrite decide_False by tauto.
Qed.

Lemma updateById_stored (tbl : list Conversation.row) c :
  NoDup (Conversation.id <$> tbl) → c ∈ tbl →
  updateById Conversation.id (Conversation.id c) (λ _, c) tbl = tbl.
Proof.
  intros Hnd Hc. apply updateById_same. intros x Hx Hid.
  by apply (NoDup_key_inj Conversation.id tbl).
Qed.

(** X11.  Adding a participant to a stored conversation, check by check:
    who is no participant gets NotFound; in a direct conversation a
    participant gets Forbidden; in any other one a participant without
    admin row gets Forbidden, before the user to add is looked at; an
    admin gets NotFound when that user does not exist, and otherwise the
    user has a join row of the conversation afterwards, while
    conversations, admins, messages and the participants of the other
    conversations are as before.  Every failure leaves the store as it
    is. *)
Theorem addParticipant_outcome conversationId userId dto s c :
  keysSound s →
  c ∈ conversations s → Conversation.id c = conversationId →
  let r := ChatService.addParticipant conversationId userId dto s in
  (¬ isParticipant conversationId userId s →
   r = (Thrown (NotFoundException "Conversation not found or access denied"),
        s)) ∧
  (isParticipant conversationId userId s → Conversation.type c = DIRECT →
   r = (Thrown (ForbiddenException
                  "Cannot add participants to direct conversations"), s)) ∧
  (isParticipant conversationId userId s → Conversation.type c ≠ DIRECT →
   ¬ isAdminOf conversationId userId s →
   r = (Thrown (ForbiddenException "Only admins can add participants"), s)) ∧
  (isParticipant conversationId userId s → Conversation.type c ≠ DIRECT →
   isAdminOf conversationId userId s →
   (ap_userId dto ∉ User.id <$> users s →
    r = (Thrown (NotFoundException "User not found"), s)) ∧
   (ap_userId dto ∈ User.id <$> users s →
    r.1 = Ok tt ∧
    isParticipant conversationId (ap_userId dto) r.2 ∧
    (∀ cid x, cid ≠ conversationId →
              isParticipant cid x r.2 ↔ isParticipant cid x s) ∧
    (users r.2, conversations r.2, conversation_admins r.2, messages r.2,
     message_reactions r.2, message_reads r.2)
    = (users s, conversations s, conversation_admins s, messages s,
       message_reactions s, message_reads s))).
Proof.
  intros Hs Hc Hid r. unfold r.
  rewrite (addParticipant_stored _ _ _ _ c); [|apply Hs|done..].
  split_and!.
  - intros Hout. by rewrite decide_False.
  - intros Hin Htype. by rewrite decide_True, decide_True.
  - intros Hin Htype Ha.
    by rewrite decide_True, decide_False, decide_False.
  - intros Hin Htype Ha.
    rewrite decide_True, decide_False, decide_True by done. split.
    + intros Hout. rewrite (proj2 (findOne_None _ (users s))); [done|].
      apply filter_none. intros u Hu Heq. apply Hout. rewrite <-Heq.
      by apply list_elem_of_fmap_2.
    + intros (u & Heq & Hu)%list_elem_of_fmap.
      destruct (findOne_elem (λ x, User.id x = ap_userId dto) (users s) u Hu)
        as [new Hnew]; [done|].
      rewrite Hnew. apply findOne_Some in Hnew as [Hnewid _].
      cbn [fst snd]. split_and!; [done|..].
      * rewrite isParticipant_afterSave.
        apply isParticipant_sync. rewrite fmap_app, elem_of_app. right.
        simpl. rewrite Hnewid. left.
      * intros cid x Hne.
        rewrite isParticipant_afterSave.
        by rewrite isParticipant_sync_other.
      * simpl. after_save. simpl. subst conversationId.
        rewrite updateById_stored; [done|apply Hs|done].
Qed.

Lemma addParticipant_outcome_witness :
  ChatService.addParticipant 10 2 {| ap_userId := 3 |} Sample.club
  = (Thrown (ForbiddenException "Only admins can add participants"),
     Sample.club) ∧
  ChatService.addParticipant 10 1 {| ap_userId := 7 |} Sample.club
  = (Thrown (NotFoundException "User not found"), Sample.club) ∧
  (ChatService.addParticipant 10 1 {| ap_userId := 3 |} Sample.club).1
  = Ok tt ∧
  isParticipant 10 3
    (ChatService.addParticipant 10 1 {| ap_userId := 3 |} Sample.club).2.
Proof.
  assert (∃ c, c ∈ conversations Sample.club ∧ Conversation.id c = 10 ∧
               Conversation.type c = GROUP) as (c & Hc & Hid & Htype).
  { eexists. split_and!; [apply list_elem_of_here|reflexivity..]. }
  assert (Conversation.type c ≠ DIRECT) as Hgroup by (by rewrite Htype).
  pose proof (addParticipant_outcome 10 2 {| ap_userId := 3 |} Sample.club c
                keysSound_club Hc Hid) as (_ & _ & Hbob & _).
  pose proof (addParticipant_outcome 10 1 {| ap_userId := 7 |} Sample.club c
                keysSound_club Hc Hid) as (_ & _ & _ & Hmissing).
  pose proof (addParticipant_outcome 10 1 {| ap_userId := 3 |} Sample.club c
                keysSound_club Hc Hid) as (_ & _ & _ & Hcarol).
  destruct Hmissing as [Hmissing _]; [decided|done|decided|].
  destruct Hcarol as [_ Hcarol]; [decided|done|decided|].
  destruct Hcarol as (Hok & Hin & _); [decided|].
  split_and!.
  - apply Hbob; [decided|done|decided].
  - apply Hmissing. decided.
  - exact Hok.
  - exact Hin.
Defined.

(** X12.  Removing a participant from a stored conversation that is not
    direct: who is no participant gets NotFound; a participant without
    admin row who names somebody else gets Forbidden; an admin, and
    anybody who names themself, succeeds, and afterwards the named user
    has neither a join row nor an admin row of the conversation, whether
    or not the user had them before and whether or not an admin is left;
    the other admin rows, the conversations, the messages and the
    participants of the other conversations are as before. *)
Theorem removeParticipant_group conversationId userId participantId s c :
  keysSound s →
  c ∈ conversations s → Conversation.id c = conversationId →
  Conversation.type c ≠ DIRECT →
  let r := ChatService.removeParticipant conversationId userId participantId
             s in
  (¬ isParticipant conversationId userId s →
   r = (Thrown (NotFoundException "Conversation not found or access denied"),
        s)) ∧
  (isParticipant conversationId userId s →
   ¬ isAdminOf conversationId userId s → userId ≠ participantId →
   r = (Thrown (ForbiddenException
                  "Only admins can remove other participants"), s)) ∧
  (isParticipant conversationId userId s →
   isAdminOf conversationId userId s ∨ userId = participantId →
   r.1 = Ok tt ∧
   ¬ isParticipant conversationId participantId r.2 ∧
   ¬ isAdminOf conversationId participantId r.2 ∧
   (∀ a, a ∈ conversation_admins r.2
         ↔ a ∈ conversation_admins s ∧
           ¬ (ConversationAdmin.conversationId a = conversationId ∧
              ConversationAdmin.userId a = participantId)) ∧
   (∀ cid x, cid ≠ conversationId →
             isParticipant cid x r.2 ↔ isParticipant cid x s) ∧
   (users r.2, conversations r.2, messages r.2, message_reactions r.2,
    message_reads r.2)
   = (users s, conversations s, messages s, message_reactions s,
      message_reads s)).
Proof.
  intros Hs Hc Hid Htype r. unfold r.
  rewrite (removeParticipant_stored _ _ _ _ c); [|apply Hs|done..].
  split_and!.
  - intros Hout. by rewrite decide_False.
  - intros Hin Ha Hother.
    rewrite decide_True, decide_False, decide_False by tauto. done.
  - intros Hin Hallowed.
    rewrite decide_True, decide_False, decide_True by done.
    cbn [fst snd]. split_and!; [done|..].
    + change (isParticipant ?a ?b (committed (setAdmins ?f ?s0)))
        with (isParticipant a b s0).
        rewrite isParticipant_afterSave.
      rewrite isParticipant_sync.
      intros (u & Heq & [Hne _]%list_elem_of_filter)%list_elem_of_fmap.
      done.
    + unfold isAdminOf. simpl. rewrite Exists_exists.
      intros (a & [Hnot _]%list_elem_of_filter & Ha). done.
    + intros a. simpl. after_save. simpl. unfold deleteWhere.
      rewrite list_elem_of_filter. tauto.
    + intros cid x Hne.
      change (isParticipant ?a ?b (committed (setAdmins ?f ?s0)))
        with (isParticipant a b s0).
        rewrite isParticipant_afterSave.
      by rewrite isParticipant_sync_other.
    + simpl. after_save. simpl. subst conversationId.
      rewrite updateById_stored; [done|apply Hs|done].
Qed.

Lemma removeParticipant_group_witness :
  ChatService.removeParticipant 10 2 3 Sample.team
  = (Thrown (ForbiddenException "Only admins can remove other participants"),
     Sample.team) ∧
  (ChatService.removeParticipant 10 1 1 Sample.team).1 = Ok tt ∧
  isAdminOf 10 1 Sample.team ∧
  ¬ isAdminOf 10 1 (ChatService.removeParticipant 10 1 1 Sample.team).2 ∧
  ¬ isParticipant 10 1 (ChatService.removeParticipant 10 1 1 Sample.team).2.
Proof.
  assert (Sample.teamRow ∈ conversations Sample.team) as Hc by decided.
  assert (Conversation.type Sample.teamRow ≠ DIRECT) as Hgroup by done.
  pose proof (removeParticipant_group 10 2 3 Sample.team Sample.teamRow
                keysSound_team Hc eq_refl Hgroup) as (_ & Hbob & _).
  pose proof (removeParticipant_group 10 1 1 Sample.team Sample.teamRow
                keysSound_team Hc eq_refl Hgroup) as (_ & _ & Halice).
  destruct Halice as (Hok & Hout & Hnoadmin & _); [decided|by right|].
  split_and!.
  - apply Hbob; [decided|decided|done].
  - exact Hok.
  - decided.
  - exact Hnoadmin.
  - exact Hout.
Defined.

(** X13.  The conversation [getConversationById] loads carries the
    requester as its only participant, and a save brings the join rows
    of the conversation in line with the loaded array.  So, the requester
    being a stored user: after an update that succeeds the requester is
    the only participant left; after an addition that succeeds the
    participants are the requester and the user added; after a removal
    that succeeds the requester is the only participant left, or nobody
    when the requester named themself. *)
Theorem save_keeps_loaded_participants conversationId userId s c :
  keysSound s →
  c ∈ conversations s → Conversation.id c = conversationId →
  userId ∈ User.id <$> users s →
  (∀ dto x,
     let r := ChatService.updateConversation conversationId userId dto s in
     ¬ isThrown r.1 → isParticipant conversationId x r.2 ↔ x = userId) ∧
  (∀ dto x,
     let r := ChatService.addParticipant conversationId userId dto s in
     ¬ isThrown r.1 →
     isParticipant conversationId x r.2 ↔ x = userId ∨ x = ap_userId dto) ∧
  (∀ participantId x,
     let r := ChatService.removeParticipant conversationId userId
                participantId s in
     ¬ isThrown r.1 →
     isParticipant conversationId x r.2 ↔ x = userId ∧ x ≠ participantId).
Proof.
  intros Hs Hc Hid Hu.
  assert (∀ x, x ∈ User.id <$> filter (λ u, User.id u = userId) (users s)
               ↔ x = userId) as Hloaded.
  { intros x. rewrite list_elem_of_fmap. split.
    - intros (u & -> & [? _]%list_elem_of_filter). done.
    - intros ->. apply list_elem_of_fmap in Hu as (u & Heq & Hu).
      exists u. split; [done|]. by apply list_elem_of_filter. }
  split_and!.
  - intros dto x r. unfold r.
    rewrite (updateConversation_stored _ _ _ _ c); [|apply Hs|done..].
    repeat case_decide; simpl; try tauto. intros _.
    rewrite isParticipant_afterSave.
    by rewrite isParticipant_sync.
  - intros dto x r. unfold r.
    rewrite (addParticipant_stored _ _ _ _ c); [|apply Hs|done..].
    repeat case_decide; simpl; try tauto.
    destruct (findOne _ (users s)) as [new|] eqn:Hnew; simpl; [|tauto].
    intros _. apply findOne_Some in Hnew as [Hnew _].
    rewrite isParticipant_afterSave.
    rewrite isParticipant_sync, fmap_app, elem_of_app, Hloaded. simpl.
    rewrite Hnew. set_solver.
  - intros participantId x r. unfold r.
    rewrite (removeParticipant_stored _ _ _ _ c); [|apply Hs|done..].
    repeat case_decide; simpl; try tauto. intros _.
    change (isParticipant ?a ?b (committed (setAdmins ?f ?s0)))
      with (isParticipant a b s0).
      rewrite isParticipant_afterSave.
    rewrite isParticipant_sync, list_elem_of_fmap. split.
    + intros (u & -> & [Hne [Heq _]%list_elem_of_filter]%list_elem_of_filter).
      done.
    + intros [-> Hne]. apply list_elem_of_fmap in Hu as (u & Heq & Hu).
      exists u. split; [done|]. apply list_elem_of_filter.
      split; [congruence|]. by apply list_elem_of_filter.
Qed.

Lemma save_keeps_loaded_participants_witness :
  isParticipant 10 2 Sample.team ∧
  (ChatService.updateConversation 10 1
     (Build_UpdateConversationDto (Some "crew") None None) Sample.team).1
  = Ok (Conversation.mk
          (Conversation.mkRow 10 (Some "crew") GROUP None None false (Some 1)
             (Some 101)) (Some [Sample.alice])) ∧
  ¬ isParticipant 10 2
      (ChatService.updateConversation 10 1
         (Build_UpdateConversationDto (Some "crew") None None) Sample.team).2.
Proof.
  assert (Sample.teamRow ∈ conversations Sample.team) as Hc by decided.
  assert (1 ∈ User.id <$> users Sample.team) as Hu by decided.
  destruct (save_keeps_loaded_participants 10 1 Sample.team Sample.teamRow
              keysSound_team Hc eq_refl Hu) as (Hupdate & _ & _).
  split_and!; [decided|reflexivity|].
  rewrite (Hupdate (Build_UpdateConversationDto (Some "crew") None None) 2);
    [lia|]. by intros [].
Defined.

(** ** The membership check and the search *)

Lemma getConversationById_outsider conversationId userId s :
  ¬ ((∃ c, c ∈ conversations s ∧ Conversation.id c = conversationId) ∧
     isParticipant conversationId userId s) →
  ChatService.getConversationById conversationId userId s
  = (Thrown (NotFoundException "Conversation not found or access denied"), s).
Proof.
  intros Hnot. unfold ChatService.getConversationById. unfold bind, query.
  rewrite (proj2 (findOne_None _ (conversations s))); [done|].
  apply filter_none. intros c Hc [Hid Hin]. apply Hnot.
  split; [by exists c|done].
Qed.

(** The rows of a key, in a table whose keys are not repeated. *)
Lemma filter_key_one {A} (key : A → Id) (tbl : list A) (m : A) :
  NoDup (key <$> tbl) → m ∈ tbl → filter (λ r, key r = key m) tbl = [m].
Proof.
  induction tbl as [|r tbl IH]; intros Hnd Hm; [by apply elem_of_nil in Hm|].
  simpl in Hnd. apply NoDup_cons in Hnd as [Hr Hnd].
  rewrite filter_cons. apply elem_of_cons in Hm as [<-|Hm].
  - rewrite decide_True by done. f_equal. apply filter_none.
    intros y Hy Heq. destruct Hr. rewrite <-Heq. by apply list_elem_of_fmap_2.
  - rewrite decide_False; [by apply IH|].
    intros Heq. destruct Hr. rewrite Heq. by apply list_elem_of_fmap_2.
Qed.

(** X3.  In a store whose user keys are not repeated and whose join rows
    name stored users: [getConversationById] writes nothing.  It gives
    the stored conversation exactly when there is one with the key and
    the requester has a join row of it, and the [participants] it loads
    are one user, the requester.  In every other case, be the
    conversation missing or the requester no participant, the exception
    is the same NotFound. *)
Theorem getConversationById_outcome conversationId userId s :
  NoDup (User.id <$> users s) →
  participantsStored s →
  let r := ChatService.getConversationById conversationId userId s in
  r.2 = s ∧
  (isThrown r.1
   ↔ ¬ ((∃ c, c ∈ conversations s ∧ Conversation.id c = conversationId) ∧
        isParticipant conversationId userId s)) ∧
  (isThrown r.1 →
   r.1 = Thrown (NotFoundException "Conversation not found or access denied"))
  ∧ (∀ e, r.1 = Ok e →
       Conversation.columns e ∈ conversations s ∧
       Conversation.id (Conversation.columns e) = conversationId ∧
       ∃ u, Conversation.participants e = Some [u] ∧
            u ∈ users s ∧ User.id u = userId).
Proof.
  intros Hnd Hstored r. unfold r, ChatService.getConversationById.
  unfold bind, query.
  destruct (findOne _ (conversations s)) as [c|] eqn:Hfind; simpl.
  - apply findOne_Some in Hfind as [[Hid Hin] Hc].
    split_and!; [done| |done|].
    + split; [done|]. intros []. split; [by exists c|done].
    + intros e [= <-]. simpl. split_and!; [done..|].
      unfold participantsStored in Hstored. rewrite Forall_forall in Hstored.
      apply Hstored, list_elem_of_fmap in Hin as (u & Heq & Hu).
      simpl in Heq. exists u. split_and!; [|done..].
      subst userId. by rewrite (filter_key_one User.id).
  - split_and!; [done| |done|done].
    split; [|done]. intros _ [(c & Hc & Hid) Hin].
    apply findOne_None in Hfind.
    destruct (filter_nil_not_elem_of _ _ c Hfind); [by split|done].
Qed.

Lemma getConversationById_outcome_witness :
  (ChatService.getConversationById 10 3 Sample.chat).1
  = Thrown (NotFoundException "Conversation not found or access denied") ∧
  (ChatService.getConversationById 77 1 Sample.chat).1
  = Thrown (NotFoundException "Conversation not found or access denied") ∧
  ¬ isThrown (ChatService.getConversationById 10 1 Sample.chat).1 ∧
  ∀ e, (ChatService.getConversationById 10 1 Sample.chat).1 = Ok e →
       Conversation.participants e = Some [Sample.alice].
Proof.
  assert (participantsStored Sample.chat) as Hstored by decided.
  pose proof (users_keyed _ keysSound_chat) as Hnd.
  pose proof (getConversationById_outcome 10 3 Sample.chat Hnd Hstored)
    as (_ & Hiff3 & Hthrown3 & _).
  pose proof (getConversationById_outcome 77 1 Sample.chat Hnd Hstored)
    as (_ & Hiff77 & Hthrown77 & _).
  pose proof (getConversationById_outcome 10 1 Sample.chat Hnd Hstored)
    as (_ & Hiff1 & _ & Hloaded).
  split_and!.
  4: { intros e He. destruct (Hloaded e He) as (_ & _ & u & Hps & Hu & Hid).
       rewrite Hps. do 2 f_equal.
       apply (NoDup_key_inj User.id (users Sample.chat));
         [done..|decided|done]. }
  - apply Hthrown3, Hiff3. intros [_ Hin]. revert Hin. decided.
  - apply Hthrown77, Hiff77. intros [(c & Hc & Hid) _].
    assert (Forall (λ c, Conversation.id c ≠ 77) (conversations Sample.chat))
      as Hall by decided.
    rewrite Forall_forall in Hall. by apply (Hall c Hc).
  - rewrite Hiff1. intros Hnot. apply Hnot. split; [|decided].
    eexists. split; [apply list_elem_of_here|reflexivity].
Defined.

(** X14.  [searchMessages] writes nothing and asks for membership first:
    NotFound unless the conversation exists and the requester is a
    participant.  For a participant it gives, with their sender loaded,
    the messages of the conversation that are not deleted and whose
    content the database matches against the query text between two
    percent signs, each once, and no other message; a message created
    later never comes after one created earlier. *)
Theorem searchMessages_results
    (ilike : string → string → bool) conversationId userId queryText s :
  let r := ChatService.searchMessages ilike conversationId userId queryText
             s in
  r.2 = s ∧
  (¬ ((∃ c, c ∈ conversations s ∧ Conversation.id c = conversationId) ∧
      isParticipant conversationId userId s) →
   r.1 = Thrown (NotFoundException "Conversation not found or access denied"))
  ∧ ((∃ c, c ∈ conversations s ∧ Conversation.id c = conversationId) →
     isParticipant conversationId userId s →
     ∃ found,
       r.1 = Ok found ∧
       Message.columns <$> found
       ≡ₚ filter (λ m, Message.conversationId m = conversationId ∧
                       ilike (Message.content m) ("%" +:+ queryText +:+ "%")
                       = true ∧
                       Message.isDeleted m = false) (messages s) ∧
       StronglySorted newerFirst (Message.columns <$> found) ∧
       Forall (λ x, Message.sender x
                    = findOne (λ u, User.id u
                                    = Message.senderId (Message.columns x))
                        (users s)) found).
Proof.
  intros r. unfold r, ChatService.searchMessages.
  split_and!.
  - unfold bind. pose proof (getConversationById_unchanged
                               conversationId userId s) as Hsame.
    destruct (ChatService.getConversationById conversationId userId s)
      as [[e|e] s0]; simpl in *; by subst.
  - intros Hnot. unfold bind.
    by rewrite getConversationById_outsider.
  - intros Hc Hin.
    destruct (getConversationById_member _ _ _ Hc Hin) as [e He].
    unfold bind. rewrite He. simpl. eexists. split; [done|].
    assert (∀ ms : list Message.row,
              Message.columns <$> (ChatService.withSender s <$> ms) = ms)
      as Hcols.
    { intros ms. rewrite <-list_fmap_compose. apply list_fmap_id. }
    rewrite Hcols. split_and!.
    + apply merge_sort_Permutation.
    + apply merge_sort_newerFirst.
    + apply Forall_fmap, Forall_forall. by intros m _.
Qed.

Lemma searchMessages_results_witness :
  let exactly := λ content pattern : string,
    bool_decide (pattern = "%" +:+ content +:+ "%") in
  (ChatService.searchMessages exactly 10 3 "hi" Sample.chat).1
  = Thrown (NotFoundException "Conversation not found or access denied") ∧
  ∃ found,
    (ChatService.searchMessages exactly 10 1 "hi" Sample.chat).1 = Ok found ∧
    Message.columns <$> found ≡ₚ [Sample.hi].
Proof.
  intros exactly.
  pose proof (searchMessages_results exactly 10 3 "hi" Sample.chat)
    as (_ & Houtsider & _).
  pose proof (searchMessages_results exactly 10 1 "hi" Sample.chat)
    as (_ & _ & Hmember).
  split.
  - apply Houtsider. intros [_ Hin]. revert Hin. decided.
  - destruct Hmember as (found & Hcall & Hperm & _); [|decided|].
    { eexists. split; [apply list_elem_of_here|reflexivity]. }
    exists found. split; [exact Hcall|]. by rewrite Hperm.
Defined.

(** ** Status of a user *)

(** X16.  [updateStatus] never fails.  For a stored user it sets the
    status and stamps [lastSeen] with the time of the call, keeping the
    key and the name; for a key no user has it changes no row at all and
    says nothing.  The other users and tables stay as they are. *)
Theorem updateStatus_outcome now id status s :
  keysSound s →
  let r := UsersService.updateStatus now id status s in
  r.1 = Ok tt ∧
  (id ∉ User.id <$> users s → users r.2 = users s) ∧
  (∀ u, u ∈ users s → User.id u = id →
        findOne (λ x, User.id x = id) (users r.2)
        = Some (User.mk id (User.username u) status (Some now))) ∧
  (∀ u, u ∈ users s → User.id u ≠ id → u ∈ users r.2) ∧
  length (users r.2) = length (users s) ∧
  (conversations r.2, conversation_participants r.2, conversation_admins r.2,
   messages r.2, message_reactions r.2, message_reads r.2)
  = (conversations s, conversation_participants s, conversation_admins s,
     messages s, message_reactions s, message_reads s).
Proof.
  intros Hs r. unfold r, UsersService.updateStatus. run.
  split_and!; [done|..|done].
  - intros Hout. apply updateById_same. intros u Hu Hid. destruct Hout.
    rewrite <-Hid. by apply list_elem_of_fmap_2.
  - intros u Hu Hid. rewrite (findOne_updateById User.id) by done.
    subst id. rewrite (findOne_key User.id); [done|apply Hs|done].
  - intros u Hu Hne. unfold updateById.
    apply list_elem_of_fmap. exists u. by rewrite decide_False.
  - unfold updateById. by rewrite length_fmap.
Qed.

Lemma updateStatus_outcome_witness :
  users (UsersService.updateStatus 7 9 AWAY Sample.registered).2
  = users Sample.registered ∧
  findOne (λ x, User.id x = 1)
    (users (UsersService.updateStatus 7 1 AWAY Sample.registered).2)
  = Some (User.mk 1 "alice" AWAY (Some 7)).
Proof.
  pose proof (updateStatus_outcome 7 9 AWAY Sample.registered
                keysSound_registered) as (_ & Hunknown & _).
  pose proof (updateStatus_outcome 7 1 AWAY Sample.registered
                keysSound_registered) as (_ & _ & Hknown & _).
  split.
  - apply Hunknown. decided.
  - apply (Hknown Sample.alice); [decided|done].
Defined.

(** ** Connections *)


(** X17.  A connection without token, with a token that does not verify,
    or with one that names no stored user is disconnected and nothing
    else happens: the socket stays unauthenticated, and the presence
    map, the store and the other effects are as before.  Any other
    connection is authenticated as the user of the token and is not
    disconnected. *)
Theorem handleConnection_rejects verify now client st :
  let r := ChatGateway.handleConnection verify now client st in
  ((¬ ∃ u, authenticates verify client (ChatGateway.db st) u) →
   r = (client,
        ChatGateway.mkState (ChatGateway.connectedUsers st)
          (ChatGateway.db st)
          (ChatGateway.effects st
           ++ [ChatGateway.DisconnectSocket (ChatGateway.id client)]))) ∧
  (∀ u, authenticates verify client (ChatGateway.db st) u →
     ChatGateway.userId r.1 = Some (User.id u) ∧
     ChatGateway.user r.1 = Some u ∧
     ChatGateway.id r.1 = ChatGateway.id client ∧
     statusOf (User.id u) (ChatGateway.db r.2) = Some ONLINE ∧
     (∃ sockets, ChatGateway.connectedUsers r.2 !! User.id u = Some sockets ∧
                 ChatGateway.id client ∈ sockets) ∧
     ∀ e, e ∈ ChatGateway.effects r.2 → e ∉ ChatGateway.effects st →
          e ≠ ChatGateway.DisconnectSocket (ChatGateway.id client)).
Proof.
  intros r. split.
  - intros Hnot. unfold r, ChatGateway.handleConnection.
    destruct (ChatGateway.handshakeToken client) as [token|] eqn:Htoken;
      [|done].
    destruct (verify token) as [sub|] eqn:Hverify; [|done].
    unfold UsersService.findById, bind, query.
    destruct (findOne _ (users (ChatGateway.db st))) as [u|] eqn:Hu; [|done].
    destruct Hnot. exists u, token.
    pose proof Hu as [Hid _]%findOne_Some. simpl in Hid. subst sub.
    done.
  - intros u (token & Htoken & Hverify & Hu). unfold r.
    rewrite (handleConnection_valid _ _ _ _ token u) by done.
    cbn [fst snd ChatGateway.userId ChatGateway.user ChatGateway.id
           ChatGateway.db ChatGateway.connectedUsers ChatGateway.effects].
    split_and!; [done..| | |].
    + unfold statusOf. simpl.
      rewrite (findOne_updateById User.id) by done. by rewrite Hu.
    + eexists. rewrite lookup_insert_eq. split; [done|]. set_solver.
    + intros e He Hold ->.
      rewrite !elem_of_app in He.
      destruct He as [?|[He|[He|He]]]; [done|..].
      * by apply list_elem_of_singleton in He.
      * by apply list_elem_of_fmap in He as (? & ? & _).
      * by apply list_elem_of_singleton in He.
Qed.

Lemma handleConnection_rejects_witness :
  let st := ChatGateway.mkState ∅ Sample.chat [] in
  let dave := ChatGateway.mkSocket "s4" (Some "token-of-dave") None None in
  let alice := ChatGateway.mkSocket "s1" (Some "token-of-alice") None None in
  ChatGateway.handleConnection Sample.verify 1 Sample.strangerSocket st
  = (Sample.strangerSocket,
     ChatGateway.mkState ∅ Sample.chat [ChatGateway.DisconnectSocket "s9"]) ∧
  ChatGateway.handleConnection Sample.verify 1 dave st
  = (dave,
     ChatGateway.mkState ∅ Sample.chat [ChatGateway.DisconnectSocket "s4"]) ∧
  ChatGateway.userId (ChatGateway.handleConnection Sample.verify 1 alice st).1
  = Some 1 ∧
  statusOf 1
    (ChatGateway.db (ChatGateway.handleConnection Sample.verify 1 alice st).2)
  = Some ONLINE.
Proof.
  intros st dave alice.
  pose proof (handleConnection_rejects Sample.verify 1 Sample.strangerSocket
                st) as [Hstranger _].
  pose proof (handleConnection_rejects Sample.verify 1 dave st)
    as [Hdave _].
  pose proof (handleConnection_rejects Sample.verify 1 alice st)
    as [_ Halice].
  destruct (Halice Sample.alice) as (Huid & _ & _ & Hstatus & _).
  { exists "token-of-alice". split_and!; reflexivity. }
  split_and!.
  - apply Hstranger. intros (u & token & Htoken & _). discriminate.
  - apply Hdave. intros (u & token & Htoken & Hverify & Hu).
    injection Htoken as <-. vm_compute in Hverify.
    injection Hverify as Hid. apply findOne_Some in Hu as [_ Hu].
    assert (Forall (λ x, User.id x ≠ 4) (users Sample.chat)) as Hall
      by decided.
    rewrite Forall_forall in Hall. by apply (Hall u Hu).
  - exact Huid.
  - exact Hstatus.
Defined.

(** X18.  The presence map never keeps a user with an empty set of
    sockets: a connection, accepted or not, and a disconnect keep it so. *)
Theorem presence_entries_nonempty verify now client st :
  noEmptyEntry (ChatGateway.connectedUsers st) →
  noEmptyEntry
    (ChatGateway.connectedUsers
       (ChatGateway.handleConnection verify now client st).2) ∧
  noEmptyEntry
    (ChatGateway.connectedUsers (ChatGateway.handleDisconnect now client st)).
Proof.
  intros Hinv. split.
  - unfold ChatGateway.handleConnection.
    destruct (ChatGateway.handshakeToken client) as [token|]; [|done].
    destruct (verify token) as [sub|]; [|done].
    destruct (UsersService.findById sub (ChatGateway.db st)) as [[u|e] s'];
      [|done].
    simpl. intros uid sockets.
    destruct (decide (User.id u = uid)) as [->|Hne].
    + rewrite lookup_insert_eq. intros [= <-]. set_solver.
    + rewrite lookup_insert_ne by done. apply Hinv.
  - unfold ChatGateway.handleDisconnect.
    destruct (ChatGateway.userId client) as [uid|]; [|done].
    destruct (ChatGateway.connectedUsers st !! uid) as [sockets|] eqn:Hs;
      [|done].
    destruct (decide (size (sockets ∖ {[ChatGateway.id client]}) = 0))
      as [Hempty|Hrest]; simpl; intros u S.
    + destruct (decide (uid = u)) as [->|Hne].
      * by rewrite lookup_delete_eq.
      * rewrite lookup_delete_ne, lookup_insert_ne by done. apply Hinv.
    + destruct (decide (uid = u)) as [->|Hne].
      * rewrite lookup_insert_eq. intros [= <-] Heq. apply Hrest.
        rewrite Heq. apply size_empty.
      * rewrite lookup_insert_ne by done. apply Hinv.
Qed.

Lemma presence_entries_nonempty_witness :
  let st := ChatGateway.mkState ∅ Sample.chat [] in
  let alice := ChatGateway.mkSocket "s1" (Some "token-of-alice") None None in
  let st1 := (ChatGateway.handleConnection Sample.verify 1 alice st).2 in
  noEmptyEntry (ChatGateway.connectedUsers st1) ∧
  noEmptyEntry
    (ChatGateway.connectedUsers
       (ChatGateway.handleDisconnect 2 Sample.aliceSocket st1)).
Proof.
  intros st alice st1.
  assert (noEmptyEntry (ChatGateway.connectedUsers st)) as Hst.
  { intros u sockets Hu. unfold st in Hu.
    cbn [ChatGateway.connectedUsers] in Hu. by rewrite lookup_empty in Hu. }
  pose proof (presence_entries_nonempty Sample.verify 1 alice st Hst)
    as [Hst1 _].
  split; [exact Hst1|].
  apply (presence_entries_nonempty Sample.verify 2 Sample.aliceSocket st1 Hst1).
Defined.

(** X19.  A socket that connects and disconnects again leaves the presence
    map exactly as it was before it connected, the user having had other
    sockets or none (the map keeping no empty entry and the socket being
    a new one). *)
Theorem connect_then_disconnect verify now1 now2 client st u :
  noEmptyEntry (ChatGateway.connectedUsers st) →
  authenticates verify client (ChatGateway.db st) u →
  ChatGateway.id client
  ∉ default ∅ (ChatGateway.connectedUsers st !! User.id u) →
  let r := ChatGateway.handleConnection verify now1 client st in
  ChatGateway.connectedUsers (ChatGateway.handleDisconnect now2 r.1 r.2)
  = ChatGateway.connectedUsers st.
Proof.
  intros Hinv (token & Htoken & Hverify & Hu) Hnew r. unfold r.
  rewrite (handleConnection_valid _ _ _ _ token u) by done.
  cbn [fst snd]. unfold ChatGateway.handleDisconnect.
  cbn [ChatGateway.userId ChatGateway.connectedUsers ChatGateway.id].
  rewrite lookup_insert_eq.
  destruct (ChatGateway.connectedUsers st !! User.id u) as [sockets|] eqn:Hs;
    cbn [from_option id] in *.
  - assert ((sockets ∪ {[ChatGateway.id client]}) ∖ {[ChatGateway.id client]}
            = sockets) as -> by set_solver.
    rewrite decide_False.
    + cbn [ChatGateway.connectedUsers]. rewrite insert_insert_eq.
      by apply insert_id.
    + intros Hsize. apply size_empty_inv in Hsize.
      apply (Hinv _ _ Hs). by apply leibniz_equiv.
  - assert ((∅ ∪ {[ChatGateway.id client]}) ∖ {[ChatGateway.id client]}
            = (∅ : gset string)) as -> by set_solver.
    assert (size (∅ : gset string) = 0) as Hzero by apply size_empty.
    rewrite decide_True by done.
    cbn [ChatGateway.connectedUsers].
    rewrite insert_insert_eq, delete_insert_eq.
    by apply delete_id.
Qed.

Lemma connect_then_disconnect_witness :
  let st := ChatGateway.mkState ∅ Sample.chat [] in
  let alice := ChatGateway.mkSocket "s1" (Some "token-of-alice") None None in
  let r := ChatGateway.handleConnection Sample.verify 1 alice st in
  ChatGateway.connectedUsers r.2 !! 1 = Some {["s1"]} ∧
  ChatGateway.connectedUsers (ChatGateway.handleDisconnect 2 r.1 r.2) = ∅.
Proof.
  intros st alice r.
  assert (noEmptyEntry (ChatGateway.connectedUsers st)) as Hst.
  { intros u sockets Hu. unfold st in Hu.
    cbn [ChatGateway.connectedUsers] in Hu. by rewrite lookup_empty in Hu. }
  split.
  - unfold r, st, alice.
    rewrite (handleConnection_valid _ _ _ _ "token-of-alice" Sample.alice)
      by reflexivity.
    cbn [snd ChatGateway.connectedUsers]. rewrite lookup_insert_eq.
    rewrite lookup_empty. cbn [from_option id]. by f_equal.
  - apply (connect_then_disconnect Sample.verify 1 2 alice st Sample.alice Hst).
    + exists "token-of-alice". split_and!; reflexivity.
    + unfold st. cbn [ChatGateway.connectedUsers]. rewrite lookup_empty.
      cbn [from_option id]. set_solver.
Defined.

(** ** Events of a socket *)


(** X20.  A socket that is not authenticated gets nothing done: whatever
    event it sends, leaving a room apart, the handler returns at once,
    with the store, the typing map and the outbox as they were.  Leaving
    a room is not guarded. *)
Theorem unauthenticated_socket_ignored now readAt client e h :
  ChatGateway.userId client = None →
  match e with
  | LeaveConversation conversationId =>
      handle now readAt client e h
      = ChatGateway.mkHub (ChatGateway.store h) (ChatGateway.typingUsers h)
          (ChatGateway.outbox h
           ++ [ChatGateway.Leave (ChatGateway.id client) conversationId])
  | _ => handle now readAt client e h = h
  end.
Proof.
  intros Hnone. destruct e; simpl;
    unfold ChatGateway.handleJoinConversation, ChatGateway.handleSendMessage,
      ChatGateway.handleEditMessage, ChatGateway.handleDeleteMessage,
      ChatGateway.handleReactToMessage, ChatGateway.handleTypingStart,
      ChatGateway.handleTypingStop, ChatGateway.handleMarkAsRead,
      ChatGateway.handleUpdateStatus; rewrite ?Hnone; done.
Qed.

Lemma unauthenticated_socket_ignored_witness :
  handle 500 501 Sample.strangerSocket
    (SendMessageEvent 10 (Sample.text "let me in")) Sample.hub
  = Sample.hub ∧
  handle 500 501 Sample.strangerSocket (ReadConversation 10) Sample.hub
  = Sample.hub.
Proof.
  split.
  - apply (unauthenticated_socket_ignored 500 501 Sample.strangerSocket
             (SendMessageEvent 10 (Sample.text "let me in")) Sample.hub).
    reflexivity.
  - apply (unauthenticated_socket_ignored 500 501 Sample.strangerSocket
             (ReadConversation 10) Sample.hub).
    reflexivity.
Defined.

Lemma atomic_sendMessage now conversationId userId dto :
  atomic (ChatService.sendMessage now conversationId userId dto).
Proof. unfold ChatService.sendMessage. checks_then_writes. Qed.
Lemma atomic_editMessage now messageId userId content :
  atomic (ChatService.editMessage now messageId userId content).
Proof. unfold ChatService.editMessage. checks_then_writes. Qed.
Lemma atomic_deleteMessage now messageId userId :
  atomic (ChatService.deleteMessage now messageId userId).
Proof. unfold ChatService.deleteMessage. checks_then_writes. Qed.
Lemma atomic_reactToMessage now messageId userId dto :
  atomic (ChatService.reactToMessage now messageId userId dto).
Proof. unfold ChatService.reactToMessage. checks_then_writes. Qed.

(** What [sendMessage] and [editMessage] read back is there. *)
Lemma sendMessage_some now conversationId userId dto s :
  (ChatService.sendMessage now conversationId userId dto s).1 ≠ Ok None.
Proof.
  unfold ChatService.sendMessage. unfold bind at 1.
  destruct (ChatService.getConversationById conversationId userId s)
    as [[e|e] s0]; [|done].
  unfold bind at 1, query at 1. destruct (bool_decide _); [|done].
  cbn [negb]. run.
  match goal with |- context [findOne ?P ?l] =>
    destruct (findOne_elem P l
                (sentMessage now conversationId userId dto s0))
      as [m ->]; [set_solver|done|done] end.
Qed.

Lemma editMessage_some now messageId userId content s :
  (ChatService.editMessage now messageId userId content s).1 ≠ Ok None.
Proof.
  unfold ChatService.editMessage. unfold bind at 1. unfold query at 1.
  destruct (findOne _ (messages s)) as [m|] eqn:Hm; [|done]. run.
  apply findOne_Some in Hm as [[Hid _] Hm].
  match goal with |- context [findOne ?P ?l] =>
    destruct (findOne_elem P l (Message.setEdited content now m))
      as [m' ->]; [|done|done] end.
  unfold updateById. apply list_elem_of_fmap. exists m.
  by rewrite decide_True.
Qed.

Lemma markAsRead_ok now conversationId userId s :
  (ChatService.markAsRead now conversationId userId s).1 = Ok tt.
Proof. by rewrite markAsRead_fold. Qed.

Ltac no_error :=
  repeat (apply Forall_cons; split; [simpl; by intros ?|]);
  by apply Forall_nil.

(** X21.  Whatever event a socket sends: an "error" is emitted to the
    acting socket and to nobody else, and when one is emitted it is all
    the handler emits, and the store and the typing map are as they were
    before the event.  No handler emits more than twice. *)
Theorem errors_reach_only_the_sender now readAt client e h :
  let h' := handle now readAt client e h in
  ∃ added,
    ChatGateway.outbox h' = ChatGateway.outbox h ++ added ∧
    length added ≤ 2 ∧
    Forall (λ a, isError a → toClientOnly client a) added ∧
    (Exists isError added →
     length added = 1 ∧
     ChatGateway.store h' = ChatGateway.store h ∧
     ChatGateway.typingUsers h' = ChatGateway.typingUsers h).
Proof.
  intros h'. unfold h'. clear h'.
  assert (∀ hub : ChatGateway.Hub,
            hub = h →
            ∃ added,
              ChatGateway.outbox hub = ChatGateway.outbox h ++ added ∧
              length added ≤ 2 ∧
              Forall (λ a, isError a → toClientOnly client a) added ∧
              (Exists isError added →
               length added = 1 ∧
               ChatGateway.store hub = ChatGateway.store h ∧
               ChatGateway.typingUsers hub = ChatGateway.typingUsers h))
    as Hsame.
  { intros hub ->. exists []. rewrite app_nil_r.
    split_and!; [done|simpl; lia|constructor|].
    by intros ?%Exists_nil. }
  assert (∀ message s,
            s = ChatGateway.store h →
            ∃ added,
              ChatGateway.outbox (ChatGateway.fail client message s h)
              = ChatGateway.outbox h ++ added ∧
              length added ≤ 2 ∧
              Forall (λ a, isError a → toClientOnly client a) added ∧
              (Exists isError added →
               length added = 1 ∧
               ChatGateway.store (ChatGateway.fail client message s h)
               = ChatGateway.store h ∧
               ChatGateway.typingUsers (ChatGateway.fail client message s h)
               = ChatGateway.typingUsers h)) as Hfail.
  { intros message s ->. eexists. split; [done|].
    split_and!; [simpl; lia|by repeat constructor|done]. }
  assert (∀ s typing actions,
            Forall (λ a, ¬ isError a) actions → length actions ≤ 2 →
            ∃ added,
              ChatGateway.outbox
                (ChatGateway.mkHub s typing (ChatGateway.outbox h ++ actions))
              = ChatGateway.outbox h ++ added ∧
              length added ≤ 2 ∧
              Forall (λ a, isError a → toClientOnly client a) added ∧
              (Exists isError added →
               length added = 1 ∧
               ChatGateway.store
                 (ChatGateway.mkHub s typing
                    (ChatGateway.outbox h ++ actions))
               = ChatGateway.store h ∧
               ChatGateway.typingUsers
                 (ChatGateway.mkHub s typing
                    (ChatGateway.outbox h ++ actions))
               = ChatGateway.typingUsers h)) as Hfine.
  { intros s typing actions Hnone Hlen. exists actions.
    split_and!; [done..| |].
    - eapply Forall_impl; [exact Hnone|]. by intros a Ha ?.
    - intros Hex. apply Exists_exists in Hex as (a & Ha & Herr).
      rewrite Forall_forall in Hnone. by destruct (Hnone a Ha). }
  destruct e; simpl.
  - (* join:conversation *)
    unfold ChatGateway.handleJoinConversation.
    destruct (ChatGateway.userId client) as [uid|]; [|by apply Hsame].
    pose proof (getConversationById_unchanged conversationId uid
                  (ChatGateway.store h)) as Hs.
    destruct (ChatService.getConversationById _ _ _) as [[c|x] s];
      simpl in Hs; subst s.
    + apply (Hfine _ _ [_]); [no_error|simpl; lia].
    + by apply Hfail.
  - (* leave:conversation *)
    apply (Hfine _ _ [_]); [no_error|simpl; lia].
  - (* send:message *)
    unfold ChatGateway.handleSendMessage.
    destruct (ChatGateway.userId client) as [uid|]; [|by apply Hsame].
    pose proof (atomic_sendMessage now conversationId uid data
                  (ChatGateway.store h)) as Hs.
    pose proof (sendMessage_some now conversationId uid data
                  (ChatGateway.store h)) as Hsome.
    destruct (ChatService.sendMessage _ _ _ _ _) as [[[m|]|x] s];
      simpl in Hs, Hsome; [|done|].
    + unfold ChatGateway.send. simpl. rewrite <-app_assoc.
      apply (Hfine _ _ [_; _]); [no_error|simpl; lia].
    + apply Hfail. by apply Hs.
  - (* edit:message *)
    unfold ChatGateway.handleEditMessage.
    destruct (ChatGateway.userId client) as [uid|]; [|by apply Hsame].
    pose proof (atomic_editMessage now messageId uid content
                  (ChatGateway.store h)) as Hs.
    pose proof (editMessage_some now messageId uid content
                  (ChatGateway.store h)) as Hsome.
    destruct (ChatService.editMessage _ _ _ _ _) as [[[m|]|x] s];
      simpl in Hs, Hsome; [|done|].
    + apply (Hfine _ _ [_]); [no_error|simpl; lia].
    + apply Hfail. by apply Hs.
  - (* delete:message *)
    unfold ChatGateway.handleDeleteMessage.
    destruct (ChatGateway.userId client) as [uid|]; [|by apply Hsame].
    pose proof (atomic_deleteMessage now messageId uid
                  (ChatGateway.store h)) as Hs.
    destruct (ChatService.deleteMessage _ _ _ _) as [[[]|x] s]; simpl in Hs.
    + apply (Hfine _ _ [_]); [no_error|simpl; lia].
    + apply Hfail. by apply Hs.
  - (* react:message *)
    unfold ChatGateway.handleReactToMessage.
    destruct (ChatGateway.userId client) as [uid|]; [|by apply Hsame].
    pose proof (atomic_reactToMessage now messageId uid
                  {| rm_emoji := emoji |} (ChatGateway.store h)) as Hs.
    destruct (ChatService.reactToMessage _ _ _ _ _) as [[r|x] s];
      simpl in Hs.
    + apply (Hfine _ _ [_]); [no_error|simpl; lia].
    + apply Hfail. by apply Hs.
  - (* typing:start *)
    unfold ChatGateway.handleTypingStart.
    destruct (ChatGateway.userId client) as [uid|]; [|by apply Hsame].
    apply (Hfine _ _ [_]); [no_error|simpl; lia].
  - (* typing:stop *)
    unfold ChatGateway.handleTypingStop.
    destruct (ChatGateway.userId client) as [uid|]; [|by apply Hsame].
    apply (Hfine _ _ [_]); [no_error|simpl; lia].
  - (* read:conversation *)
    unfold ChatGateway.handleMarkAsRead.
    destruct (ChatGateway.userId client) as [uid|]; [|by apply Hsame].
    pose proof (markAsRead_ok now conversationId uid (ChatGateway.store h))
      as Hok.
    destruct (ChatService.markAsRead _ _ _ _) as [[[]|x] s]; [|done].
    apply (Hfine _ _ [_]); [no_error|simpl; lia].
  - (* update:status *)
    unfold ChatGateway.handleUpdateStatus.
    destruct (ChatGateway.userId client) as [uid|]; [|by apply Hsame].
    apply (Hfine _ _ [_]); [no_error|simpl; lia].
Qed.

Lemma errors_reach_only_the_sender_witness :
  ∃ added,
    ChatGateway.outbox
      (handle 500 501 Sample.carolSocket
         (SendMessageEvent 10 (Sample.text "let me in")) Sample.hub)
    = added ∧
    Forall (λ a, isError a → toClientOnly Sample.carolSocket a) added ∧
    (Exists isError added →
     ChatGateway.store
       (handle 500 501 Sample.carolSocket
          (SendMessageEvent 10 (Sample.text "let me in")) Sample.hub)
     = Sample.chat).
Proof.
  destruct (errors_reach_only_the_sender 500 501 Sample.carolSocket
              (SendMessageEvent 10 (Sample.text "let me in")) Sample.hub)
    as (added & Hout & _ & Hscoped & Hfailed).
  exists added. split_and!; [exact Hout|exact Hscoped|].
  intros Herr. by destruct (Hfailed Herr) as (_ & -> & _).
Defined.



(** X22.  A socket joins the room of a conversation exactly when its user
    is a participant of a stored conversation with that key; otherwise it
    gets the "error" and joins nothing.  The store is not written. *)
Theorem handleJoinConversation_outcome client uid conversationId h :
  ChatGateway.userId client = Some uid →
  let s := ChatGateway.store h in
  let h' := ChatGateway.handleJoinConversation client conversationId h in
  ((∃ c, c ∈ conversations s ∧ Conversation.id c = conversationId) ∧
   isParticipant conversationId uid s →
   h' = ChatGateway.mkHub s (ChatGateway.typingUsers h)
          (ChatGateway.outbox h
           ++ [ChatGateway.Join (ChatGateway.id client) conversationId])) ∧
  (¬ ((∃ c, c ∈ conversations s ∧ Conversation.id c = conversationId) ∧
      isParticipant conversationId uid s) →
   h' = ChatGateway.mkHub s (ChatGateway.typingUsers h)
          (ChatGateway.outbox h ++
           [ChatGateway.Emit (ChatGateway.ToClient (ChatGateway.id client))
              "error" (ChatGateway.ErrorMessage "Cannot join conversation")])).
Proof.
  intros Huid s h'. unfold h', ChatGateway.handleJoinConversation.
  rewrite Huid. fold s. split.
  - intros [Hc Hin].
    destruct (getConversationById_member _ _ _ Hc Hin) as [e ->]. done.
  - intros Hnot. by rewrite getConversationById_outsider.
Qed.

Lemma handleJoinConversation_outcome_witness :
  ChatGateway.handleJoinConversation Sample.bobSocket 10 Sample.hub
  = ChatGateway.mkHub Sample.chat ∅ [ChatGateway.Join "s2" 10] ∧
  ChatGateway.handleJoinConversation Sample.carolSocket 10 Sample.hub
  = ChatGateway.mkHub Sample.chat ∅
      [ChatGateway.Emit (ChatGateway.ToClient "s3") "error"
         (ChatGateway.ErrorMessage "Cannot join conversation")].
Proof.
  pose proof (handleJoinConversation_outcome Sample.bobSocket 2 10 Sample.hub
                eq_refl) as [Hbob _].
  pose proof (handleJoinConversation_outcome Sample.carolSocket 3 10
                Sample.hub eq_refl) as [_ Hcarol].
  split.
  - apply Hbob. split; [|decided].
    eexists. split; [apply list_elem_of_here|reflexivity].
  - apply Hcarol. intros [_ Hin]. revert Hin. decided.
Defined.

(** ** Typing *)


(** X27.  The typing map of an authenticated socket's user: after
    "typing:start" the user is typing in the conversation, after
    "typing:stop" the user is not; the other users of the conversation
    and the other conversations are as before, the store is not
    touched, and the map never keeps a conversation with nobody typing.
    A start followed by a stop gives back the map as it was when the user
    was not typing before. *)
Theorem typing_start_stop client uid conversationId h :
  ChatGateway.userId client = Some uid →
  noEmptyTyping (ChatGateway.typingUsers h) →
  let started := ChatGateway.handleTypingStart client conversationId h in
  let stopped := ChatGateway.handleTypingStop client conversationId h in
  typingIn conversationId started = typingIn conversationId h ∪ {[uid]} ∧
  typingIn conversationId stopped = typingIn conversationId h ∖ {[uid]} ∧
  (∀ cid, cid ≠ conversationId →
          typingIn cid started = typingIn cid h ∧
          typingIn cid stopped = typingIn cid h) ∧
  noEmptyTyping (ChatGateway.typingUsers started) ∧
  noEmptyTyping (ChatGateway.typingUsers stopped) ∧
  ChatGateway.store started = ChatGateway.store h ∧
  ChatGateway.store stopped = ChatGateway.store h ∧
  (uid ∉ typingIn conversationId h →
   ChatGateway.typingUsers
     (ChatGateway.handleTypingStop client conversationId started)
   = ChatGateway.typingUsers h).
Proof.
  intros Huid Hinv started stopped.
  unfold started, stopped, typingIn, ChatGateway.handleTypingStart,
    ChatGateway.handleTypingStop.
  rewrite Huid. cbn [ChatGateway.typingUsers ChatGateway.store].
  rewrite lookup_insert_eq.
  destruct (ChatGateway.typingUsers h !! conversationId) as [set|] eqn:Hset;
    cbn [from_option id].
  - assert (set ≠ ∅) as Hne by (by eapply Hinv).
    split_and!; [done| |..|done|done|].
    + destruct (decide (size (set ∖ {[uid]}) = 0)) as [He|He].
      * rewrite lookup_delete_eq. cbn [from_option id].
        apply size_empty_inv in He. by apply leibniz_equiv in He.
      * by rewrite lookup_insert_eq.
    + intros cid Hcid. rewrite lookup_insert_ne by done. split; [done|].
      destruct (decide (size (set ∖ {[uid]}) = 0)).
      * by rewrite lookup_delete_ne, lookup_insert_ne.
      * by rewrite lookup_insert_ne.
    + intros cid S. destruct (decide (conversationId = cid)) as [->|Hcid].
      * rewrite lookup_insert_eq. intros [= <-]. set_solver.
      * rewrite lookup_insert_ne by done. apply Hinv.
    + intros cid S. destruct (decide (size (set ∖ {[uid]}) = 0)) as [He|He].
      * destruct (decide (conversationId = cid)) as [->|Hcid].
        -- by rewrite lookup_delete_eq.
        -- rewrite lookup_delete_ne, lookup_insert_ne by done. apply Hinv.
      * destruct (decide (conversationId = cid)) as [->|Hcid].
        -- rewrite lookup_insert_eq. intros [= <-] Heq. apply He.
           rewrite Heq. apply size_empty.
        -- rewrite lookup_insert_ne by done. apply Hinv.
    + intros Hnew.
      assert ((set ∪ {[uid]}) ∖ {[uid]} = set) as -> by set_solver.
      rewrite decide_False.
      * rewrite insert_insert_eq. by apply insert_id.
      * intros He. apply size_empty_inv in He. by apply leibniz_equiv in He.
  - assert (size (∅ : gset Id) = 0) as Hzero by apply size_empty.
    rewrite ?Hset. cbn [from_option id].
    split_and!; [done|set_solver| |..|done|done|].
    + intros cid Hcid. by rewrite lookup_insert_ne.
    + intros cid S. destruct (decide (conversationId = cid)) as [->|Hcid].
      * rewrite lookup_insert_eq. intros [= <-]. set_solver.
      * rewrite lookup_insert_ne by done. apply Hinv.
    + done.
    + intros _.
      assert ((∅ ∪ {[uid]}) ∖ {[uid]} = (∅ : gset Id)) as -> by set_solver.
      rewrite decide_True by done.
      rewrite insert_insert_eq, delete_insert_eq. by apply delete_id.
Qed.

Lemma typing_start_stop_witness :
  typingIn 10 (ChatGateway.handleTypingStart Sample.aliceSocket 10 Sample.hub)
  = {[1]} ∧
  ChatGateway.typingUsers
    (ChatGateway.handleTypingStop Sample.aliceSocket 10
       (ChatGateway.handleTypingStart Sample.aliceSocket 10 Sample.hub))
  = ∅.
Proof.
  assert (noEmptyTyping (ChatGateway.typingUsers Sample.hub)) as Hinv.
  { intros c S Hc. unfold Sample.hub in Hc.
    cbn [ChatGateway.typingUsers] in Hc. by rewrite lookup_empty in Hc. }
  destruct (typing_start_stop Sample.aliceSocket 1 10 Sample.hub eq_refl Hinv)
    as (Hstart & _ & _ & _ & _ & _ & _ & Hround).
  split.
  - rewrite Hstart. unfold typingIn, Sample.hub.
    cbn [ChatGateway.typingUsers]. rewrite lookup_empty.
    cbn [from_option id]. apply leibniz_equiv. apply (left_id ∅ (∪)).
  - apply Hround. unfold typingIn, Sample.hub.
    cbn [ChatGateway.typingUsers]. rewrite lookup_empty.
    cbn [from_option id]. set_solver.
Defined.

(** X28.  Typing and reading are not checked against the participants:
    whatever the conversation key, stored or not, and whoever the
    authenticated user, "typing:start", "typing:stop" and
    "conversation:read" are emitted to the room of that key, the acting
    socket left out, and no "error" is. *)
Theorem rooms_take_typing_and_reads now readAt client uid conversationId h :
  ChatGateway.userId client = Some uid →
  ChatGateway.outbox (ChatGateway.handleTypingStart client conversationId h)
  = ChatGateway.outbox h ++
    [ChatGateway.Emit
       (ChatGateway.ToRoomButClient (ChatGateway.id client) conversationId)
       "typing:start"
       (ChatGateway.TypingStart uid (ChatGateway.user client)
          conversationId)] ∧
  ChatGateway.outbox (ChatGateway.handleTypingStop client conversationId h)
  = ChatGateway.outbox h ++
    [ChatGateway.Emit
       (ChatGateway.ToRoomButClient (ChatGateway.id client) conversationId)
       "typing:stop" (ChatGateway.TypingStop uid conversationId)] ∧
  ChatGateway.outbox
    (ChatGateway.handleMarkAsRead now readAt client conversationId h)
  = ChatGateway.outbox h ++
    [ChatGateway.Emit
       (ChatGateway.ToRoomButClient (ChatGateway.id client) conversationId)
       "conversation:read"
       (ChatGateway.ConversationRead uid conversationId readAt)].
Proof.
  intros Huid.
  unfold ChatGateway.handleTypingStart, ChatGateway.handleTypingStop,
    ChatGateway.handleMarkAsRead.
  rewrite Huid. split_and!; [done..|].
  pose proof (markAsRead_ok now conversationId uid (ChatGateway.store h))
    as Hok.
  by destruct (ChatService.markAsRead _ _ _ _) as [[[]|x] s].
Qed.

Lemma rooms_take_typing_and_reads_witness :
  ¬ isParticipant 10 3 Sample.chat ∧
  ChatGateway.outbox
    (ChatGateway.handleTypingStart Sample.carolSocket 10 Sample.hub)
  = [ChatGateway.Emit (ChatGateway.ToRoomButClient "s3" 10) "typing:start"
       (ChatGateway.TypingStart 3 (Some Sample.carol) 10)] ∧
  ChatGateway.outbox
    (ChatGateway.handleMarkAsRead 500 501 Sample.carolSocket 77 Sample.hub)
  = [ChatGateway.Emit (ChatGateway.ToRoomButClient "s3" 77)
       "conversation:read" (ChatGateway.ConversationRead 3 77 501)].
Proof.
  destruct (rooms_take_typing_and_reads 500 501 Sample.carolSocket 3 10
              Sample.hub eq_refl) as (Hstart & _ & _).
  destruct (rooms_take_typing_and_reads 500 501 Sample.carolSocket 3 77
              Sample.hub eq_refl) as (_ & _ & Hread).
  split_and!; [decided|exact Hstart|exact Hread].
Defined.

(** ** Editing, deleting and reacting over a socket *)

Lemma editMessage_found now userId content s m :
  NoDup (Message.id <$> messages s) → m ∈ messages s →
  ChatService.editMessage now (Message.id m) userId content s
  = if decide (Message.senderId m = userId) then
      (Ok (Some (Message.mk (Message.setEdited content now m)
                   (findOne (λ u, User.id u = Message.senderId m) (users s))
                   None [])),
       committed
         (setMessages
            (updateById Message.id (Message.id m)
               (Message.setEdited content now)) s))
    else (Thrown (NotFoundException "Message not found or access denied"), s).
Proof.
  intros Hnd Hm. unfold ChatService.editMessage.
  unfold bind at 1. unfold query at 1.
  destruct (decide (Message.senderId m = userId)) as [Hsender|Hsender].
  - assert (findOne (λ x, Message.id x = Message.id m ∧
                          Message.senderId x = userId) (messages s) = Some m)
      as ->.
    { destruct (findOne_elem (λ x, Message.id x = Message.id m ∧
                  Message.senderId x = userId) (messages s) m Hm) as [x Hx];
        [done|].
      rewrite Hx. f_equal. apply findOne_Some in Hx as [[Hxid _] Hin].
      by eapply (NoDup_key_inj Message.id). }
    run. rewrite (findOne_updateById Message.id) by done.
    by rewrite (findOne_key Message.id).
  - rewrite (proj2 (findOne_None _ (messages s))); [done|].
    apply filter_none. intros x Hx [Hxid Hxs].
    assert (x = m) as -> by (by eapply (NoDup_key_inj Message.id)).
    done.
Qed.

(** X24.  An edit sent over a socket by the sender of a stored message
    changes the message as [editMessage] does and is emitted as
    "message:edited", with the edited message, to the room of the
    conversation the message belongs to; from anybody else the store
    stays as it is and the only emit is the "error" to the acting
    socket. *)
Theorem handleEditMessage_outcome now client uid content h m :
  keysSound (ChatGateway.store h) →
  ChatGateway.userId client = Some uid →
  m ∈ messages (ChatGateway.store h) →
  let s := ChatGateway.store h in
  let h' := ChatGateway.handleEditMessage now client (Message.id m) content
              h in
  (Message.senderId m = uid →
   h' = ChatGateway.mkHub
          (committed
             (setMessages
                (updateById Message.id (Message.id m)
                   (Message.setEdited content now)) s))
          (ChatGateway.typingUsers h)
          (ChatGateway.outbox h ++
           [ChatGateway.Emit
              (ChatGateway.ToRoom (Message.conversationId m))
              "message:edited"
              (ChatGateway.MessageEdited
                 (Message.mk (Message.setEdited content now m)
                    (findOne (λ u, User.id u = uid) (users s)) None []))])) ∧
  (Message.senderId m ≠ uid →
   h' = ChatGateway.mkHub s (ChatGateway.typingUsers h)
          (ChatGateway.outbox h ++
           [ChatGateway.Emit (ChatGateway.ToClient (ChatGateway.id client))
              "error" (ChatGateway.ErrorMessage "Failed to edit message")])).
Proof.
  intros Hs Huid Hm s h'. unfold h', ChatGateway.handleEditMessage.
  rewrite Huid. fold s. rewrite editMessage_found; [|apply Hs|done].
  split.
  - intros Hsender. rewrite decide_True by done. by rewrite Hsender.
  - intros Hother. by rewrite decide_False.
Qed.

Lemma handleEditMessage_outcome_witness :
  ChatGateway.outbox
    (ChatGateway.handleEditMessage 500 Sample.bobSocket 12 "hi!" Sample.hub)
  = [ChatGateway.Emit (ChatGateway.ToRoom 10) "message:edited"
       (ChatGateway.MessageEdited
          (Message.mk (Message.setEdited "hi!" 500 Sample.hi)
             (Some Sample.bob) None []))] ∧
  ChatGateway.handleEditMessage 500 Sample.aliceSocket 12 "hi!" Sample.hub
  = ChatGateway.mkHub Sample.chat ∅
      [ChatGateway.Emit (ChatGateway.ToClient "s1") "error"
         (ChatGateway.ErrorMessage "Failed to edit message")].
Proof.
  assert (Sample.hi ∈ messages (ChatGateway.store Sample.hub)) as Hm
    by decided.
  pose proof (handleEditMessage_outcome 500 Sample.bobSocket 2 "hi!"
                Sample.hub Sample.hi keysSound_chat eq_refl Hm) as [Hbob _].
  pose proof (handleEditMessage_outcome 500 Sample.aliceSocket 1 "hi!"
                Sample.hub Sample.hi keysSound_chat eq_refl Hm)
    as [_ Halice].
  split.
  - exact (f_equal ChatGateway.outbox (Hbob eq_refl)).
  - apply Halice. simpl. lia.
Defined.



(** X26.  A reaction sent over a socket to a stored message is emitted as
    "message:reaction" to every connected socket: with the new reaction
    and the action "added" when the user had no reaction with that emoji
    on the message, with no reaction and the action "removed" when the
    user had one.  For a message that is not stored the only emit is the
    "error" to the acting socket. *)
Theorem handleReactToMessage_outcome now client uid messageId emoji h :
  ChatGateway.userId client = Some uid →
  let s := ChatGateway.store h in
  let h' := ChatGateway.handleReactToMessage now client messageId emoji h in
  (¬ messageExists messageId s →
   h' = ChatGateway.mkHub s (ChatGateway.typingUsers h)
          (ChatGateway.outbox h ++
           [ChatGateway.Emit (ChatGateway.ToClient (ChatGateway.id client))
              "error"
              (ChatGateway.ErrorMessage "Failed to react to message")])) ∧
  (messageExists messageId s → reactionsOf messageId uid emoji s = [] →
   ChatGateway.outbox h'
   = ChatGateway.outbox h ++
     [ChatGateway.Emit ChatGateway.ToAll "message:reaction"
        (ChatGateway.MessageReacted messageId
           (Some (MessageReaction.mk (nextId s) messageId uid emoji now))
           "added")] ∧
   reactionsOf messageId uid emoji (ChatGateway.store h')
   = [MessageReaction.mk (nextId s) messageId uid emoji now]) ∧
  (messageExists messageId s → reactionsOf messageId uid emoji s ≠ [] →
   ChatGateway.outbox h'
   = ChatGateway.outbox h ++
     [ChatGateway.Emit ChatGateway.ToAll "message:reaction"
        (ChatGateway.MessageReacted messageId None "removed")] ∧
   length (reactionsOf messageId uid emoji (ChatGateway.store h'))
   < length (reactionsOf messageId uid emoji s)).
Proof.
  intros Huid s h'. unfold h', ChatGateway.handleReactToMessage.
  rewrite Huid. fold s. split_and!.
  - intros Hm. by rewrite reactToMessage_missing.
  - intros Hm Hnone. rewrite reactToMessage_add by done.
    cbn [ChatGateway.outbox ChatGateway.store]. split; [done|].
    by rewrite (reactionsOf_snoc _ _ _ s _ now (nextId s)), Hnone.
  - intros Hm Hsome.
    destruct (reactionsOf messageId uid emoji s) as [|x rest] eqn:Hx; [done|].
    rewrite (reactToMessage_remove _ _ _ _ _ x) by (by rewrite ?Hx).
    cbn [ChatGateway.outbox ChatGateway.store]. split; [done|].
    rewrite reactionsOf_delete, Hx.
    rewrite filter_cons_False by (intros Hne; by apply Hne).
    simpl. pose proof (length_filter
      (λ r, ¬ MessageReaction.id r = MessageReaction.id x) rest). lia.
Qed.

Lemma handleReactToMessage_outcome_witness :
  ChatGateway.outbox
    (ChatGateway.handleReactToMessage 500 Sample.carolSocket 12 "+1"
       Sample.hub)
  = [ChatGateway.Emit ChatGateway.ToAll "message:reaction"
       (ChatGateway.MessageReacted 12
          (Some (MessageReaction.mk 14 12 3 "+1" 500)) "added")] ∧
  ChatGateway.outbox
    (ChatGateway.handleReactToMessage 501 Sample.carolSocket 12 "+1"
       (ChatGateway.handleReactToMessage 500 Sample.carolSocket 12 "+1"
          Sample.hub))
  = [ChatGateway.Emit ChatGateway.ToAll "message:reaction"
       (ChatGateway.MessageReacted 12
          (Some (MessageReaction.mk 14 12 3 "+1" 500)) "added");
     ChatGateway.Emit ChatGateway.ToAll "message:reaction"
       (ChatGateway.MessageReacted 12 None "removed")].
Proof.
  set (h1 := ChatGateway.handleReactToMessage 500 Sample.carolSocket 12 "+1"
               Sample.hub).
  destruct (handleReactToMessage_outcome 500 Sample.carolSocket 3 12 "+1"
              Sample.hub eq_refl) as (_ & Hadd & _).
  destruct (handleReactToMessage_outcome 501 Sample.carolSocket 3 12 "+1"
              h1 eq_refl) as (_ & _ & Hremove).
  destruct Hadd as [Hadd Hrow]; [decided|reflexivity|].
  destruct Hremove as [Hremove _]; [decided|by fold h1 in Hrow; rewrite Hrow|].
  split; [exact Hadd|]. rewrite Hremove. fold h1 in Hadd. by rewrite Hadd.
Defined.

(** ** Reaching users *)

(** X29.  [emitToUser] emits the event with its data once to each socket
    the presence map holds for the user, to no other socket, and not at
    all for a user without entry. *)
Theorem emitToUser_sockets {D} (connected : gmap Id (gset string))
    (userId : Id) (event : string) (data : D) :
  let sent := ChatGateway.emitToUser connected userId event data in
  NoDup sent ∧
  (∀ socket event' data',
     (socket, event', data') ∈ sent
     ↔ socket ∈ default ∅ (connected !! userId) ∧
       event' = event ∧ data' = data) ∧
  length sent = size (default ∅ (connected !! userId)).
Proof.
  intros sent. unfold sent, ChatGateway.emitToUser.
  destruct (connected !! userId) as [sockets|]; cbn [from_option id].
  - split_and!.
    + apply NoDup_fmap_2; [by intros a b [= ->]|apply NoDup_elements].
    + intros socket event' data'. rewrite list_elem_of_fmap. split.
      * intros (x & [= -> -> ->] & Hx). by apply elem_of_elements in Hx.
      * intros (Hx & -> & ->). exists socket. split; [done|].
        by apply elem_of_elements.
    + by rewrite length_fmap.
  - split_and!; [constructor| |done].
    intros socket event' data'. rewrite elem_of_nil. set_solver.
Qed.

Lemma emitToUser_sockets_witness :
  let connected : gmap Id (gset string) :=
    {[1 := {["s1"; "s4"]}; 2 := {["s2"]}]} in
  length (ChatGateway.emitToUser connected 1 "ping" "hello") = 2 ∧
  ChatGateway.emitToUser connected 3 "ping" "hello" = [] ∧
  ("s2", "ping", "hello") ∉ ChatGateway.emitToUser connected 1 "ping" "hello".
Proof.
  intros connected.
  destruct (emitToUser_sockets connected 1 "ping" "hello")
    as (_ & Hin & Hlen).
  destruct (emitToUser_sockets connected 3 "ping" "hello")
    as (_ & _ & Hnone).
  split_and!.
  - rewrite Hlen. reflexivity.
  - apply nil_length_inv. rewrite Hnone. reflexivity.
  - rewrite Hin. intros [Hs _]. revert Hs. decided.
Defined.


(** ** The callbacks of [markAsRead] under [Promise.all] *)

(** X15.  The callbacks of [markAsRead] run under [Promise.all], each
    asking for the marker of its message before it inserts one.  Message
    keys being unique, however the questions and the inserts of the
    callbacks interleave, a complete run ends with the same (message,
    user) markers as the run of the callbacks one after the other, which
    is itself one of these runs; and a second call, interleaved or not,
    adds nothing. *)
Theorem markAsRead_schedule_independent now conversationId userId s :
  NoDup (Message.id <$> messages s) →
  let s1 := (ChatService.markAsRead now conversationId userId s).2 in
  overlappedRun now conversationId userId s (message_reads s1) ∧
  (∀ rs', overlappedRun now conversationId userId s rs' →
          markerPairs rs' ≡ₚ markerPairs (message_reads s1)) ∧
  (∀ now' rs1 n1 rs2,
     overlappedRun now conversationId userId s rs1 →
     overlappedRun now' conversationId userId (withReads rs1 n1 s) rs2 →
     rs2 = rs1).
Proof.
  intros Hkeys s1. split_and!.
  - apply markAsRead_is_a_schedule.
  - intros rs' Hrun. by apply markAsRead_any_schedule.
  - intros now' rs1 n1 rs2 Hrun1 Hrun2.
    by eapply (markAsRead_overlapped_idempotent now now').
Qed.

Lemma markAsRead_schedule_independent_witness :
  overlappedRun 400 10 2 Sample.chat
    (message_reads (ChatService.markAsRead 400 10 2 Sample.chat).2) ∧
  markerPairs (message_reads (ChatService.markAsRead 400 10 2 Sample.chat).2)
  = [(13, 2); (12, 2); (11, 2)].
Proof.
  assert (NoDup (Message.id <$> messages Sample.chat)) as Hkeys by decided.
  destruct (markAsRead_schedule_independent 400 10 2 Sample.chat Hkeys)
    as (Hrun & _ & _).
  split; [exact Hrun|reflexivity].
Defined.
